(** * lambda_packager.package: the staging-and-assembly pipeline

    A shallow embedding of [LambdaAutoPackage] (src/lambda_packager/package.py)
    and of the parts of the Python standard library it drives ([str],
    [pathlib], [os], [shutil]), with the properties of the pipeline stated
    over it.

    Layout:
    - text: the [str] operations the code uses, [_is_hidden_file];
    - paths: [pathlib.PurePosixPath] as normalised segments;
    - disk: the file system as a tree, the [os] and [shutil] operations;
    - the packager: one definition per method of [LambdaAutoPackage];
    - the properties.

    Domain: a file system without symbolic links; paths whose segments
    name entries ([..] is not resolved: a path through [..] locates
    nothing); glob patterns that [pathlib] accepts (relative and not
    empty: on any other [rglob] raises, and the collector with it). *)

From Stdlib Require Import Ascii String List Bool Arith Lia DecimalString.

Set Warnings "-register-all".

From stdpp Require Import base relations list strings.

Open Scope string_scope.
Open Scope list_scope.

(** ** Text *)

Module Str.

(** [s.startswith(p)] *)
Fixpoint startswith (s p : string) : bool :=
  match p with
  | EmptyString => true
  | String c p' =>
      match s with
      | EmptyString => false
      | String d s' => Ascii.eqb d c && startswith s' p'
      end
  end.

(** [p in s] for strings: [p] occurs in [s] at some offset. *)
Fixpoint contains (p s : string) : bool :=
  startswith s p ||
  match s with
  | EmptyString => false
  | String _ s' => contains p s'
  end.

(** [s.split(sep)] for a one-character separator: never empty, the
    pieces hold no separator. *)
Fixpoint split (sep : ascii) (s : string) : list string :=
  match s with
  | EmptyString => [EmptyString]
  | String c s' =>
      if Ascii.eqb c sep then EmptyString :: split sep s'
      else match split sep s' with
           | x :: xs => String c x :: xs
           | [] => [String c EmptyString]
           end
  end.

(** [sep.join(l)] *)
Fixpoint join (sep : string) (l : list string) : string :=
  match l with
  | [] => EmptyString
  | [x] => x
  | x :: l' => x ++ sep ++ join sep l'
  end.

(** [s.endswith(p)]: some suffix of [s] is [p]. *)
Fixpoint endswith (s p : string) : bool :=
  String.eqb s p ||
  match s with
  | EmptyString => false
  | String _ s' => endswith s' p
  end.

(** [s[: -n]] for [n > 0]: all but the last [n] characters (empty when
    [s] is shorter). *)
Definition drop_last (n : nat) (s : string) : string :=
  substring 0 (String.length s - n)%nat s.

End Str.

(** A path segment is hidden when it starts with a dot. *)
Definition dot_name (seg : string) : bool := Str.startswith seg ".".

(** [LambdaAutoPackage._is_hidden_file]:
    [name.startswith(".") or "/." in name] *)
Definition _is_hidden_file (name : string) : bool :=
  Str.startswith name "." || Str.contains "/." name.

Definition slash : ascii := "/"%char.

(** The segments of a path string, as [name.split("/")] gives them. *)
Definition segments (name : string) : list string := Str.split slash name.

(** ** Paths

    A [pathlib.PurePosixPath]: whether it is anchored at [/], and its
    segments.  Parsing drops empty and [.] segments, as pathlib does; [..]
    is kept as a segment (pathlib does not collapse it, and neither does
    this model: locations below are compared segment by segment). *)

Record Path : Type := mkPath { absolute : bool; parts : list string }.

Global Instance Path_eq_dec : EqDecision Path.
Proof. solve_decision. Defined.

Definition real_segment (seg : string) : bool :=
  negb (String.eqb seg EmptyString) && negb (String.eqb seg ".").

(** [Path(s)] *)
Definition Path_of (s : string) : Path :=
  mkPath (Str.startswith s "/") (List.filter real_segment (segments s)).

(** [str(p)] *)
Definition str (p : Path) : string :=
  if absolute p then "/" ++ Str.join "/" (parts p)
  else match parts p with
       | [] => "."
       | _ => Str.join "/" (parts p)
       end.

(** [p.joinpath(q)] *)
Definition joinpath (p q : Path) : Path :=
  if absolute q then q else mkPath (absolute p) (parts p ++ parts q).

(** [p.parent]: the parent of an empty path is the path itself. *)
Definition parent (p : Path) : Path :=
  mkPath (absolute p) (removelast (parts p)).

Fixpoint strip_prefix (base l : list string) : option (list string) :=
  match base, l with
  | [], _ => Some l
  | b :: base', x :: l' => if String.eqb b x then strip_prefix base' l' else None
  | _ :: _, [] => None
  end.

(** [p.relative_to(base)]: [None] stands for the [ValueError] pathlib
    raises when [base] is not a prefix of [p]. *)
Definition relative_to (p base : Path) : option Path :=
  if Bool.eqb (absolute p) (absolute base)
  then option_map (mkPath false) (strip_prefix (parts base) (parts p))
  else None.

(** ** Disk

    The file system is a tree rooted at [/].  A directory lists its entries
    by name; an entry that is neither a regular file nor a directory (a
    named pipe, a dangling link) is [Other].  A location is the list of
    names from the root. *)

Definition location : Type := list string.

(** What a regular file holds: bytes, or a zip archive given by its member
    paths (relative to the archived root), each marked as a directory entry
    or not. *)
Inductive filedata : Type :=
| Bytes (b : string)
| ZipArchive (members : list (location * bool)).

Inductive node : Type :=
| File (data : filedata)
| Dir (entries : list (string * node))
| Other.

Inductive kind : Type := KFile (data : filedata) | KDir | KOther.

Definition kind_of (t : node) : kind :=
  match t with
  | File d => KFile d
  | Dir _ => KDir
  | Other => KOther
  end.

Fixpoint assoc (n : string) (es : list (string * node)) : option node :=
  match es with
  | [] => None
  | (m, c) :: es' => if String.eqb m n then Some c else assoc n es'
  end.

Fixpoint set_entry (n : string) (v : node) (es : list (string * node))
  : list (string * node) :=
  match es with
  | [] => [(n, v)]
  | (m, c) :: es' =>
      if String.eqb m n then (n, v) :: es' else (m, c) :: set_entry n v es'
  end.

Fixpoint lookup_node (t : node) (p : location) : option node :=
  match p with
  | [] => Some t
  | n :: p' =>
      match t with
      | Dir es =>
          match assoc n es with
          | Some c => lookup_node c p'
          | None => None
          end
      | _ => None
      end
  end.

(** [put t p v] stores [v] at [p] when the parent of [p] is a directory of
    [t], and leaves [t] as it is otherwise. *)
Fixpoint put (t : node) (p : location) (v : node) : node :=
  match p with
  | [] => v
  | n :: p' =>
      match t with
      | Dir es =>
          match p' with
          | [] => Dir (set_entry n v es)
          | _ =>
              match assoc n es with
              | Some c => Dir (set_entry n (put c p' v) es)
              | None => t
              end
          end
      | _ => t
      end
  end.

Definition kind_at (t : node) (p : location) : option kind :=
  option_map kind_of (lookup_node t p).

(** Some strict ancestor of [p] is there and is not a directory: the OS
    answers ENOTDIR rather than ENOENT. *)
Fixpoint blocked (t : node) (p : location) : bool :=
  match p with
  | [] => false
  | n :: p' =>
      match t with
      | Dir es =>
          match assoc n es with
          | Some c => blocked c p'
          | None => false
          end
      | _ => true
      end
  end.

(** The members [shutil.make_archive] writes for the tree [t]: per
    directory, top down, its sub-directories and then its regular files
    ([os.walk]; entries that are neither are left out).  The order among
    siblings is the one of the listing. *)
Fixpoint zip_members (pre : location) (t : node) : list (location * bool) :=
  match t with
  | Dir es =>
      List.map (fun e => (pre ++ [e.1], true))
        (List.filter (fun e => match e.2 with Dir _ => true | _ => false end) es)
      ++ List.map (fun e => (pre ++ [e.1], false))
        (List.filter (fun e => match e.2 with File _ => true | _ => false end) es)
      ++ List.flat_map (fun e => zip_members (pre ++ [e.1]) e.2) es
  | _ => []
  end.

(** No directory lists a name twice. *)
Fixpoint unique_names (l : list string) : bool :=
  match l with
  | [] => true
  | x :: l' => negb (existsb (String.eqb x) l') && unique_names l'
  end.

Fixpoint wf_node (t : node) : bool :=
  match t with
  | Dir es =>
      unique_names (List.map fst es) && forallb (fun e => wf_node e.2) es
  | _ => true
  end.

(** ** Effects

    A run threads the disk, the working directory and the trace of what
    was logged and which external tools were started; an exception ends
    the run and keeps the state reached. *)

Inductive exn : Type :=
| ValueError
| FileNotFoundError
| FileExistsError
| NotADirectoryError
| IsADirectoryError
| SameFileError
| SpecialFileError
| ShutilError (errors : list (string * location))
| CalledProcessError
| ExportError.

Inductive outcome (A : Type) : Type :=
| Ok (a : A)
| Raise (e : exn).
Arguments Ok {A} a.
Arguments Raise {A} e.

Inductive level : Type := DEBUG | INFO | WARNING.

Inductive event : Type :=
| Log (lvl : level) (msg : string)
| Subprocess (cmd : list string)
| ExportPoetry (target project : Path).

Record world : Type := mkWorld {
  disk : node;
  cwd : location;
  trace : list event
}.

Definition M (A : Type) : Type := world -> outcome A * world.

Definition ret {A} (a : A) : M A := fun w => (Ok a, w).

Definition bind {A B} (c : M A) (k : A -> M B) : M B :=
  fun w => match c w with
           | (Ok a, w') => k a w'
           | (Raise e, w') => (Raise e, w')
           end.

Definition raise {A} (e : exn) : M A := fun w => (Raise e, w).

Declare Scope run_scope.
Delimit Scope run_scope with run.
Notation "x <- c ;; k" := (bind c (fun x => k))
  (at level 100, c at next level, right associativity) : run_scope.
Notation "c ;;; k" := (bind c (fun _ => k))
  (at level 100, right associativity) : run_scope.
Open Scope run_scope.

Definition set_disk (w : world) (d : node) : world :=
  mkWorld d (cwd w) (trace w).

Definition emit (e : event) : M unit :=
  fun w => (Ok tt, mkWorld (disk w) (cwd w) (trace w ++ [e])).

Definition log (lvl : level) (msg : string) : M unit := emit (Log lvl msg).

(** Where the OS finds a path: relative paths start at the working
    directory [c]. *)
Definition locate_in (c : location) (p : Path) : location :=
  if absolute p then parts p else c ++ parts p.

Definition locate (w : world) (p : Path) : location := locate_in (cwd w) p.

(** [p.resolve()], printed *)
Definition resolved (w : world) (p : Path) : string :=
  "/" ++ Str.join "/" (locate w p).

(** ** [os] and [pathlib] on the disk *)

Definition is_file_at (d : node) (p : location) : bool :=
  match lookup_node d p with
  | Some (File _) => true
  | _ => false
  end.

Definition is_dir_at (d : node) (p : location) : bool :=
  match lookup_node d p with
  | Some (Dir _) => true
  | _ => false
  end.

Definition exists_at (d : node) (p : location) : bool :=
  match lookup_node d p with
  | Some _ => true
  | None => false
  end.

(** [p.is_file()], [p.is_dir()] *)
Definition is_file (p : Path) : M bool :=
  fun w => (Ok (is_file_at (disk w) (locate w p)), w).

Definition is_dir (p : Path) : M bool :=
  fun w => (Ok (is_dir_at (disk w) (locate w p)), w).

(** The error of reaching for something that is not there. *)
Definition unreachable (d : node) (p : location) : exn :=
  if blocked d p then NotADirectoryError else FileNotFoundError.

(** [Path.mkdir(exist_ok=True)], and [os.mkdir] wrapped in the same
    [except OSError: if not isdir: raise] inside [os.makedirs]: only the
    last segment is created, the parent has to be there. *)
Definition mkdir_exist_ok (p : location) : M unit :=
  fun w =>
    match lookup_node (disk w) p with
    | Some (Dir _) => (Ok tt, w)
    | Some _ => (Raise FileExistsError, w)
    | None =>
        match lookup_node (disk w) (removelast p) with
        | Some (Dir _) => (Ok tt, set_disk w (put (disk w) p (Dir [])))
        | _ => (Raise (unreachable (disk w) p), w)
        end
    end.

(** [os.makedirs(p, exist_ok=True)], on the segments of [p] last first:
    when the parent is missing it is made first (a [FileExistsError] from
    there is passed over), then [p] itself. *)
Fixpoint makedirs_up (rp : list string) : M unit :=
  match rp with
  | [] => mkdir_exist_ok []
  | _ :: rhead =>
      fun w =>
        if exists_at (disk w) (rev rhead) then mkdir_exist_ok (rev rp) w
        else match makedirs_up rhead w with
             | (Ok _, w') => mkdir_exist_ok (rev rp) w'
             | (Raise FileExistsError, w') => mkdir_exist_ok (rev rp) w'
             | (Raise e, w') => (Raise e, w')
             end
  end.

Definition makedirs (p : location) : M unit := makedirs_up (rev p).

(** [open(p, "wb")] followed by writing [data]: the file is created or
    truncated; its directory has to be there. *)
Definition write_file (p : location) (data : filedata) : M unit :=
  fun w =>
    match lookup_node (disk w) p with
    | Some (Dir _) => (Raise IsADirectoryError, w)
    | Some Other => (Raise SpecialFileError, w)
    | Some (File _) => (Ok tt, set_disk w (put (disk w) p (File data)))
    | None =>
        match lookup_node (disk w) (removelast p) with
        | Some (Dir _) => (Ok tt, set_disk w (put (disk w) p (File data)))
        | _ => (Raise (unreachable (disk w) p), w)
        end
    end.

(** ** [shutil] *)

(** [shutil.copyfile(src, dst)]: refuses to copy a file onto itself and
    to read or write a special file, then writes the bytes of [src]. *)
Definition copyfile_at (src dst : location) : M unit :=
  fun w =>
    if decide (src = dst) then (Raise SameFileError, w)
    else match lookup_node (disk w) src with
         | Some (File data) => write_file dst data w
         | Some (Dir _) => (Raise IsADirectoryError, w)
         | Some Other => (Raise SpecialFileError, w)
         | None => (Raise (unreachable (disk w) src), w)
         end.

Definition copyfile (src dst : Path) : M Path :=
  fun w => (copyfile_at (locate w src) (locate w dst) ;;; ret dst) w.

(** [shutil.copy2(src, dst)] for an entry [name] of a listed directory
    holding [data]: a destination that is a directory receives the file
    under its own name. *)
Definition copy2 (name : string) (data : filedata) (dst : location) : M unit :=
  fun w =>
    let dst' := if is_dir_at (disk w) dst then dst ++ [name] else dst in
    write_file dst' data w.

(** [os.path.join(a, b)] *)
Definition os_path_join (a b : string) : string :=
  if Str.startswith b "/" then b
  else if String.eqb a EmptyString || Str.endswith a "/" then a ++ b
  else a ++ "/" ++ b.

(** The [ignore] callback of [copytree]: from the directory being listed
    and the names in it to the names to leave out. *)
Definition ignore_callback : Type := string -> list string -> M (list string).

Definition name_in (n : string) (l : list string) : bool :=
  existsb (String.eqb n) l.

(** The loop of [shutil.copytree] over the listing [l] of [src]: an entry
    whose name was handed back by the callback is passed over, a directory
    is copied by [recur], a regular file by [copy2]; the error of an entry
    is recorded and the loop goes on. *)
Definition copy_entries (recur : node -> string -> location -> M unit)
    (ignored_names : list string) (src : string) (dst : location)
  : list (string * node) -> list (string * location) -> world ->
    list (string * location) * world :=
  fix each l errors w :=
    match l with
    | [] => (errors, w)
    | (name, child) :: l' =>
        if name_in name ignored_names then each l' errors w
        else
          let srcname := os_path_join src name in
          let dstname := dst ++ [name] in
          let '(r, w') :=
            match child with
            | Dir _ => recur child srcname dstname w
            | File data => copy2 name data dstname w
            | Other => (Raise SpecialFileError, w)
            end in
          match r with
          | Ok _ => each l' errors w'
          | Raise (ShutilError more) => each l' (errors ++ more) w'
          | Raise _ => each l' (errors ++ [(srcname, dstname)]) w'
          end
    end.

(** [shutil.copytree] with [dirs_exist_ok=True] on the directory [t]
    listed at [src]: ask the callback, make [dst], copy what is not left
    out, and raise the collected errors together at the end.  The listing
    is the one taken when the copy started: the destination is assumed not
    to lie inside the source. *)
Fixpoint _copytree (ignore : option ignore_callback)
    (t : node) (src : string) (dst : location) {struct t} : M unit :=
  match t with
  | Dir es =>
      fun w =>
        let '(ignored, w1) :=
          match ignore with
          | Some f => f src (List.map fst es) w
          | None => (Ok [], w)
          end in
        match ignored with
        | Raise e => (Raise e, w1)
        | Ok ignored_names =>
            match makedirs dst w1 with
            | (Raise e, w2) => (Raise e, w2)
            | (Ok _, w2) =>
                let '(errors, w3) :=
                  copy_entries (_copytree ignore) ignored_names src dst
                    es [] w2 in
                match errors with
                | [] => (Ok tt, w3)
                | _ => (Raise (ShutilError errors), w3)
                end
            end
        end
  | _ => raise NotADirectoryError
  end.

(** [shutil.copytree(src, dst, dirs_exist_ok=True, ignore=...)]: list
    [src] ([os.scandir]) and copy. *)
Definition copytree (src dst : Path) (ignore : option ignore_callback)
  : M Path :=
  fun w =>
    match lookup_node (disk w) (locate w src) with
    | Some t => (_copytree ignore t (str src) (locate w dst) ;;; ret dst) w
    | None => (Raise (unreachable (disk w) (locate w src)), w)
    end.

(** [shutil.make_archive(base_name, "zip", root_dir)]: the archive goes to
    [base_name + ".zip"], whose directory is made when missing; its members
    are the tree below [root_dir]. *)
Definition make_archive (base_name : string) (root_dir : Path) : M unit :=
  fun w =>
    let zip_filename := locate w (Path_of (base_name ++ ".zip")) in
    let archive_dir := removelast zip_filename in
    let made :=
      if exists_at (disk w) archive_dir then (Ok tt, w)
      else makedirs archive_dir w in
    match made with
    | (Raise e, w') => (Raise e, w')
    | (Ok _, w') =>
        let members :=
          match lookup_node (disk w') (locate w' root_dir) with
          | Some t => zip_members [] t
          | None => []
          end in
        write_file zip_filename (ZipArchive members) w'
    end.

(** ** The packager *)

(** Modelled from the spec: [lambda_packager.config.Config] is not part of
    the sources at hand; by section 3 of the specification it is an
    immutable record of the ordered glob patterns and the hidden-file
    switch. *)
Record Config : Type := mkConfig {
  src_patterns : list string;
  ignore_hidden_files : bool
}.

(** What the packager calls and does not define: the glob expansion of
    [pathlib] (a total function here: the model covers the runs in which
    [rglob] returns, which it does on the patterns it accepts), the order
    in which a Python [set] is iterated, the Python
    executable and what a subprocess does to the disk (with whether it
    exited with status 0), and the two functions of [lambda_packager.poetry]
    (not part of the sources at hand): whether the project is managed by
    poetry, and what exporting the lock file does to the disk (with the
    exception it ends in, if any). *)
Record collaborators : Type := mkCollaborators {
  rglob : Path -> string -> world -> list Path;
  iteration_order : list Path -> list Path;
  sys_executable : string;
  subprocess_effect : list string -> world -> bool * node;
  poetry_is_used : Path -> world -> bool;
  export_poetry_effect : Path -> Path -> world -> option exn * node
}.

(** An instance after [__init__]: the logger is the trace of the world. *)
Record LambdaAutoPackage : Type := mkPackage {
  project_directory : Path;
  config : Config;
  tmp_folder : Path
}.

Definition nl : string := String (ascii_of_nat 10) EmptyString.

Definition decimal (n : nat) : string :=
  DecimalString.NilEmpty.string_of_uint (Nat.to_uint n).

Definition repr_path (s : string) : string := "PosixPath('" ++ s ++ "')".

Definition repr_list (l : list string) : string :=
  "[" ++ Str.join ", " l ++ "]".

Definition repr_set (l : list string) : string :=
  match l with
  | [] => "set()"
  | _ => "{" ++ Str.join ", " l ++ "}"
  end.

(** A [for] loop over [l] that threads an accumulator. *)
Fixpoint for_each {A S : Type} (body : S -> A -> M S) (l : list A) (s : S)
  : M S :=
  match l with
  | [] => ret s
  | x :: l' => s' <- body s x ;; for_each body l' s'
  end.

Section Packager.

Variable E : collaborators.

(** [subprocess.check_output(cmd)] *)
Definition check_output (cmd : list string) : M unit :=
  emit (Subprocess cmd) ;;;
  fun w =>
    let '(ok, d) := subprocess_effect E cmd w in
    if ok then (Ok tt, set_disk w d)
    else (Raise CalledProcessError, set_disk w d).

(** [lambda_packager.poetry.export_poetry(target_path, project_directory)] *)
Definition export_poetry (target_path project : Path) : M unit :=
  emit (ExportPoetry target_path project) ;;;
  fun w =>
    match export_poetry_effect E target_path project w with
    | (None, d) => (Ok tt, set_disk w d)
    | (Some e, d) => (Raise e, set_disk w d)
    end.

(** [LambdaAutoPackage._is_hidden_file_list] *)
Definition _is_hidden_file_list (src : string) (files : list string)
  : M (list string) :=
  if _is_hidden_file src then
    (fun w =>
       log WARNING ("skipping hidden folder " ++ resolved w (Path_of src)) w) ;;;
    ret files
  else
    let files_to_skip := List.filter _is_hidden_file files in
    match files_to_skip with
    | [] => ret files_to_skip
    | _ =>
        (fun w =>
           log WARNING
             ("skipping hidden files " ++
              repr_list (List.map (fun file => repr_path (resolved w (Path_of file)))
                           files_to_skip)) w) ;;;
        ret files_to_skip
    end.

(** [LambdaAutoPackage._get_matching_files_and_folders]: the set is
    kept as a list without duplicates. *)
Definition _get_matching_files_and_folders (pattern_list : list string)
    (source_dir : Path) : M (list Path) :=
  fun w =>
    (Ok (fold_left
           (fun (matching_objects : list Path) pattern =>
              remove_dups (matching_objects ++ rglob E source_dir pattern w))
           pattern_list []), w).

(** The matched objects in the order in which the loop of
    [_copy_source_files] meets them, when it starts in [w]. *)
Definition matched (self : LambdaAutoPackage) (source_dir : Path) (w : world)
  : list Path :=
  match _get_matching_files_and_folders (src_patterns (config self))
          source_dir w with
  | (Ok matching_objects, _) => iteration_order E matching_objects
  | (Raise _, _) => []
  end.

(** The body of the loop of [_copy_source_files], for one matched
    object. *)
Definition copy_object (self : LambdaAutoPackage)
    (source_dir target_dir : Path)
    (copied_locations : list string) (object : Path) : M (list string) :=
  match relative_to object source_dir with
  | None => raise ValueError
  | Some relative_path =>
      let new_location := joinpath target_dir relative_path in
      f <- is_file object ;;
      if f then
        log DEBUG ("about to copy file from " ++ str object ++ " --> "
                   ++ str new_location) ;;;
        (fun w => mkdir_exist_ok (locate w (parent new_location)) w) ;;;
        if ignore_hidden_files (config self)
           && _is_hidden_file (str relative_path)
        then
          (fun w => log WARNING ("skipping file " ++ resolved w object) w) ;;;
          ret copied_locations
        else
          r <- copyfile object new_location ;;
          ret (copied_locations ++ [str r])
      else
        d <- is_dir object ;;
        if d then
          log DEBUG ("about to copy directory from " ++ str object ++ " --> "
                     ++ str new_location) ;;;
          let ignore_files_callback :=
            if ignore_hidden_files (config self)
            then Some _is_hidden_file_list else None in
          r <- copytree object new_location ignore_files_callback ;;
          ret (copied_locations ++ [str r])
        else
          log WARNING ("the path '" ++ str object
                       ++ "' was nether a file or directory") ;;;
          ret copied_locations
  end.

(** [LambdaAutoPackage._copy_source_files] *)
Definition _copy_source_files (self : LambdaAutoPackage)
    (source_dir target_dir : Path) : M unit :=
  matching_objects <-
    _get_matching_files_and_folders (src_patterns (config self)) source_dir ;;
  let objects := iteration_order E matching_objects in
  log INFO ("copying " ++ decimal (List.length matching_objects)
            ++ " matching_objects") ;;;
  log DEBUG ("copying "
             ++ repr_set (List.map (fun p => repr_path (str p)) objects)
             ++ " matching_objects") ;;;
  copied_locations <-
    for_each (copy_object self source_dir target_dir) objects [] ;;
  log INFO ("copied the following locations: " ++ nl
            ++ Str.join nl copied_locations).

(** [LambdaAutoPackage._install_requirements_txt] *)
Definition _install_requirements_txt (target : string)
    (requirements_file_path : Path) (no_deps : bool) : M unit :=
  f <- is_file requirements_file_path ;;
  if negb f then raise ValueError
  else
    log INFO ("installing pip requirements to '" ++ target ++ "'") ;;;
    let cmd := [sys_executable E; "-m"; "pip"; "install"; "-r";
                str requirements_file_path; "--target"; target] in
    let cmd := if no_deps then cmd ++ ["--no-deps"] else cmd in
    check_output cmd.

(** [LambdaAutoPackage._create_zip_file] *)
Definition _create_zip_file (source_dir : Path) (target : string) : M unit :=
  if Str.endswith target ".zip" then
    (fun w => mkdir_exist_ok (locate w (parent (Path_of target))) w) ;;;
    let name := Str.drop_last (String.length ".zip") target in
    make_archive name source_dir
  else raise ValueError.

(** The first statement of [execute]: pick the source of the
    dependencies and install them. *)
Definition install_dependencies (self : LambdaAutoPackage) : M unit :=
  f <- is_file (joinpath (project_directory self) (Path_of "requirements.txt")) ;;
  if f then
    log INFO "using requirements.txt file in project directory" ;;;
    let requirements_file_path :=
      joinpath (project_directory self) (Path_of "requirements.txt") in
    _install_requirements_txt (str (tmp_folder self))
      requirements_file_path false
  else
    p <- (fun w => (Ok (poetry_is_used E (project_directory self) w), w)) ;;
    if p then
      log INFO "using pyproject.toml file in project directory" ;;;
      let requirements_file_path :=
        joinpath (tmp_folder self) (Path_of "requirements.txt") in
      export_poetry requirements_file_path (project_directory self) ;;;
      _install_requirements_txt (str (tmp_folder self))
        requirements_file_path true
    else
      log WARNING "No dependency found, none will be packaged".

(** Where [execute] asks for the archive. *)
Definition archive_target (self : LambdaAutoPackage) : string :=
  str (joinpath (project_directory self) (Path_of "dist/lambda.zip")).

(** [LambdaAutoPackage.execute] *)
Definition execute (self : LambdaAutoPackage) : M unit :=
  install_dependencies self ;;;
  _copy_source_files self (project_directory self) (tmp_folder self) ;;;
  _create_zip_file (tmp_folder self) (archive_target self).

End Packager.

(** ** Configuration

    [_read_config] and [_get_config] read [pyproject.toml].  A parsed
    document is a table of TOML values, as [toml.loads] returns it. *)

Inductive toml : Type :=
| TomlString (s : string)
| TomlInteger (z : Z)
| TomlFloat (repr : string)
| TomlBoolean (b : bool)
| TomlDatetime (repr : string)
| TomlArray (items : list toml)
| TomlTable (entries : list (string * toml)).

(** What reading the configuration can end in, besides the errors of the
    file system: [TypeError], and the error of the parser. *)
Inductive config_exn : Type :=
| KeyError
| TypeError
| TomlDecodeError
| ReadError (e : exn).

(** [d.get(key)] on the entries of a [dict] *)
Fixpoint dict_get (key : string) (entries : list (string * toml)) : option toml :=
  match entries with
  | [] => None
  | (k, v) :: entries' => if String.eqb k key then Some v else dict_get key entries'
  end.

(** [v[key]] for a string key: a table answers with the value or with
    [KeyError]; no other value can be indexed by a string. *)
Definition getitem (v : toml) (key : string) : config_exn + toml :=
  match v with
  | TomlTable entries =>
      match dict_get key entries with
      | Some x => inr x
      | None => inl KeyError
      end
  | _ => inl TypeError
  end.

(** What the configuration reader calls and does not define:
    [toml.loads(file.read_text())], and the constructor of
    [lambda_packager.config.Config] on keyword arguments (not part of the
    sources at hand). *)
Record config_collaborators : Type := mkConfigCollaborators {
  toml_loads_text : Path -> world -> config_exn + list (string * toml);
  Config_init : list (string * toml) -> config_exn + Config
}.

Section Configuration.

Variable L : config_collaborators.

(** [LambdaAutoPackage._read_config] *)
Definition _read_config (file : Path)
  : world -> (config_exn + toml) * world :=
  fun w =>
    match toml_loads_text L file w with
    | inl e => (inl e, w)
    | inr config =>
        let found :=
          match getitem (TomlTable config) "tool" with
          | inl e => inl e
          | inr tool => getitem tool "lambda_packager"
          end in
        match found with
        | inr section => (inr section, w)
        | inl KeyError =>
            (inr (TomlTable []),
             mkWorld (disk w) (cwd w) (trace w ++ [Log WARNING "no config found!"]))
        | inl e => (inl e, w)
        end
    end.

(** [LambdaAutoPackage._get_config]: unpacking [config_dict] into the
    keyword arguments of [Config] needs a mapping. *)
Definition _get_config (file : Path)
  : world -> (config_exn + Config) * world :=
  fun w =>
    if negb (is_file_at (disk w) (locate w file)) then
      (Config_init L [],
       mkWorld (disk w) (cwd w) (trace w ++ [Log WARNING "no config file found!"]))
    else
      match _read_config file w with
      | (inl e, w') => (inl e, w')
      | (inr (TomlTable config_dict), w') => (Config_init L config_dict, w')
      | (inr _, w') => (inl TypeError, w')
      end.

End Configuration.

Definition is_table (v : toml) : bool :=
  match v with
  | TomlTable _ => true
  | _ => false
  end.

(** ** What a run writes

    The vocabulary of the properties: the single writes a run is made of,
    and which locations a part of the packager may write. *)

Definition leaf (v : node) : Prop := v = Dir [] \/ exists d, v = File d.

(** [p] can be created or overwritten: it is missing in an existing
    directory, or it is a regular file. *)
Definition writable (t : node) (p : location) : Prop :=
  (lookup_node t p = None /\ is_dir_at t (removelast p) = true) \/
  exists d, lookup_node t p = Some (File d).

(** ** What a run writes *)

Inductive write_step (Q : location -> kind -> Prop) (w : world) : world -> Prop :=
| step_log lvl msg :
    write_step Q w (mkWorld (disk w) (cwd w) (trace w ++ [Log lvl msg]))
| step_mkdir p :
    lookup_node (disk w) p = None -> is_dir_at (disk w) (removelast p) = true ->
    Q p KDir ->
    write_step Q w (set_disk w (put (disk w) p (Dir [])))
| step_write p data :
    writable (disk w) p -> Q p (KFile data) ->
    write_step Q w (set_disk w (put (disk w) p (File data))).

Definition writes (Q : location -> kind -> Prop) : world -> world -> Prop :=
  rtc (write_step Q).

Definition is_tool (e : event) : bool :=
  match e with
  | Log _ _ => false
  | _ => true
  end.

Definition tools (w : world) : list event := List.filter is_tool (trace w).

(** The callback the copier hands to [copytree]. *)
Definition callback (h : bool) : option ignore_callback :=
  if h then Some _is_hidden_file_list else None.

(** What [copytree] may write when it copies the directory listed at
    [src] to [dst]: the directories down to [dst], and entries below [dst];
    with the hidden-file callback, the latter only when [src] is not
    hidden, under names that are not hidden. *)
Definition tree_writes (h : bool) (src : string) (dst : location)
    (q : location) (k : kind) : Prop :=
  (k = KDir /\ q `prefix_of` dst) \/
  exists x, q = dst ++ x /\ x <> [] /\
    (h = true -> _is_hidden_file src = false /\
                 Forall (fun n => _is_hidden_file n = false) x).

(** What the loop body may write for the matched object [obj]: the
    directories down to its destination; the destination itself as a
    regular file, unless the filter is on and the relative path is hidden;
    and what [copytree] writes below the destination. *)
Definition object_writes (h : bool) (P T : Path) (c : location) (obj : Path)
    (q : location) (k : kind) : Prop :=
  exists rel, relative_to obj P = Some rel /\
    let dst := locate_in c (joinpath T rel) in
    (k = KDir /\ q `prefix_of` dst) \/
    (q = dst /\ (exists data, k = KFile data) /\
     (h = true -> _is_hidden_file (str rel) = false)) \/
    (exists x, q = dst ++ x /\ x <> [] /\
       (h = true -> _is_hidden_file (str obj) = false /\
                    Forall (fun n => _is_hidden_file n = false) x)).

(** The errors of the file system. *)
Definition os_error (e : exn) : bool :=
  match e with
  | FileNotFoundError | FileExistsError | NotADirectoryError
  | IsADirectoryError | SpecialFileError => true
  | _ => false
  end.

Definition staged_members (w : world) (root_dir : Path) : list (location * bool) :=
  match lookup_node (disk w) (locate w root_dir) with
  | Some t => zip_members [] t
  | None => []
  end.

(** ** Dependencies *)

Definition pip_command (E : collaborators) (target : string) (req : Path)
    (no_deps : bool) : list string :=
  let cmd := [sys_executable E; "-m"; "pip"; "install"; "-r"; str req;
              "--target"; target] in
  if no_deps then cmd ++ ["--no-deps"] else cmd.

Definition anything : location -> kind -> Prop := fun _ _ => True.

(** One turn of the loop of [copytree], for the entry [name]. *)
Definition copy_entry (h : bool) (src : string) (dst : location)
    (name : string) (child : node) : M unit :=
  match child with
  | Dir _ => _copytree (callback h) child (os_path_join src name) (dst ++ [name])
  | File data => copy2 name data (dst ++ [name])
  | Other => raise SpecialFileError
  end.

(** [obj] is a regular file directly under the source directory [P],
    named [n], and nothing stands in the way of its copy in the target
    directory [T]: the destination is another location, and is free or a
    regular file. *)
Definition plain_file (w : world) (P T obj : Path) (n : string) : Prop :=
  relative_to obj P = Some (mkPath false [n]) /\
  is_file_at (disk w) (locate w obj) = true /\
  locate w obj <> locate w T ++ [n] /\
  (kind_at (disk w) (locate w T ++ [n]) = None \/
   exists d, kind_at (disk w) (locate w T ++ [n]) = Some (KFile d)).

(** ** Scenarios

    A machine with the project at [/proj] (the working directory) and the
    staging directory, empty, at [/tmp/stage]; collaborators that find a
    given list of objects whatever the pattern, iterate a set in the order
    of its elements, and whose installer and export succeed and change
    nothing. *)
Module Scenario.

Definition finds (found : list Path) (poetry : bool) : collaborators :=
  mkCollaborators (fun _ _ _ => found) (fun objects => objects) "python3"
    (fun _ w => (true, disk w)) (fun _ _ => poetry)
    (fun _ _ w => (None, disk w)).

Definition machine (project : list (string * node)) : world :=
  mkWorld (Dir [("proj", Dir project); ("tmp", Dir [("stage", Dir [])])])
    ["proj"] [].

Definition packager (patterns : list string) (hide : bool)
  : LambdaAutoPackage :=
  mkPackage (mkPath false []) (mkConfig patterns hide)
    (mkPath true ["tmp"; "stage"]).

Definition relative (l : list string) : Path := mkPath false l.

Definition py : node := File (Bytes "pass").

End Scenario.

Import Scenario.

Definition with_requirements : world :=
  machine [("requirements.txt", File (Bytes "foo==1.0"));
           ("pyproject.toml", File (Bytes "[tool.poetry]"));
           ("handler.py", py)].

(** A project managed by poetry whose export writes nothing. *)
Definition poetry_only : world :=
  machine [("pyproject.toml", File (Bytes "[tool.poetry]")); ("handler.py", py)].

(** A package directory whose only Python file is hidden. *)
Definition hidden_module : world :=
  machine [("pkg", Dir [(".secret.py", py)])].

(** The spec's scenario with dependencies in place: a hidden file of an
    installed package stays, the project's own hidden file is skipped. *)
Definition with_installed_package : world :=
  mkWorld (Dir [("proj", Dir [("handler.py", py); (".env.py", py)]);
                ("tmp", Dir [("stage", Dir [("foo", Dir [(".libs", py)])])])])
    ["proj"] [].

(** The first scenario of the spec: [src/handler.py], no dependencies. *)
Definition handler_only : world :=
  machine [("src", Dir [("handler.py", py)])].

(** A project kept under a hidden directory, [/home/.cache/proj], which is
    also the working directory. *)
Definition under_hidden_directory : world :=
  mkWorld (Dir [("home", Dir [(".cache", Dir [("proj", Dir [("src", Dir [("a.py", py)])])])]);
                ("tmp", Dir [("stage", Dir [])])])
    ["home"; ".cache"; "proj"] [].

(** Collaborators whose export writes the requirements of the project
    into the staging directory. *)
Definition exporting (found : list Path) : collaborators :=
  mkCollaborators (fun _ _ _ => found) (fun objects => objects) "python3"
    (fun _ w => (true, disk w)) (fun _ _ => true)
    (fun _ _ w =>
       (None, put (disk w) ["tmp"; "stage"; "requirements.txt"]
                (File (Bytes "foo==1.0")))).

(** Collaborators whose installer exits with status 1 and whose export
    raises. *)
Definition failing (found : list Path) (poetry : bool) : collaborators :=
  mkCollaborators (fun _ _ _ => found) (fun objects => objects) "python3"
    (fun _ w => (false, disk w)) (fun _ _ => poetry)
    (fun _ _ w => (Some ExportError, disk w)).

(** A project with a package directory next to its handler. *)
Definition with_package : world :=
  machine [("handler.py", py);
           ("pkg", Dir [("mod.py", py); (".cache", Dir [("x.py", py)]);
                        ("sub", Dir [("deep.py", py)])])].

(** A parser that finds a [tool] table without the packager's entry, and a
    [Config] that takes the patterns it is given. *)
Definition other_tools_only : config_collaborators :=
  mkConfigCollaborators
    (fun _ _ => inr [("tool", TomlTable [("poetry", TomlTable [])])])
    (fun kwargs =>
       match dict_get "src_patterns" kwargs with
       | Some (TomlArray _) => inr (mkConfig [] true)
       | Some _ => inl TypeError
       | None => inr (mkConfig ["*.py"] true)
       end).

(** A project file replaces the file of a dependency with the same
    name. *)
Definition with_name_clash : world :=
  mkWorld (Dir [("proj", Dir [("six.py", File (Bytes "mine"))]);
                ("tmp", Dir [("stage", Dir [("six.py", File (Bytes "theirs"))])])])
    ["proj"] [].

(** * Properties *)

(** ** The hidden-file predicate *)

Section HiddenPredicate.

Lemma split_nonempty sep s : Str.split sep s <> [].
Proof.
  destruct s as [|c s]; simpl; [discriminate|].
  destruct (Ascii.eqb c sep); [discriminate|].
  destruct (Str.split sep s); discriminate.
Qed.

Lemma startswith_dot_cons c s :
  Str.startswith (String c s) "." = Ascii.eqb c "."%char.
Proof. cbn. destruct s; apply andb_true_r. Qed.

(** The first segment accounts for [startswith], the others for the
    occurrences of [/.]. *)
Lemma hidden_split s :
  Str.startswith s "." = dot_name (hd EmptyString (segments s)) /\
  Str.contains "/." s = existsb dot_name (tl (segments s)).
Proof.
  unfold segments, dot_name.
  induction s as [|c s [IHh IHt]].
  - split; reflexivity.
  - pose proof (split_nonempty slash s) as Hne.
    cbn [Str.split Str.contains].
    destruct (Ascii.eqb c slash) eqn:E.
    + apply Ascii.eqb_eq in E; subst c. split; [reflexivity|].
      cbn [tl].
      destruct (Str.split slash s) as [|x xs] eqn:Es; [congruence|].
      cbn [hd tl existsb] in *.
      rewrite <- IHh, <- IHt. reflexivity.
    + destruct (Str.split slash s) as [|x xs] eqn:Es; [congruence|].
      cbn [hd tl] in *. split.
      * rewrite !startswith_dot_cons. reflexivity.
      * rewrite <- IHt.
        cbn [Str.startswith]. unfold slash in E. rewrite E. reflexivity.
Qed.

Lemma hidden_existsb s :
  _is_hidden_file s = existsb dot_name (segments s).
Proof.
  unfold _is_hidden_file.
  destruct (hidden_split s) as [-> ->].
  pose proof (split_nonempty slash s) as Hne. unfold segments in *.
  destruct (Str.split slash s); [congruence|reflexivity].
Qed.

End HiddenPredicate.

(** C9. For every path string, [_is_hidden_file] answers true exactly when
    one of the [/]-separated segments of the string starts with a dot, the
    last segment included. *)
Theorem is_hidden_file_iff_dot_segment (name : string) :
  _is_hidden_file name = true <->
  exists seg, In seg (segments name) /\ Str.startswith seg "." = true.
Proof.
  rewrite hidden_existsb, existsb_exists. reflexivity.
Qed.

(** ** The disk *)

Lemma assoc_set_entry n v es m :
  assoc m (set_entry n v es) = if String.eqb n m then Some v else assoc m es.
Proof.
  induction es as [|[k c] es IH]; simpl.
  - destruct (String.eqb n m); reflexivity.
  - destruct (String.eqb k n) eqn:Ekn; simpl.
    + apply String.eqb_eq in Ekn; subst k.
      destruct (String.eqb n m); reflexivity.
    + destruct (String.eqb k m) eqn:Ekm.
      * apply String.eqb_eq in Ekm; subst k. rewrite String.eqb_sym, Ekn. reflexivity.
      * exact IH.
Qed.

Lemma lookup_leaf_below v n q : leaf v -> lookup_node v (n :: q) = None.
Proof. intros [->|[d ->]]; reflexivity. Qed.

Lemma writable_cons es n n' p' :
  writable (Dir es) (n :: n' :: p') ->
  exists c, assoc n es = Some c /\ writable c (n' :: p').
Proof.
  unfold writable, is_dir_at. cbn [removelast lookup_node].
  destruct (assoc n es) as [c|].
  - intros H. exists c. split; [reflexivity|exact H].
  - intros [[_ H]|[d H]]; discriminate.
Qed.

Lemma writable_dir t n p : writable t (n :: p) -> exists es, t = Dir es.
Proof.
  intros [[_ H]|[d H]]; destruct t as [?|es|]; eauto;
    unfold is_dir_at in H; destruct p; cbn in H; discriminate.
Qed.

Lemma kind_at_put t p v q :
  leaf v -> writable t p ->
  kind_at (put t p v) q = if decide (q = p) then Some (kind_of v) else kind_at t q.
Proof.
  intros Hv. revert t q. induction p as [|n p IH]; intros t q Hw.
  - destruct Hw as [[Hf _]|[d Hf]]; cbn in Hf; [discriminate|].
    injection Hf as ->. cbn [put]. destruct q as [|m q].
    + rewrite decide_True by reflexivity. reflexivity.
    + rewrite decide_False by discriminate.
      unfold kind_at. rewrite (lookup_leaf_below v) by assumption. reflexivity.
  - destruct (writable_dir _ _ _ Hw) as [es ->].
    destruct p as [|n' p'].
    + cbn [put]. destruct q as [|m q].
      { rewrite decide_False by discriminate. reflexivity. }
      unfold kind_at. cbn [lookup_node]. rewrite assoc_set_entry.
      destruct (String.eqb n m) eqn:E.
      * apply String.eqb_eq in E; subst m.
        destruct q as [|m' q].
        -- rewrite decide_True by reflexivity. reflexivity.
        -- rewrite decide_False by congruence.
           rewrite (lookup_leaf_below v) by assumption.
           destruct Hw as [[Hf _]|[d Hf]]; cbn in Hf;
             destruct (assoc n es) as [c|]; cbn; try discriminate; try reflexivity.
           injection Hf as ->; reflexivity.
      * rewrite decide_False; [reflexivity|].
        intros [= -> ->]. rewrite String.eqb_refl in E. discriminate.
    + change (put (Dir es) (n :: n' :: p') v) with
        (match assoc n es with
         | Some c => Dir (set_entry n (put c (n' :: p') v) es)
         | None => Dir es
         end).
      destruct (writable_cons _ _ _ _ Hw) as (c & Hc & Hwc).
      rewrite Hc.
      destruct q as [|m q].
      { rewrite decide_False by discriminate. reflexivity. }
      unfold kind_at. cbn [lookup_node]. rewrite assoc_set_entry.
      destruct (String.eqb n m) eqn:E.
      * apply String.eqb_eq in E; subst m. rewrite Hc.
        specialize (IH c q Hwc). unfold kind_at in IH. rewrite IH.
        destruct (decide (q = n' :: p')) as [->|Hne].
        -- rewrite !decide_True by reflexivity. reflexivity.
        -- rewrite !decide_False by congruence. reflexivity.
      * rewrite decide_False; [reflexivity|].
        intros [= -> ->]. rewrite String.eqb_refl in E. discriminate.
Qed.

Lemma is_dir_kind t p : is_dir_at t p = true <-> kind_at t p = Some KDir.
Proof.
  unfold is_dir_at, kind_at.
  destruct (lookup_node t p) as [[]|]; cbn; split; congruence.
Qed.

Lemma is_file_kind t p :
  is_file_at t p = true <-> exists d, kind_at t p = Some (KFile d).
Proof.
  unfold is_file_at, kind_at.
  destruct (lookup_node t p) as [[]|]; cbn; split;
    try congruence; eauto; intros [d H]; discriminate.
Qed.

Section Writes.

Context {Q : location -> kind -> Prop}.

Lemma writes_refl w : writes Q w w.
Proof. apply rtc_refl. Qed.

Lemma writes_trans w1 w2 w3 : writes Q w1 w2 -> writes Q w2 w3 -> writes Q w1 w3.
Proof. apply rtc_trans. Qed.

Lemma writes_step w w' : write_step Q w w' -> writes Q w w'.
Proof. apply rtc_once. Qed.

Lemma writes_cwd w w' : writes Q w w' -> cwd w' = cwd w.
Proof.
  induction 1 as [|w1 w2 w3 Hs _ IH]; [reflexivity|].
  rewrite IH. destruct Hs; reflexivity.
Qed.

Lemma writes_tools w w' : writes Q w w' -> tools w' = tools w.
Proof.
  induction 1 as [|w1 w2 w3 Hs _ IH]; [reflexivity|].
  rewrite IH. destruct Hs; unfold tools; cbn; [|reflexivity..].
  rewrite List.filter_app. cbn. apply app_nil_r.
Qed.

Lemma step_kind w w' q :
  write_step Q w w' ->
  kind_at (disk w') q = kind_at (disk w) q \/
  exists k, kind_at (disk w') q = Some k /\ Q q k /\
    (kind_at (disk w) q = None \/
     exists d d', kind_at (disk w) q = Some (KFile d) /\ k = KFile d').
Proof.
  intros [lvl msg|p Hp Hpar HQ|p data Hw HQ]; [left; reflexivity| |]; cbn.
  - rewrite kind_at_put; [|left; reflexivity|left; auto].
    destruct (decide (q = p)) as [->|]; [|left; reflexivity].
    right. exists KDir. repeat split; auto.
    left. unfold kind_at. rewrite Hp. reflexivity.
  - rewrite kind_at_put; [|right; eauto|assumption].
    destruct (decide (q = p)) as [->|]; [|left; reflexivity].
    right. exists (KFile data). repeat split; auto.
    unfold kind_at. destruct Hw as [[-> _]|[d ->]]; [left; reflexivity|].
    right. exists d, data. auto.
Qed.

Lemma writes_kind w w' q k :
  writes Q w w' -> kind_at (disk w') q = Some k ->
  kind_at (disk w) q = Some k \/ Q q k.
Proof.
  induction 1 as [|w1 w2 w3 Hs _ IH]; [auto|].
  intros Hk. destruct (IH Hk) as [Hk2|HQ]; [|auto].
  destruct (step_kind _ _ q Hs) as [E|(k' & E & HQ & _)].
  - left. congruence.
  - right. congruence.
Qed.

Lemma writes_dir w w' q :
  writes Q w w' -> is_dir_at (disk w) q = true -> is_dir_at (disk w') q = true.
Proof.
  induction 1 as [|w1 w2 w3 Hs _ IH]; [auto|].
  intros Hq. apply IH. apply is_dir_kind. apply is_dir_kind in Hq.
  destruct (step_kind _ _ q Hs) as [E|(k' & E & _ & [Hn|(d & d' & Hd & _)])];
    congruence.
Qed.

Lemma writes_file w w' q :
  writes Q w w' -> is_file_at (disk w) q = true -> is_file_at (disk w') q = true.
Proof.
  induction 1 as [|w1 w2 w3 Hs _ IH]; [auto|].
  intros Hq. apply IH. apply is_file_kind. apply is_file_kind in Hq as [d0 Hq].
  destruct (step_kind _ _ q Hs) as [E|(k' & E & _ & [Hn|(d & d' & Hd & ->)])];
    [exists d0|..]; try congruence.
  exists d'. exact E.
Qed.

End Writes.

Lemma writes_weaken (Q Q' : location -> kind -> Prop) w w' :
  (forall q k, Q q k -> Q' q k) -> writes Q w w' -> writes Q' w w'.
Proof.
  intros HQ. induction 1 as [|w1 w2 w3 Hs _ IH]; [apply rtc_refl|].
  eapply rtc_l; [|exact IH].
  destruct Hs; [apply step_log|apply step_mkdir; auto|apply step_write; auto].
Qed.

Section Primitives.

Lemma mkdir_writes p w r w' :
  mkdir_exist_ok p w = (r, w') ->
  writes (fun q k => q = p /\ k = KDir) w w'.
Proof.
  unfold mkdir_exist_ok. intros H.
  destruct (lookup_node (disk w) p) as [[]|] eqn:Ep;
    try (injection H as <- <-; apply writes_refl).
  destruct (lookup_node (disk w) (removelast p)) as [[]|] eqn:Epar;
    try (injection H as <- <-; apply writes_refl).
  injection H as <- <-. apply writes_step, step_mkdir.
  - assumption.
  - unfold is_dir_at. rewrite Epar. reflexivity.
  - split; reflexivity.
Qed.

Lemma mkdir_ok p w w' :
  mkdir_exist_ok p w = (Ok tt, w') -> is_dir_at (disk w') p = true.
Proof.
  unfold mkdir_exist_ok. intros H.
  destruct (lookup_node (disk w) p) as [[]|] eqn:Ep; try discriminate.
  - injection H as <-. unfold is_dir_at. rewrite Ep. reflexivity.
  - destruct (lookup_node (disk w) (removelast p)) as [[]|] eqn:Epar;
      try discriminate.
    injection H as <-. apply is_dir_kind. cbn.
    rewrite kind_at_put.
    + rewrite decide_True by reflexivity. reflexivity.
    + left; reflexivity.
    + left. split; [assumption|]. unfold is_dir_at. rewrite Epar. reflexivity.
Qed.

Lemma makedirs_up_writes rp w r w' :
  makedirs_up rp w = (r, w') ->
  writes (fun q k => q `prefix_of` rev rp /\ k = KDir) w w'.
Proof.
  revert w r w'. induction rp as [|n rhead IH]; intros w r w' H.
  - cbn [makedirs_up] in H. eapply writes_weaken; [|eapply mkdir_writes; exact H].
    intros q k [-> ->]. split; [reflexivity|reflexivity].
  - cbn [makedirs_up] in H.
    assert (Hlast : forall w1 r1 w2, mkdir_exist_ok (rev (n :: rhead)) w1 = (r1, w2) ->
              writes (fun q k => q `prefix_of` rev (n :: rhead) /\ k = KDir) w1 w2).
    { intros w1 r1 w2 H1. eapply writes_weaken; [|eapply mkdir_writes; exact H1].
      intros q k [-> ->]. split; reflexivity. }
    destruct (exists_at (disk w) (rev rhead)); [eapply Hlast; exact H|].
    destruct (makedirs_up rhead w) as [r1 w1] eqn:E1.
    assert (Hfirst : writes (fun q k => q `prefix_of` rev (n :: rhead) /\ k = KDir) w w1).
    { eapply writes_weaken; [|eapply IH; exact E1].
      intros q k [Hq ->]. split; [|reflexivity].
      cbn [rev]. apply prefix_app_r. exact Hq. }
    destruct r1 as [[]|e].
    + eapply writes_trans; [exact Hfirst|eapply Hlast; exact H].
    + destruct e; try (injection H as <- <-; exact Hfirst).
      eapply writes_trans; [exact Hfirst|eapply Hlast; exact H].
Qed.

Lemma makedirs_writes p w r w' :
  makedirs p w = (r, w') ->
  writes (fun q k => q `prefix_of` p /\ k = KDir) w w'.
Proof.
  unfold makedirs. intros H. apply makedirs_up_writes in H.
  rewrite rev_involutive in H. exact H.
Qed.

Lemma makedirs_up_ok rp w w' :
  makedirs_up rp w = (Ok tt, w') -> is_dir_at (disk w') (rev rp) = true.
Proof.
  destruct rp as [|n rhead]; cbn [makedirs_up]; intros H.
  - eapply mkdir_ok. exact H.
  - destruct (exists_at (disk w) (rev rhead)); [eapply mkdir_ok; exact H|].
    destruct (makedirs_up rhead w) as [[[]|e] w1];
      [eapply mkdir_ok; exact H|].
    destruct e; try discriminate. eapply mkdir_ok; exact H.
Qed.

Lemma makedirs_ok p w w' :
  makedirs p w = (Ok tt, w') -> is_dir_at (disk w') p = true.
Proof.
  unfold makedirs. intros H. apply makedirs_up_ok in H.
  rewrite rev_involutive in H. exact H.
Qed.

Lemma write_file_writes p data w r w' :
  write_file p data w = (r, w') ->
  writes (fun q k => q = p /\ k = KFile data) w w'.
Proof.
  unfold write_file. intros H.
  destruct (lookup_node (disk w) p) as [[d| |]|] eqn:Ep;
    try (injection H as <- <-; apply writes_refl).
  - injection H as <- <-. apply writes_step, step_write.
    + right; eauto.
    + split; reflexivity.
  - destruct (lookup_node (disk w) (removelast p)) as [[]|] eqn:Epar;
      try (injection H as <- <-; apply writes_refl).
    injection H as <- <-. apply writes_step, step_write.
    + left. split; [assumption|]. unfold is_dir_at. rewrite Epar. reflexivity.
    + split; reflexivity.
Qed.

Lemma write_file_ok p data w w' :
  write_file p data w = (Ok tt, w') ->
  kind_at (disk w') p = Some (KFile data).
Proof.
  unfold write_file. intros H.
  destruct (lookup_node (disk w) p) as [[d| |]|] eqn:Ep; try discriminate.
  - injection H as <-. cbn. rewrite kind_at_put.
    + rewrite decide_True by reflexivity. reflexivity.
    + right; eauto.
    + right; eauto.
  - destruct (lookup_node (disk w) (removelast p)) as [[]|] eqn:Epar;
      try discriminate.
    injection H as <-. cbn. rewrite kind_at_put.
    + rewrite decide_True by reflexivity. reflexivity.
    + right; eauto.
    + left. split; [assumption|]. unfold is_dir_at. rewrite Epar. reflexivity.
Qed.

Lemma copy2_writes name data dst w r w' :
  copy2 name data dst w = (r, w') ->
  writes (fun q k => (q = dst \/ q = dst ++ [name]) /\ k = KFile data) w w'.
Proof.
  unfold copy2. intros H.
  eapply writes_weaken; [|eapply write_file_writes; exact H].
  intros q k [-> ->]. split; [|reflexivity].
  destruct (is_dir_at (disk w) dst); auto.
Qed.

Lemma copyfile_at_writes src dst w r w' :
  copyfile_at src dst w = (r, w') ->
  writes (fun q k => q = dst /\ exists data, k = KFile data) w w'.
Proof.
  unfold copyfile_at. intros H.
  destruct (decide (src = dst)); [injection H as <- <-; apply writes_refl|].
  destruct (lookup_node (disk w) src) as [[d| |]|];
    try (injection H as <- <-; apply writes_refl).
  eapply writes_weaken; [|eapply write_file_writes; exact H].
  intros q k [-> ->]. eauto.
Qed.

Lemma log_writes Q lvl msg w r w' :
  log lvl msg w = (r, w') -> writes Q w w'.
Proof.
  unfold log, emit. intros H. injection H as <- <-.
  apply writes_step, step_log.
Qed.

End Primitives.

Lemma node_ind_nested (P : node -> Prop) :
  (forall d, P (File d)) -> P Other ->
  (forall es, Forall (fun e => P e.2) es -> P (Dir es)) ->
  forall t, P t.
Proof.
  intros HF HO HD. fix IH 1. intros [d|es|]; [apply HF| |apply HO].
  apply HD. induction es as [|[n c] es IHes]; constructor; [apply IH|apply IHes].
Qed.

Lemma name_in_In n l : name_in n l = true <-> In n l.
Proof.
  unfold name_in. rewrite existsb_exists. split.
  - intros (x & Hx & E). apply String.eqb_eq in E. subst. exact Hx.
  - intros H. exists n. split; [exact H|apply String.eqb_refl].
Qed.

Lemma hidden_list_spec Q src files w r w1 :
  _is_hidden_file_list src files w = (r, w1) ->
  writes Q w w1 /\
  exists l, r = Ok l /\
    forall n, In n files -> name_in n l = false ->
      _is_hidden_file src = false /\ _is_hidden_file n = false.
Proof.
  unfold _is_hidden_file_list. destruct (_is_hidden_file src) eqn:Es.
  - unfold bind, ret, log, emit. intros H. injection H as <- <-.
    split; [apply writes_step, step_log|].
    exists files. split; [reflexivity|].
    intros n Hn Hnot. apply name_in_In in Hn. congruence.
  - assert (Hsel : forall n, In n files ->
              name_in n (List.filter _is_hidden_file files) = false ->
              false = false /\ _is_hidden_file n = false).
    { intros n Hn Hnot. split; [reflexivity|].
      destruct (_is_hidden_file n) eqn:En; [|reflexivity].
      rewrite <- Hnot. symmetry. apply name_in_In.
      apply List.filter_In. auto. }
    destruct (List.filter _is_hidden_file files) as [|x xs] eqn:Ef.
    + unfold ret. intros H. injection H as <- <-.
      split; [apply writes_refl|]. exists []. split; [reflexivity|exact Hsel].
    + unfold bind, ret, log, emit. intros H. injection H as <- <-.
      split; [apply writes_step, step_log|].
      exists (x :: xs). split; [reflexivity|exact Hsel].
Qed.

Lemma prefix_snoc_cases (q dst : location) (n : string) :
  q `prefix_of` dst ++ [n] -> q `prefix_of` dst \/ q = dst ++ [n].
Proof.
  intros [k Hk]. destruct (decide (k = [])) as [->|Hne].
  - right. rewrite app_nil_r in Hk. auto.
  - left. destruct (exists_last Hne) as (k' & m & ->).
    rewrite app_assoc in Hk. apply app_inj_tail in Hk as [-> _].
    exists k'. reflexivity.
Qed.

Lemma tree_writes_child h src dst name s q k :
  (h = true -> _is_hidden_file src = false /\ _is_hidden_file name = false) ->
  tree_writes h s (dst ++ [name]) q k -> tree_writes h src dst q k.
Proof.
  intros Hh [[-> Hq]|(x & -> & Hx & Hhx)].
  - destruct (prefix_snoc_cases _ _ _ Hq) as [Hp| ->].
    + left. auto.
    + right. exists [name]. split; [reflexivity|]. split; [discriminate|].
      intros Ht. destruct (Hh Ht). split; [assumption|]. constructor; auto.
  - right. exists (name :: x). rewrite <- app_assoc. split; [reflexivity|].
    split; [discriminate|].
    intros Ht. destruct (Hh Ht). destruct (Hhx Ht). split; [assumption|].
    constructor; auto.
Qed.

Lemma copy_entries_writes h recur ignored src dst l :
  Forall (fun e => forall s d w r w',
            recur e.2 s d w = (r, w') -> writes (tree_writes h s d) w w') l ->
  (h = true -> forall n, In n (List.map fst l) -> name_in n ignored = false ->
     _is_hidden_file src = false /\ _is_hidden_file n = false) ->
  forall errors w errors' w',
    copy_entries recur ignored src dst l errors w = (errors', w') ->
    writes (tree_writes h src dst) w w'.
Proof.
  induction 1 as [|[name child] l Hc _ IH]; intros Hh errors w errors' w' H.
  - cbn in H. injection H as <- <-. apply writes_refl.
  - cbn [copy_entries] in H.
    assert (Hh' : h = true -> forall n, In n (List.map fst l) ->
              name_in n ignored = false ->
              _is_hidden_file src = false /\ _is_hidden_file n = false).
    { intros Ht n Hn. apply (Hh Ht). right. exact Hn. }
    destruct (name_in name ignored) eqn:Ei; [eapply IH; eauto|].
    assert (Hname : h = true ->
              _is_hidden_file src = false /\ _is_hidden_file name = false).
    { intros Ht. apply (Hh Ht); [left; reflexivity|exact Ei]. }
    match type of H with
    | (let '(_, _) := ?c in _) = _ => destruct c as [r1 w1] eqn:E1
    end.
    assert (Hw1 : writes (tree_writes h src dst) w w1).
    { destruct child as [data|es|].
      - eapply writes_weaken; [|eapply copy2_writes; exact E1].
        intros q k [Hq ->]. right.
        destruct Hq as [-> | ->].
        + exists [name]. split; [reflexivity|]. split; [discriminate|].
          intros Ht. destruct (Hname Ht). split; [assumption|]. constructor; auto.
        + exists [name; name]. rewrite <- app_assoc. split; [reflexivity|].
          split; [discriminate|].
          intros Ht. destruct (Hname Ht). split; [assumption|].
          repeat constructor; auto.
      - eapply writes_weaken; [|eapply Hc; exact E1].
        intros q k. apply tree_writes_child. exact Hname.
      - injection E1 as <- <-. apply writes_refl. }
    eapply writes_trans; [exact Hw1|].
    destruct r1 as [[]|e]; [eapply IH; eauto|].
    destruct e; eapply IH; eauto.
Qed.

Lemma copytree_writes h t :
  forall src dst w r w',
    _copytree (callback h) t src dst w = (r, w') ->
    writes (tree_writes h src dst) w w'.
Proof.
  induction t as [d| |es IH] using node_ind_nested; intros src dst w r w' H;
    try (cbn in H; injection H as <- <-; apply writes_refl).
  cbn [_copytree] in H.
  match type of H with
  | (let '(_, _) := ?c in _) = _ => destruct c as [ig w1] eqn:Eig
  end.
  assert (Hig : writes (tree_writes h src dst) w w1 /\
            (ig = Ok [] /\ h = false \/
             exists l, ig = Ok l /\
               forall n, In n (List.map fst es) -> name_in n l = false ->
                 _is_hidden_file src = false /\ _is_hidden_file n = false)).
  { destruct h; cbn in Eig.
    - apply (hidden_list_spec (tree_writes true src dst)) in Eig as [Hw Hl].
      split; [exact Hw|]. right. exact Hl.
    - injection Eig as <- <-. split; [apply writes_refl|]. left. auto. }
  destruct Hig as [Hw1 Hl].
  assert (exists l, ig = Ok l /\
            (h = true -> forall n, In n (List.map fst es) -> name_in n l = false ->
               _is_hidden_file src = false /\ _is_hidden_file n = false))
    as (l & -> & Hsel).
  { destruct Hl as [[-> ->]|(l & -> & Hl)].
    - exists []. split; [reflexivity|]. discriminate.
    - exists l. split; [reflexivity|]. intros _. exact Hl. }
  destruct (makedirs dst w1) as [[[]|e] w2] eqn:Em.
  - assert (Hw2 : writes (tree_writes h src dst) w1 w2).
    { eapply writes_weaken; [|eapply makedirs_writes; exact Em].
      intros q k [Hq ->]. left. auto. }
    destruct (copy_entries (_copytree (callback h)) l src dst es [] w2)
      as [errs w3] eqn:Ec.
    assert (Hw3 : writes (tree_writes h src dst) w2 w3).
    { eapply copy_entries_writes; [|exact Hsel|exact Ec].
      eapply Forall_impl; [exact IH|]. cbn. intros [n c] Hc. exact Hc. }
    assert (w' = w3) as -> by (destruct errs; congruence).
    eapply writes_trans; [exact Hw1|]. eapply writes_trans; eassumption.
  - injection H as <- <-. eapply writes_trans; [exact Hw1|].
    eapply writes_weaken; [|eapply makedirs_writes; exact Em].
    intros q k [Hq ->]. left. auto.
Qed.

(** ** What the copier writes *)

Lemma removelast_prefix (l : list string) : removelast l `prefix_of` l.
Proof.
  destruct (decide (l = [])) as [->|Hne]; [reflexivity|].
  destruct (exists_last Hne) as (l' & x & ->).
  rewrite removelast_last. exists [x]. reflexivity.
Qed.

Lemma locate_parent_prefix c p :
  locate_in c (parent p) `prefix_of` locate_in c p.
Proof.
  unfold locate_in, parent. cbn. destruct (absolute p).
  - apply removelast_prefix.
  - apply prefix_app. apply removelast_prefix.
Qed.

Lemma copy_object_writes self P T copied obj w r w' :
  copy_object self P T copied obj w = (r, w') ->
  writes (object_writes (ignore_hidden_files (config self)) P T (cwd w) obj) w w'.
Proof.
  unfold copy_object.
  destruct (relative_to obj P) as [rel|] eqn:Erel;
    [|intros H; injection H as <- <-; apply writes_refl].
  set (h := ignore_hidden_files (config self)).
  set (Q := object_writes h P T (cwd w) obj).
  unfold bind at 1. unfold is_file at 1.
  destruct (is_file_at (disk w) (locate w obj)).
  - unfold bind at 1. unfold log at 1, emit at 1.
    set (w1 := mkWorld (disk w) (cwd w) (trace w ++ [_])).
    assert (H01 : writes Q w w1) by apply writes_step, step_log.
    unfold bind at 1.
    destruct (mkdir_exist_ok (locate w1 (parent (joinpath T rel))) w1)
      as [[[]|e] w2] eqn:Emk.
    + assert (H12 : writes Q w1 w2).
      { eapply writes_weaken; [|eapply mkdir_writes; exact Emk].
        intros q k [-> ->]. exists rel. split; [assumption|]. left.
        split; [reflexivity|]. apply locate_parent_prefix. }
      destruct (h && _is_hidden_file (str rel)) eqn:Eh.
      * unfold bind, ret, log, emit. intros H. injection H as <- <-.
        eapply writes_trans; [exact H01|]. eapply writes_trans; [exact H12|].
        apply writes_step, step_log.
      * unfold bind at 1. unfold copyfile, bind, ret.
        destruct (copyfile_at (locate w2 obj) (locate w2 (joinpath T rel)) w2)
          as [[[]|e] w3] eqn:Ecp; intros H; injection H as <- <-;
          (eapply writes_trans; [exact H01|]; eapply writes_trans; [exact H12|];
           eapply writes_weaken; [|eapply copyfile_at_writes; exact Ecp];
           intros q k [-> Hk]; exists rel; split; [assumption|];
           right; left;
           assert (cwd w2 = cwd w) as Hc
             by (rewrite (writes_cwd _ _ H12); reflexivity);
           unfold locate; rewrite Hc; split; [reflexivity|]; split; [exact Hk|];
           intros Ht; rewrite Ht in Eh; exact Eh).
    + intros H. injection H as <- <-.
      eapply writes_trans; [exact H01|].
      eapply writes_weaken; [|eapply mkdir_writes; exact Emk].
      intros q k [-> ->]. exists rel. split; [assumption|]. left.
      split; [reflexivity|]. apply locate_parent_prefix.
  - unfold bind at 1. unfold is_dir at 1.
    destruct (is_dir_at (disk w) (locate w obj)).
    + unfold bind at 1. unfold log at 1, emit at 1.
      set (w1 := mkWorld (disk w) (cwd w) (trace w ++ [_])).
      assert (H01 : writes Q w w1) by apply writes_step, step_log.
      unfold bind at 1. unfold copytree.
      destruct (lookup_node (disk w1) (locate w1 obj)) as [t|];
        [|intros H; injection H as <- <-; exact H01].
      unfold bind, ret.
      destruct (_copytree _ t (str obj) (locate w1 (joinpath T rel)) w1)
        as [[[]|e] w2] eqn:Ect; intros H; injection H as <- <-;
        (eapply writes_trans; [exact H01|];
         eapply writes_weaken; [|eapply (copytree_writes h); exact Ect];
         intros q k Hq; exists rel; split; [assumption|];
         destruct Hq as [Hd|Hx]; [left; exact Hd|right; right; exact Hx]).
    + unfold bind, ret, log, emit. intros H. injection H as <- <-.
      apply writes_step, step_log.
Qed.

Lemma for_each_copy_writes self P T objs :
  forall copied w r w',
    for_each (copy_object self P T) objs copied w = (r, w') ->
    writes (fun q k => exists obj, In obj objs /\
              object_writes (ignore_hidden_files (config self)) P T (cwd w) obj q k)
      w w'.
Proof.
  induction objs as [|obj objs IH]; intros copied w r w' H.
  - cbn in H. injection H as <- <-. apply writes_refl.
  - cbn [for_each] in H. unfold bind at 1 in H.
    destruct (copy_object self P T copied obj w) as [[copied'|e] w1] eqn:E1.
    + pose proof (copy_object_writes _ _ _ _ _ _ _ _ E1) as H1.
      eapply writes_trans.
      * eapply writes_weaken; [|exact H1].
        intros q k Hq. exists obj. split; [left; reflexivity|exact Hq].
      * eapply writes_weaken; [|eapply IH; exact H].
        rewrite (writes_cwd _ _ H1).
        intros q k (o & Ho & Hq). exists o. split; [right; exact Ho|exact Hq].
    + injection H as <- <-.
      eapply writes_weaken; [|eapply copy_object_writes; exact E1].
      intros q k Hq. exists obj. split; [left; reflexivity|exact Hq].
Qed.

Section CopierWrites.

Variable E : collaborators.

Lemma copy_source_files_writes self P T w r w' :
  _copy_source_files E self P T w = (r, w') ->
  writes (fun q k => exists obj, In obj (matched E self P w) /\
            object_writes (ignore_hidden_files (config self)) P T (cwd w) obj q k)
    w w'.
Proof.
  unfold _copy_source_files, matched, _get_matching_files_and_folders.
  unfold bind at 1.
  set (objs := iteration_order E _).
  set (Q := fun q k => exists obj, _).
  unfold bind at 1. unfold log at 1, emit at 1.
  unfold bind at 1. unfold log at 1, emit at 1.
  set (w2 := mkWorld _ _ (_ ++ [Log DEBUG _])).
  assert (H02 : writes Q w w2).
  { eapply writes_trans; apply writes_step; apply step_log. }
  unfold bind at 1.
  destruct (for_each (copy_object self P T) objs [] w2)
    as [[copied|e] w3] eqn:Efe.
  - pose proof (for_each_copy_writes _ _ _ _ _ _ _ _ Efe) as H23.
    unfold log, emit. intros H. injection H as <- <-.
    eapply writes_trans; [exact H02|]. eapply writes_trans; [exact H23|].
    apply writes_step, step_log.
  - intros H. injection H as <- <-.
    eapply writes_trans; [exact H02|].
    exact (for_each_copy_writes _ _ _ _ _ _ _ _ Efe).
Qed.

End CopierWrites.

(** ** Path strings *)

Lemma split_app_sep sep a b :
  Str.split sep (a ++ String sep b) = Str.split sep a ++ Str.split sep b.
Proof.
  induction a as [|c a IH].
  - change (String.append EmptyString (String sep b)) with (String sep b).
    cbn [Str.split app]. rewrite Ascii.eqb_refl. reflexivity.
  - change (String.append (String c a) (String sep b))
      with (String c (String.append a (String sep b))).
    cbn [Str.split].
    destruct (Ascii.eqb c sep); [rewrite IH; reflexivity|].
    rewrite IH. pose proof (split_nonempty sep a) as Hne.
    destruct (Str.split sep a); [congruence|reflexivity].
Qed.

Lemma hidden_app_slash a b :
  _is_hidden_file (a ++ "/" ++ b) = _is_hidden_file a || _is_hidden_file b.
Proof.
  rewrite !hidden_existsb. unfold segments.
  change (String.append "/" b) with (String slash b).
  rewrite split_app_sep. apply existsb_app.
Qed.

Lemma hidden_dot_name n : _is_hidden_file n = false -> dot_name n = false.
Proof.
  unfold _is_hidden_file, dot_name. intros H.
  apply orb_false_iff in H as [H _]. exact H.
Qed.

Lemma hidden_join l :
  _is_hidden_file (Str.join "/" l) = false ->
  Forall (fun n => dot_name n = false) l.
Proof.
  induction l as [|x [|y l] IH]; intros H.
  - constructor.
  - constructor; [|constructor]. apply hidden_dot_name. exact H.
  - change (Str.join "/" (x :: y :: l))
      with (String.append x (String.append "/" (Str.join "/" (y :: l)))) in H.
    rewrite hidden_app_slash in H. apply orb_false_iff in H as [Hx Hr].
    constructor; [apply hidden_dot_name; exact Hx|apply IH; exact Hr].
Qed.

Lemma hidden_str p :
  _is_hidden_file (str p) = false -> Forall (fun n => dot_name n = false) (parts p).
Proof.
  unfold str. destruct (absolute p).
  - change (String.append "/" (Str.join "/" (parts p)))
      with (String.append EmptyString (String.append "/" (Str.join "/" (parts p)))).
    rewrite hidden_app_slash. intros H. apply orb_false_iff in H as [_ H].
    apply hidden_join. exact H.
  - destruct (parts p) as [|x l] eqn:E; [constructor|].
    apply hidden_join.
Qed.

Lemma strip_prefix_app base l r :
  strip_prefix base l = Some r -> l = base ++ r.
Proof.
  revert l. induction base as [|b base IH]; intros l H.
  - cbn in H |- *. congruence.
  - destruct l as [|x l]; cbn in H; [discriminate|].
    destruct (String.eqb b x) eqn:E; [|discriminate].
    apply String.eqb_eq in E. subst x. cbn. f_equal. apply IH. exact H.
Qed.

Lemma relative_to_parts obj P rel :
  relative_to obj P = Some rel ->
  absolute rel = false /\ parts obj = parts P ++ parts rel.
Proof.
  unfold relative_to. destruct (Bool.eqb (absolute obj) (absolute P)); [|discriminate].
  destruct (strip_prefix (parts P) (parts obj)) as [r|] eqn:E; [|discriminate].
  cbn. intros [= <-]. cbn. split; [reflexivity|]. apply strip_prefix_app. exact E.
Qed.

Lemma locate_joinpath_relative c T rel :
  absolute rel = false ->
  locate_in c (joinpath T rel) = locate_in c T ++ parts rel.
Proof.
  unfold locate_in, joinpath. intros ->. cbn.
  destruct (absolute T); [reflexivity|]. apply app_assoc.
Qed.

(** ** The [.zip] suffix *)

Lemma endswith_length s p :
  Str.endswith s p = true -> String.length p <= String.length s.
Proof.
  induction s as [|c s IH]; cbn [Str.endswith]; intros H;
    apply orb_true_iff in H as [H|H].
  - apply String.eqb_eq in H. subst. reflexivity.
  - discriminate.
  - apply String.eqb_eq in H. subst. reflexivity.
  - cbn. specialize (IH H). lia.
Qed.

Lemma substring_0_0 s : substring 0 0 s = EmptyString.
Proof. destruct s; reflexivity. Qed.

Lemma endswith_drop_last s p :
  Str.endswith s p = true ->
  String.append (Str.drop_last (String.length p) s) p = s.
Proof.
  unfold Str.drop_last.
  induction s as [|c s IH]; cbn [Str.endswith]; intros H;
    apply orb_true_iff in H as [H|H]; try discriminate.
  - apply String.eqb_eq in H. subst. reflexivity.
  - apply String.eqb_eq in H. subst p.
    rewrite Nat.sub_diag, substring_0_0. reflexivity.
  - pose proof (endswith_length _ _ H) as Hl.
    cbn [String.length].
    replace (S (String.length s) - String.length p)
      with (S (String.length s - String.length p)) by lia.
    cbn [substring].
    change (String.append (String c ?a) p) with (String c (String.append a p)).
    f_equal. apply IH. exact H.
Qed.

Lemma endswith_zip_last t :
  Str.endswith t ".zip" = true ->
  Str.endswith (List.last (segments t) EmptyString) ".zip" = true.
Proof.
  unfold segments.
  induction t as [|c t IH]; cbn [Str.endswith]; intros H;
    apply orb_true_iff in H as [H|H]; try discriminate.
  - apply String.eqb_eq in H. rewrite H. reflexivity.
  - specialize (IH H). pose proof (split_nonempty slash t) as Hne.
    cbn [Str.split]. destruct (Ascii.eqb c slash).
    + destruct (Str.split slash t) as [|x xs]; [congruence|exact IH].
    + destruct (Str.split slash t) as [|x [|y ys]]; [congruence| |exact IH].
      cbn in IH |- *. cbn [Str.endswith]. rewrite IH. apply orb_true_r.
Qed.

Lemma endswith_zip_real x :
  Str.endswith x ".zip" = true -> real_segment x = true.
Proof.
  intros H. unfold real_segment.
  destruct (String.eqb_spec x EmptyString); [subst; discriminate|].
  destruct (String.eqb_spec x "."); [subst; discriminate|]. reflexivity.
Qed.

Lemma last_In {A} (l : list A) d : l <> [] -> In (List.last l d) l.
Proof.
  induction l as [|x [|y l] IH]; intros H; [congruence|left; reflexivity|].
  right. apply IH. discriminate.
Qed.

Lemma endswith_zip_parts t :
  Str.endswith t ".zip" = true -> parts (Path_of t) <> [].
Proof.
  intros H. cbn.
  assert (Hin : In (List.last (segments t) EmptyString) (List.filter real_segment (segments t))).
  { apply List.filter_In. split.
    - apply last_In. apply split_nonempty.
    - apply endswith_zip_real, endswith_zip_last, H. }
  intros E. rewrite E in Hin. destruct Hin.
Qed.

Lemma removelast_app_nonempty {A} (l r : list A) :
  r <> [] -> removelast (l ++ r) = l ++ removelast r.
Proof. intros H. apply removelast_app. exact H. Qed.

Lemma locate_parent c p :
  parts p <> [] -> locate_in c (parent p) = removelast (locate_in c p).
Proof.
  unfold locate_in, parent. cbn. intros H.
  destruct (absolute p); [reflexivity|].
  symmetry. apply removelast_app. exact H.
Qed.

(** ** Archive members and the tree they list *)

Lemma assoc_In n c es : assoc n es = Some c -> In (n, c) es.
Proof.
  induction es as [|[m d] es IH]; cbn; [discriminate|].
  destruct (String.eqb m n) eqn:E.
  - apply String.eqb_eq in E. intros [= ->]. left. congruence.
  - intros H. right. apply IH, H.
Qed.

Lemma assoc_unique n c es :
  unique_names (List.map fst es) = true -> In (n, c) es -> assoc n es = Some c.
Proof.
  induction es as [|[m d] es IH]; cbn; [intros _ []|].
  intros H. apply andb_true_iff in H as [Hm Hu].
  intros [[= -> ->]|Hin].
  - rewrite String.eqb_refl. reflexivity.
  - destruct (String.eqb m n) eqn:E; [|apply IH; assumption].
    apply String.eqb_eq in E. subst m. exfalso.
    apply negb_true_iff in Hm.
    assert (existsb (String.eqb n) (List.map fst es) = true); [|congruence].
    apply existsb_exists. exists n. split; [|apply String.eqb_refl].
    apply (List.in_map fst) in Hin. exact Hin.
Qed.

Lemma members_sound t :
  forall pre q b, wf_node t = true -> In (q, b) (zip_members pre t) ->
  exists x, q = pre ++ x /\ x <> [] /\
    if b then kind_at t x = Some KDir else exists d, kind_at t x = Some (KFile d).
Proof.
  induction t as [d| |es IH] using node_ind_nested; intros pre q b Hwf Hin;
    try (destruct Hin).
  cbn [wf_node] in Hwf. apply andb_true_iff in Hwf as [Hu Hall].
  cbn [zip_members] in Hin.
  apply in_app_or in Hin as [Hin|Hin]; [|apply in_app_or in Hin as [Hin|Hin]].
  - apply List.in_map_iff in Hin as ([n c] & [= <- <-] & Hf).
    apply List.filter_In in Hf as [Hf Hc]. cbn in Hc.
    exists [n]. split; [reflexivity|]. split; [discriminate|].
    unfold kind_at. cbn. rewrite (assoc_unique _ _ _ Hu Hf).
    destruct c; try discriminate. reflexivity.
  - apply List.in_map_iff in Hin as ([n c] & [= <- <-] & Hf).
    apply List.filter_In in Hf as [Hf Hc]. cbn in Hc.
    exists [n]. split; [reflexivity|]. split; [discriminate|].
    unfold kind_at. cbn. rewrite (assoc_unique _ _ _ Hu Hf).
    destruct c; try discriminate. eexists. reflexivity.
  - apply List.in_flat_map in Hin as ([n c] & Hf & Hin). cbn in Hin.
    rewrite List.Forall_forall in IH. specialize (IH _ Hf). cbn in IH.
    rewrite forallb_forall in Hall. specialize (Hall _ Hf). cbn in Hall.
    destruct (IH _ _ _ Hall Hin) as (x & -> & Hx & Hk).
    exists (n :: x). rewrite <- app_assoc. split; [reflexivity|].
    split; [discriminate|].
    unfold kind_at in *. cbn [lookup_node]. rewrite (assoc_unique _ _ _ Hu Hf).
    exact Hk.
Qed.

Lemma members_dir t :
  forall pre x, x <> [] -> kind_at t x = Some KDir ->
  In (pre ++ x, true) (zip_members pre t).
Proof.
  intros pre x. revert t pre. induction x as [|n x IH]; intros t pre Hx Hk;
    [congruence|].
  unfold kind_at in Hk. cbn [lookup_node] in Hk.
  destruct t as [d|es|]; try discriminate.
  destruct (assoc n es) as [c|] eqn:Ec; [|discriminate].
  apply assoc_In in Ec. cbn [zip_members].
  destruct x as [|m x].
  - cbn in Hk. destruct c; try discriminate.
    apply in_or_app. left. apply List.in_map_iff.
    exists (n, Dir entries). split; [reflexivity|].
    apply List.filter_In. split; [exact Ec|reflexivity].
  - apply in_or_app. right. apply in_or_app. right.
    apply List.in_flat_map. exists (n, c). split; [exact Ec|]. cbn.
    replace (pre ++ n :: m :: x) with ((pre ++ [n]) ++ m :: x)
      by (rewrite <- app_assoc; reflexivity).
    apply IH; [discriminate|exact Hk].
Qed.

(** ** Listings stay free of duplicates *)

Lemma names_set_entry n v es :
  List.map fst (set_entry n v es) =
  if existsb (String.eqb n) (List.map fst es) then List.map fst es
  else List.map fst es ++ [n].
Proof.
  induction es as [|[m c] es IH]; cbn; [reflexivity|].
  destruct (String.eqb m n) eqn:E.
  - apply String.eqb_eq in E. subst m. rewrite String.eqb_refl. reflexivity.
  - rewrite String.eqb_sym, E. cbn. rewrite IH.
    destruct (existsb (String.eqb n) (List.map fst es)); reflexivity.
Qed.

Lemma unique_names_snoc l n :
  unique_names l = true -> existsb (String.eqb n) l = false ->
  unique_names (l ++ [n]) = true.
Proof.
  induction l as [|x l IH]; cbn; [reflexivity|].
  intros H Hn. apply andb_true_iff in H as [Hx Hu].
  apply orb_false_iff in Hn as [Hnx Hn].
  rewrite existsb_app. cbn. rewrite String.eqb_sym, Hnx.
  apply negb_true_iff in Hx. rewrite Hx. cbn. apply IH; assumption.
Qed.

Lemma wf_set_entry n v es :
  wf_node (Dir es) = true -> wf_node v = true ->
  wf_node (Dir (set_entry n v es)) = true.
Proof.
  cbn [wf_node]. intros H Hv. apply andb_true_iff in H as [Hu Hall].
  apply andb_true_iff. split.
  - rewrite names_set_entry.
    destruct (existsb (String.eqb n) (List.map fst es)) eqn:E; [exact Hu|].
    apply unique_names_snoc; assumption.
  - clear Hu. induction es as [|[m c] es IH]; cbn.
    + rewrite Hv. reflexivity.
    + cbn in Hall. apply andb_true_iff in Hall as [Hc Hall].
      destruct (String.eqb m n); cbn.
      * rewrite Hv, Hall. reflexivity.
      * rewrite Hc. apply IH. exact Hall.
Qed.

Lemma wf_assoc n c es :
  wf_node (Dir es) = true -> assoc n es = Some c -> wf_node c = true.
Proof.
  cbn [wf_node]. intros H Hc. apply andb_true_iff in H as [_ Hall].
  rewrite forallb_forall in Hall. apply (Hall (n, c)). apply assoc_In, Hc.
Qed.

Lemma wf_put t p v :
  wf_node t = true -> wf_node v = true -> wf_node (put t p v) = true.
Proof.
  revert t. induction p as [|n p IH]; intros t Ht Hv; [exact Hv|].
  destruct t as [d|es|]; try exact Ht.
  destruct p as [|m p].
  - cbn [put]. apply wf_set_entry; assumption.
  - change (put (Dir es) (n :: m :: p) v) with
      (match assoc n es with
       | Some c => Dir (set_entry n (put c (m :: p) v) es)
       | None => Dir es
       end).
    destruct (assoc n es) as [c|] eqn:Ec; [|exact Ht].
    apply wf_set_entry; [exact Ht|].
    apply IH; [|exact Hv]. eapply wf_assoc; eassumption.
Qed.

Lemma writes_wf Q w w' :
  writes Q w w' -> wf_node (disk w) = true -> wf_node (disk w') = true.
Proof.
  induction 1 as [|w1 w2 w3 Hs _ IH]; [auto|].
  intros H. apply IH. destruct Hs; cbn; [exact H|apply wf_put; auto..].
Qed.

Lemma wf_lookup t p c :
  wf_node t = true -> lookup_node t p = Some c -> wf_node c = true.
Proof.
  revert t. induction p as [|n p IH]; intros t Ht Hc.
  - cbn in Hc. congruence.
  - cbn [lookup_node] in Hc. destruct t as [d|es|]; try discriminate.
    destruct (assoc n es) as [c'|] eqn:Ec; [|discriminate].
    apply (IH c'); [|exact Hc]. eapply wf_assoc; eassumption.
Qed.

Lemma lookup_app t p x c :
  lookup_node t p = Some c -> lookup_node t (p ++ x) = lookup_node c x.
Proof.
  revert t. induction p as [|n p IH]; intros t H.
  - cbn in H. injection H as ->. reflexivity.
  - cbn [lookup_node app] in *. destruct t as [d|es|]; try discriminate.
    destruct (assoc n es) as [c'|]; [|discriminate]. apply IH, H.
Qed.

(** ** The archive builder *)

Lemma unreachable_os_error d p : os_error (unreachable d p) = true.
Proof. unfold unreachable. destruct (blocked d p); reflexivity. Qed.

Lemma mkdir_os_error p w e w' :
  mkdir_exist_ok p w = (Raise e, w') -> os_error e = true.
Proof.
  unfold mkdir_exist_ok.
  destruct (lookup_node (disk w) p) as [[]|]; try (intros [= <- <-]; reflexivity);
    try discriminate.
  destruct (lookup_node (disk w) (removelast p)) as [[]|];
    try discriminate; intros [= <- <-]; apply unreachable_os_error.
Qed.

Lemma makedirs_up_os_error rp : forall w e w',
  makedirs_up rp w = (Raise e, w') -> os_error e = true.
Proof.
  induction rp as [|n rhead IH]; intros w e w'; cbn [makedirs_up].
  - apply mkdir_os_error.
  - destruct (exists_at (disk w) (rev rhead)); [apply mkdir_os_error|].
    destruct (makedirs_up rhead w) as [[[]|e1] w1] eqn:E1;
      [apply mkdir_os_error|].
    pose proof (IH _ _ _ E1) as He1.
    destruct e1; try discriminate He1; try (intros [= <- <-]; reflexivity).
    apply mkdir_os_error.
Qed.

Lemma write_file_os_error p data w e w' :
  write_file p data w = (Raise e, w') -> os_error e = true.
Proof.
  unfold write_file.
  destruct (lookup_node (disk w) p) as [[]|]; try (intros [= <- <-]; reflexivity);
    try discriminate.
  destruct (lookup_node (disk w) (removelast p)) as [[]|];
    try discriminate; intros [= <- <-]; apply unreachable_os_error.
Qed.

(** [make_archive] on a name cut from a target that ends in [.zip]. *)
Lemma make_archive_writes root target w r w' :
  Str.endswith target ".zip" = true ->
  make_archive (Str.drop_last (String.length ".zip") target) root w = (r, w') ->
  let Z := locate w (Path_of target) in
  exists w1,
    writes (fun q k => k = KDir /\ q `prefix_of` removelast Z) w w1 /\
    write_file Z (ZipArchive (staged_members w1 root)) w1 = (r, w') \/
    (exists e, r = Raise e /\ os_error e = true) /\
    writes (fun q k => k = KDir /\ q `prefix_of` removelast Z) w w'.
Proof.
  intros Hz. unfold make_archive.
  rewrite (endswith_drop_last _ _ Hz).
  destruct (exists_at (disk w) (removelast (locate w (Path_of target)))).
  - intros H. exists w. left. split; [apply writes_refl|exact H].
  - destruct (makedirs (removelast (locate w (Path_of target))) w)
      as [[[]|e] w1] eqn:Em.
    + intros H. exists w1. left. split.
      * eapply writes_weaken; [|eapply makedirs_writes; exact Em].
        intros q k [Hq ->]. auto.
      * assert (Hc : cwd w1 = cwd w)
          by (eapply writes_cwd, makedirs_writes; exact Em).
        unfold staged_members, locate in *. rewrite Hc in *. exact H.
    + intros [= <- <-]. exists w. right. split.
      * exists e. split; [reflexivity|].
        unfold makedirs in Em. eapply makedirs_up_os_error. exact Em.
      * eapply writes_weaken; [|eapply makedirs_writes; exact Em].
        intros q k [Hq ->]. auto.
Qed.

Lemma create_zip_file_cases root target w r w' :
  _create_zip_file root target w = (r, w') ->
  let Z := locate w (Path_of target) in
  (Str.endswith target ".zip" = false /\ r = Raise ValueError /\ w' = w) \/
  (Str.endswith target ".zip" = true /\
   exists w1,
     writes (fun q k => k = KDir /\ q `prefix_of` removelast Z) w w1 /\
     ((exists e, r = Raise e /\ os_error e = true) /\ w' = w1 \/
      write_file Z (ZipArchive (staged_members w1 root)) w1 = (r, w'))).
Proof.
  unfold _create_zip_file. destruct (Str.endswith target ".zip") eqn:Hz.
  - intros H. right. split; [reflexivity|].
    unfold bind at 1 in H.
    destruct (mkdir_exist_ok (locate w (parent (Path_of target))) w)
      as [[[]|e] w1] eqn:Emk.
    + assert (H01 : writes (fun q k => k = KDir /\
                q `prefix_of` removelast (locate w (Path_of target))) w w1).
      { eapply writes_weaken; [|eapply mkdir_writes; exact Emk].
        intros q k [-> ->]. split; [reflexivity|].
        unfold locate. rewrite locate_parent by (apply endswith_zip_parts, Hz).
        reflexivity. }
      assert (Hc : cwd w1 = cwd w) by (eapply writes_cwd; exact H01).
      destruct (make_archive_writes _ _ _ _ _ Hz H) as (w2 & [[H12 Hw]|[He H12]]).
      * exists w2. unfold locate in *. rewrite Hc in *. split.
        -- eapply writes_trans; [exact H01|exact H12].
        -- right. exact Hw.
      * exists w'. unfold locate in *. rewrite Hc in *. split.
        -- eapply writes_trans; [exact H01|exact H12].
        -- left. split; [exact He|reflexivity].
    + injection H as <- <-. exists w1. split.
      * eapply writes_weaken; [|eapply mkdir_writes; exact Emk].
        intros q k [-> ->]. split; [reflexivity|].
        unfold locate. rewrite locate_parent by (apply endswith_zip_parts, Hz).
        reflexivity.
      * left. split; [|reflexivity]. exists e. split; [reflexivity|].
        eapply mkdir_os_error. exact Emk.
  - intros [= <- <-]. left. auto.
Qed.

Lemma create_zip_file_ok root target w w' :
  _create_zip_file root target w = (Ok tt, w') ->
  let Z := locate w (Path_of target) in
  exists w1,
    writes (fun q k => k = KDir /\ q `prefix_of` removelast Z) w w1 /\
    writes (fun q k => q = Z /\ exists ms, k = KFile (ZipArchive ms)) w1 w' /\
    kind_at (disk w') Z = Some (KFile (ZipArchive (staged_members w1 root))).
Proof.
  intros H. destruct (create_zip_file_cases _ _ _ _ _ H)
    as [(_ & Hr & _)|(_ & w1 & H01 & [[(e & Hr & _) _]|Hw])]; try discriminate.
  exists w1. split; [exact H01|]. split.
  - eapply writes_weaken; [|eapply write_file_writes; exact Hw].
    intros q k [-> ->]. eauto.
  - eapply write_file_ok. exact Hw.
Qed.

Lemma create_zip_file_writes root target w r w' :
  _create_zip_file root target w = (r, w') -> writes (fun _ _ => True) w w'.
Proof.
  intros H. destruct (create_zip_file_cases _ _ _ _ _ H)
    as [(_ & _ & ->)|(_ & w1 & H01 & [[_ ->]|Hw])].
  - apply writes_refl.
  - eapply writes_weaken; [|exact H01]. auto.
  - eapply writes_trans.
    + eapply writes_weaken; [|exact H01]. auto.
    + eapply writes_weaken; [|eapply write_file_writes; exact Hw]. auto.
Qed.

Section Installer.

Variable E : collaborators.

Lemma install_missing target req no_deps w :
  is_file_at (disk w) (locate w req) = false ->
  _install_requirements_txt E target req no_deps w = (Raise ValueError, w).
Proof.
  intros H. unfold _install_requirements_txt, bind, is_file. rewrite H.
  reflexivity.
Qed.

Lemma install_present target req no_deps w :
  is_file_at (disk w) (locate w req) = true ->
  let w1 := mkWorld (disk w) (cwd w)
              ((trace w ++ [Log INFO ("installing pip requirements to '"
                                      ++ target ++ "'")])
               ++ [Subprocess (pip_command E target req no_deps)]) in
  _install_requirements_txt E target req no_deps w =
  (if (subprocess_effect E (pip_command E target req no_deps) w1).1
   then Ok tt else Raise CalledProcessError,
   set_disk w1 (subprocess_effect E (pip_command E target req no_deps) w1).2).
Proof.
  intros H. unfold _install_requirements_txt, bind, is_file. rewrite H.
  cbn [negb]. unfold log, emit, check_output, bind, emit. cbn [disk cwd trace].
  fold (pip_command E target req no_deps).
  destruct (subprocess_effect E (pip_command E target req no_deps) _)
    as [[] d]; reflexivity.
Qed.

Lemma tools_copy self P T w r w' :
  _copy_source_files E self P T w = (r, w') -> tools w' = tools w.
Proof. intros H. eapply writes_tools, copy_source_files_writes, H. Qed.

Lemma tools_zip root target w r w' :
  _create_zip_file root target w = (r, w') -> tools w' = tools w.
Proof. intros H. eapply writes_tools, create_zip_file_writes, H. Qed.

Lemma tools_after_install self w r w' :
  (_copy_source_files E self (project_directory self) (tmp_folder self) ;;;
   _create_zip_file (tmp_folder self) (archive_target self)) w = (r, w') ->
  tools w' = tools w.
Proof.
  unfold bind.
  destruct (_copy_source_files E self _ _ w) as [[[]|e] w1] eqn:E1.
  - intros H. rewrite (tools_zip _ _ _ _ _ H). eapply tools_copy, E1.
  - intros [= <- <-]. eapply tools_copy, E1.
Qed.

End Installer.

Lemma writes_frame Q w w' q :
  writes Q w w' -> (forall k, ~ Q q k) ->
  kind_at (disk w') q = kind_at (disk w) q.
Proof.
  induction 1 as [|w1 w2 w3 Hs _ IH]; [reflexivity|].
  intros HQ. rewrite (IH HQ).
  destruct (step_kind _ _ q Hs) as [E|(k & _ & Hk & _)]; [exact E|].
  destruct (HQ k Hk).
Qed.





Lemma lookup_prefix t p x c :
  lookup_node t (p ++ x) = Some c ->
  exists t', lookup_node t p = Some t' /\ lookup_node t' x = Some c.
Proof.
  revert t. induction p as [|n p IH]; intros t H.
  - exists t. auto.
  - cbn [app lookup_node] in *. destruct t as [d|es|]; try discriminate.
    destruct (assoc n es) as [c'|]; [|discriminate]. apply IH, H.
Qed.

Lemma tools_snoc_log w lvl msg :
  tools (mkWorld (disk w) (cwd w) (trace w ++ [Log lvl msg])) = tools w.
Proof. unfold tools. cbn. rewrite List.filter_app. cbn. apply app_nil_r. Qed.

(** ** The properties of the pipeline *)

Section Pipeline.

Variable E : collaborators.

Lemma install_dependencies_plain self w :
  is_file_at (disk w)
    (locate w (joinpath (project_directory self) (Path_of "requirements.txt")))
  = true ->
  install_dependencies E self w =
  _install_requirements_txt E (str (tmp_folder self))
    (joinpath (project_directory self) (Path_of "requirements.txt")) false
    (mkWorld (disk w) (cwd w)
       (trace w ++ [Log INFO "using requirements.txt file in project directory"])).
Proof.
  intros H. unfold install_dependencies, bind, is_file. rewrite H. reflexivity.
Qed.

Lemma install_dependencies_none self w :
  is_file_at (disk w)
    (locate w (joinpath (project_directory self) (Path_of "requirements.txt")))
  = false ->
  poetry_is_used E (project_directory self) w = false ->
  install_dependencies E self w =
  (Ok tt, mkWorld (disk w) (cwd w)
            (trace w ++ [Log WARNING "No dependency found, none will be packaged"])).
Proof.
  intros H Hp. unfold install_dependencies, bind, is_file. rewrite H, Hp.
  reflexivity.
Qed.

Lemma execute_steps self w r w' :
  execute E self w = (r, w') ->
  (exists e, install_dependencies E self w = (Raise e, w') /\ r = Raise e) \/
  exists w1, install_dependencies E self w = (Ok tt, w1) /\
    ((exists e, _copy_source_files E self (project_directory self)
                  (tmp_folder self) w1 = (Raise e, w') /\ r = Raise e) \/
     exists w2, _copy_source_files E self (project_directory self)
                  (tmp_folder self) w1 = (Ok tt, w2) /\
       _create_zip_file (tmp_folder self) (archive_target self) w2 = (r, w')).
Proof.
  unfold execute, bind.
  destruct (install_dependencies E self w) as [[[]|e] w1];
    [|intros [= <- <-]; left; eauto].
  intros H. right. exists w1. split; [reflexivity|].
  destruct (_copy_source_files E self _ _ w1) as [[[]|e] w2];
    [|injection H as <- <-; left; eauto].
  right. exists w2. auto.
Qed.

End Pipeline.

(** C4. With a [requirements.txt] at the project root, whatever else the
    project holds, the only tool the run starts is the installer, once, on
    that file and without [--no-deps]: the lock export is not invoked. *)
Theorem requirements_txt_takes_priority
    (E : collaborators) (self : LambdaAutoPackage) (w : world) :
  is_file_at (disk w)
    (locate w (joinpath (project_directory self) (Path_of "requirements.txt")))
  = true ->
  tools (snd (execute E self w)) =
  tools w ++
  [Subprocess [sys_executable E; "-m"; "pip"; "install"; "-r";
               str (joinpath (project_directory self) (Path_of "requirements.txt"));
               "--target"; str (tmp_folder self)]].
Proof.
  intros H.
  set (req := joinpath (project_directory self) (Path_of "requirements.txt")).
  change [sys_executable E; "-m"; "pip"; "install"; "-r"; str req;
          "--target"; str (tmp_folder self)]
    with (pip_command E (str (tmp_folder self)) req false).
  pose proof (install_dependencies_plain E self w H) as Hi. fold req in Hi.
  rewrite install_present in Hi by exact H.
  cbv zeta in Hi. cbn [disk cwd trace] in Hi.
  match type of Hi with
  | _ = (_, set_disk ?w1 _) => set (w1' := w1) in *
  end.
  assert (Ht : tools (set_disk w1' (subprocess_effect E
                 (pip_command E (str (tmp_folder self)) req false) w1').2)
               = tools w ++ [Subprocess (pip_command E (str (tmp_folder self)) req false)]).
  { unfold tools, set_disk, w1'. cbn [trace].
    rewrite !List.filter_app. cbn [List.filter is_tool].
    rewrite !app_nil_r. reflexivity. }
  destruct (execute E self w) as [r w'] eqn:Ex. cbn [snd].
  destruct (execute_steps _ _ _ _ _ Ex) as [(e & Hd & _)|(w1 & Hd & Hrest)].
  - rewrite Hi in Hd. injection Hd as _ <-. exact Ht.
  - rewrite Hi in Hd. injection Hd as _ <-.
    rewrite <- Ht.
    destruct Hrest as [(e & Hc & _)|(w2 & Hc & Hz)].
    + eapply tools_copy, Hc.
    + rewrite (tools_zip _ _ _ _ _ Hz). eapply tools_copy, Hc.
Qed.

Lemma requirements_txt_takes_priority_witness :
  is_file_at (disk with_requirements) ["proj"; "requirements.txt"] = true /\
  tools (snd (execute (finds [relative ["handler.py"]] true)
                (packager ["*.py"] true) with_requirements)) =
  [Subprocess ["python3"; "-m"; "pip"; "install"; "-r"; "requirements.txt";
               "--target"; "/tmp/stage"]].
Proof.
  split; [reflexivity|].
  apply (requirements_txt_takes_priority (finds [relative ["handler.py"]] true)
           (packager ["*.py"] true) with_requirements).
  reflexivity.
Defined.

(** C6. The installer raises [ValueError] exactly when the requirements
    file is not a regular file, and then leaves the world as it found it:
    no installer is started.  In [execute] this happens when the lock
    export left no file behind: the run ends with [ValueError] in the state
    the export left, before the copier has run. *)
Theorem missing_requirements_file_aborts (E : collaborators) :
  (forall target req no_deps w,
     (fst (_install_requirements_txt E target req no_deps w) = Raise ValueError
      <-> is_file_at (disk w) (locate w req) = false) /\
     (is_file_at (disk w) (locate w req) = false ->
      _install_requirements_txt E target req no_deps w = (Raise ValueError, w))) /\
  (forall self w w1,
     let req := joinpath (tmp_folder self) (Path_of "requirements.txt") in
     is_file_at (disk w)
       (locate w (joinpath (project_directory self) (Path_of "requirements.txt")))
     = false ->
     poetry_is_used E (project_directory self) w = true ->
     (log INFO "using pyproject.toml file in project directory" ;;;
      export_poetry E req (project_directory self)) w = (Ok tt, w1) ->
     is_file_at (disk w1) (locate w1 req) = false ->
     execute E self w = (Raise ValueError, w1)).
Proof.
  split.
  - intros target req no_deps w. split; [split|].
    + intros H. destruct (is_file_at (disk w) (locate w req)) eqn:Ef; [|reflexivity].
      rewrite install_present in H by exact Ef. cbn [fst] in H.
      destruct (subprocess_effect E _ _).1; discriminate.
    + intros H. rewrite install_missing by exact H. reflexivity.
    + apply install_missing.
  - intros self w w1 req Hreq Hp Hex Hmiss.
    unfold execute, install_dependencies.
    unfold bind at 1 2 3. unfold is_file at 1. rewrite Hreq.
    unfold bind at 1. rewrite Hp.
    fold req. unfold bind at 1.
    unfold bind at 1 in Hex.
    destruct (log INFO "using pyproject.toml file in project directory" w)
      as [[[]|e0] w0]; [|discriminate].
    unfold bind at 1.
    rewrite Hex. rewrite install_missing by exact Hmiss. reflexivity.
Qed.

Lemma missing_requirements_file_aborts_witness :
  fst (execute (finds [relative ["handler.py"]] true) (packager ["*.py"] true)
         poetry_only) = Raise ValueError /\
  disk (snd (execute (finds [relative ["handler.py"]] true)
               (packager ["*.py"] true) poetry_only)) = disk poetry_only.
Proof.
  pose proof (proj2 (missing_requirements_file_aborts
                       (finds [relative ["handler.py"]] true))
                (packager ["*.py"] true) poetry_only
                (mkWorld (disk poetry_only) (cwd poetry_only)
                   [Log INFO "using pyproject.toml file in project directory";
                    ExportPoetry (mkPath true ["tmp"; "stage"; "requirements.txt"])
                      (mkPath false [])])
                eq_refl eq_refl eq_refl eq_refl) as H.
  rewrite H. split; reflexivity.
Defined.



(** C5: a target that ends in [.zip], two levels below an existing
    directory.  The directory of the target is not made, the call ends with
    [FileNotFoundError] and no archive is written. *)
Lemma create_zip_file_missing_grandparent :
  Str.endswith "out/dist/lambda.zip" ".zip" = true /\
  _create_zip_file (mkPath true ["tmp"; "stage"]) "out/dist/lambda.zip"
    (machine [("handler.py", py)])
  = (Raise FileNotFoundError, machine [("handler.py", py)]).
Proof. split; reflexivity. Qed.

Lemma writes_anything Q w w' : writes Q w w' -> writes anything w w'.
Proof. apply writes_weaken. intros; exact I. Qed.

Lemma copy_object_hidden_file self P T copied obj rel w r w' :
  ignore_hidden_files (config self) = true ->
  relative_to obj P = Some rel ->
  is_file_at (disk w) (locate w obj) = true ->
  _is_hidden_file (str rel) = true ->
  copy_object self P T copied obj w = (Ok r, w') ->
  r = copied /\
  is_dir_at (disk w') (locate w (parent (joinpath T rel))) = true.
Proof.
  intros Hh Hrel Hf Hhid. unfold copy_object. rewrite Hrel.
  unfold bind at 1. unfold is_file at 1. rewrite Hf.
  unfold bind at 1. unfold log at 1, emit at 1.
  unfold bind at 1.
  match goal with
  | |- context [mkdir_exist_ok ?p ?w1] =>
      destruct (mkdir_exist_ok p w1) as [[[]|e] w2] eqn:Emk
  end; [|discriminate].
  rewrite Hh, Hhid. cbn [andb]. unfold bind, ret, log, emit.
  intros [= <- <-]. split; [reflexivity|].
  apply mkdir_ok in Emk. exact Emk.
Qed.

Lemma for_each_ok_step self P T objs :
  forall copied w r w',
    for_each (copy_object self P T) objs copied w = (Ok r, w') ->
    forall obj, In obj objs ->
    exists c1 wa c2 wb,
      writes anything w wa /\
      copy_object self P T c1 obj wa = (Ok c2, wb) /\
      writes anything wb w'.
Proof.
  induction objs as [|o objs IH]; intros copied w r w' H obj Hin; [destruct Hin|].
  cbn [for_each] in H. unfold bind at 1 in H.
  destruct (copy_object self P T copied o w) as [[c1|e] w1] eqn:E1;
    [|discriminate].
  destruct Hin as [->|Hin].
  - exists copied, w, c1, w1. split; [apply writes_refl|]. split; [exact E1|].
    eapply writes_anything, for_each_copy_writes, H.
  - destruct (IH _ _ _ _ H obj Hin) as (ca & wa & cb & wb & Ha & Hs & Hb).
    exists ca, wa, cb, wb. split; [|auto].
    eapply writes_trans; [|exact Ha].
    eapply writes_anything, copy_object_writes, E1.
Qed.

Section Copier.

Variable E : collaborators.

Lemma copy_source_files_ok self P T w w2 :
  _copy_source_files E self P T w = (Ok tt, w2) ->
  exists w0 copied w3,
    writes anything w w0 /\
    for_each (copy_object self P T) (matched E self P w) [] w0 = (Ok copied, w3) /\
    writes anything w3 w2.
Proof.
  unfold _copy_source_files, matched, _get_matching_files_and_folders.
  unfold bind at 1.
  set (objs := iteration_order E _).
  unfold bind at 1. unfold log at 1, emit at 1.
  unfold bind at 1. unfold log at 1, emit at 1.
  set (w0 := mkWorld _ _ (_ ++ [Log DEBUG _])).
  unfold bind at 1.
  destruct (for_each (copy_object self P T) objs [] w0)
    as [[copied|e] w3] eqn:Efe; [|discriminate].
  unfold log, emit. intros [= <-].
  exists w0, copied, w3. split; [|split; [exact Efe|]].
  - eapply writes_trans; apply writes_step; apply step_log.
  - apply writes_step, step_log.
Qed.

End Copier.

(** C10. When the copier completes and one of the matched objects is a
    regular file that the hidden-file filter skips, the parent directory of
    its destination is in the staging directory all the same: it was made
    before the check.  The archive builder then lists that directory. *)
Theorem skipped_hidden_file_leaves_parent
    (E : collaborators) (self : LambdaAutoPackage) (w w2 : world)
    (obj rel : Path) :
  let P := project_directory self in
  let T := tmp_folder self in
  ignore_hidden_files (config self) = true ->
  In obj (matched E self P w) ->
  relative_to obj P = Some rel ->
  is_file_at (disk w) (locate w obj) = true ->
  _is_hidden_file (str rel) = true ->
  _copy_source_files E self P T w = (Ok tt, w2) ->
  is_dir_at (disk w2) (locate w (parent (joinpath T rel))) = true /\
  forall target w3 x,
    _create_zip_file T target w2 = (Ok tt, w3) ->
    x <> [] -> locate w (parent (joinpath T rel)) = locate w T ++ x ->
    exists ms,
      kind_at (disk w3) (locate w (Path_of target)) = Some (KFile (ZipArchive ms)) /\
      In (x, true) ms.
Proof.
  intros P T Hh Hin Hrel Hfile Hhid Hcopy.
  destruct (copy_source_files_ok _ _ _ _ _ _ Hcopy)
    as (w0 & copied & w3 & H0 & Hfe & H3).
  destruct (for_each_ok_step _ _ _ _ _ _ _ _ Hfe obj Hin)
    as (c1 & wa & c2 & wb & Ha & Hs & Hb).
  assert (H0a : writes anything w wa) by (eapply writes_trans; eassumption).
  assert (Hca : cwd wa = cwd w) by (eapply writes_cwd, H0a).
  assert (Hfa : is_file_at (disk wa) (locate wa obj) = true).
  { unfold locate. rewrite Hca. eapply writes_file; [exact H0a|exact Hfile]. }
  destruct (copy_object_hidden_file _ _ _ _ _ _ _ _ _ Hh Hrel Hfa Hhid Hs)
    as [_ Hdir].
  unfold locate in Hdir. rewrite Hca in Hdir. fold (locate w (parent (joinpath T rel))) in Hdir.
  assert (Hb2 : writes anything wb w2) by (eapply writes_trans; eassumption).
  assert (Hdir2 : is_dir_at (disk w2) (locate w (parent (joinpath T rel))) = true)
    by (eapply writes_dir; eassumption).
  split; [exact Hdir2|].
  intros target w4 x Hzip Hx Hloc.
  destruct (create_zip_file_ok _ _ _ _ Hzip) as (w1 & H21 & _ & Hk).
  assert (Hc2 : cwd w2 = cwd w).
  { rewrite (writes_cwd _ _ Hb2). erewrite writes_cwd by (eapply copy_object_writes, Hs).
    exact Hca. }
  assert (Hc1 : cwd w1 = cwd w) by (rewrite (writes_cwd _ _ H21); exact Hc2).
  exists (staged_members w1 T). split.
  - unfold locate in *. rewrite Hc2 in Hk. exact Hk.
  - pose proof (writes_dir _ _ _ H21 Hdir2) as Hdir1.
    rewrite Hloc in Hdir1. apply is_dir_kind in Hdir1.
    unfold kind_at in Hdir1.
    destruct (lookup_node (disk w1) (locate w T ++ x)) as [c|] eqn:El;
      [|discriminate].
    destruct (lookup_prefix _ _ _ _ El) as (t & Ht & Hx').
    unfold staged_members, locate. rewrite Hc1. fold (locate w T). rewrite Ht.
    apply (members_dir t [] x Hx). unfold kind_at. rewrite Hx'. exact Hdir1.
Qed.

Lemma no_dot_existsb q :
  Forall (fun n => dot_name n = false) q -> existsb dot_name q = false.
Proof.
  induction 1 as [|n q Hn _ IH]; [reflexivity|]. cbn. rewrite Hn, IH. reflexivity.
Qed.

Lemma no_hidden_no_dot x :
  Forall (fun n => _is_hidden_file n = false) x ->
  Forall (fun n => dot_name n = false) x.
Proof. intros H. eapply Forall_impl; [exact H|]. intros n. apply hidden_dot_name. Qed.

(** A regular file the loop body writes for [obj] lies below the target
    directory at a path without a dot segment, when the filter is on. *)
Lemma object_writes_file P T c obj q d :
  object_writes true P T c obj q (KFile d) ->
  exists x, q = locate_in c T ++ x /\ Forall (fun n => dot_name n = false) x.
Proof.
  intros (rel & Hrel & Hcases).
  destruct (relative_to_parts _ _ _ Hrel) as [Habs Hparts].
  cbv zeta in Hcases. rewrite (locate_joinpath_relative _ _ _ Habs) in Hcases.
  destruct Hcases as [[Hk _]|[(-> & _ & Hh)|(x & -> & _ & Hh)]]; [discriminate| |].
  - exists (parts rel). split; [reflexivity|]. apply hidden_str, Hh. reflexivity.
  - destruct (Hh eq_refl) as [Hobj Hx].
    exists (parts rel ++ x). rewrite app_assoc. split; [reflexivity|].
    apply Forall_app. split; [|apply no_hidden_no_dot, Hx].
    apply hidden_str in Hobj. rewrite Hparts in Hobj.
    apply Forall_app in Hobj as [_ Hobj]. exact Hobj.
Qed.

Lemma prefix_app_cases (q a b : location) :
  q `prefix_of` a ++ b ->
  q `prefix_of` a \/ exists x, q = a ++ x /\ x `prefix_of` b.
Proof.
  revert q. induction a as [|n a IH]; intros q H.
  - right. exists q. auto.
  - destruct q as [|m q]; [left; apply prefix_nil|].
    cbn [app] in H. pose proof (prefix_cons_inv_1 _ _ _ _ H) as ->.
    apply prefix_cons_inv_2 in H.
    destruct (IH _ H) as [Hp|(x & -> & Hx)].
    + left. apply prefix_cons, Hp.
    + right. exists x. auto.
Qed.

Lemma prefix_app_self_nil (a x : location) : a ++ x `prefix_of` a -> x = [].
Proof.
  intros H. apply prefix_length in H. rewrite length_app in H.
  destruct x; [reflexivity|cbn in H; lia].
Qed.

(** Whatever the loop body writes for [obj] lies at, above or below the
    destination of [obj]. *)
Lemma object_writes_near h P T c obj q k :
  object_writes h P T c obj q k ->
  exists rel, relative_to obj P = Some rel /\
    (exists x, q = locate_in c T ++ x /\
       (x `prefix_of` parts rel \/ parts rel `prefix_of` x)) \/
    k = KDir /\ q `prefix_of` locate_in c T.
Proof.
  intros (rel & Hrel & Hcases). exists rel.
  destruct (relative_to_parts _ _ _ Hrel) as [Habs Hparts].
  cbv zeta in Hcases. rewrite (locate_joinpath_relative _ _ _ Habs) in Hcases.
  destruct Hcases as [[Hk Hq]|[(-> & _ & _)|(x & -> & _ & _)]].
  - destruct (prefix_app_cases _ _ _ Hq) as [Hp|(x & -> & Hx)].
    + right. auto.
    + left. split; [exact Hrel|]. exists x. auto.
  - left. split; [exact Hrel|]. exists (parts rel). auto.
  - left. split; [exact Hrel|]. exists (parts rel ++ x).
    rewrite app_assoc. split; [reflexivity|]. right. apply prefix_app_r. reflexivity.
Qed.

Lemma skipped_hidden_file_leaves_parent_witness :
  let E := finds [relative ["pkg"; ".secret.py"]] false in
  let self := packager ["*.py"] true in
  let w2 := snd (_copy_source_files E self (project_directory self)
                   (tmp_folder self) hidden_module) in
  kind_at (disk hidden_module) ["tmp"; "stage"; "pkg"] = None /\
  is_dir_at (disk w2) ["tmp"; "stage"; "pkg"] = true /\
  kind_at (disk w2) ["tmp"; "stage"; "pkg"; ".secret.py"] = None /\
  exists ms,
    kind_at (disk (snd (_create_zip_file (tmp_folder self) "dist/lambda.zip" w2)))
      ["proj"; "dist"; "lambda.zip"] = Some (KFile (ZipArchive ms)) /\
    In (["pkg"], true) ms.
Proof.
  intros E self w2.
  destruct (skipped_hidden_file_leaves_parent E self hidden_module w2
              (relative ["pkg"; ".secret.py"]) (relative ["pkg"; ".secret.py"]))
    as [Hdir Hzip].
  - reflexivity.
  - vm_compute. left. reflexivity.
  - reflexivity.
  - reflexivity.
  - reflexivity.
  - vm_compute. reflexivity.
  - split; [reflexivity|]. split; [exact Hdir|]. split; [vm_compute; reflexivity|].
    apply (Hzip "dist/lambda.zip"
             (snd (_create_zip_file (tmp_folder self) "dist/lambda.zip" w2))
             ["pkg"]).
    + vm_compute. reflexivity.
    + discriminate.
    + reflexivity.
Defined.

(** C1: a Python file in a hidden directory, matched with the hidden-file
    filter on.  The file is skipped, but its directory was made in the
    staging directory before the check: the run completes with an archive
    that lists the directory [.hidden]. *)
Lemma hidden_directory_in_archive :
  let E := finds [relative [".hidden"; "config.py"]] false in
  let self := packager ["*.py"] true in
  let w := machine [(".hidden", Dir [("config.py", py)])] in
  ignore_hidden_files (config self) = true /\
  fst (execute E self w) = Ok tt /\
  kind_at (disk (snd (execute E self w))) ["proj"; "dist"; "lambda.zip"]
  = Some (KFile (ZipArchive [([".hidden"], true)])) /\
  dot_name ".hidden" = true.
Proof. vm_compute. repeat split. Qed.

(** C3: a matched file two levels down, nothing yet in the staging
    directory.  The copier stops with [FileNotFoundError] when it makes the
    parent directory, and the file is not copied. *)
Theorem nested_file_is_not_copied :
  let E := finds [relative ["a"; "b"; "c.py"]] false in
  let self := packager ["*.py"] true in
  let w := machine [("a", Dir [("b", Dir [("c.py", py)])])] in
  let run := _copy_source_files E self (project_directory self)
               (tmp_folder self) w in
  fst run = Raise FileNotFoundError /\
  kind_at (disk (snd run)) ["tmp"; "stage"; "a"; "b"; "c.py"] = None /\
  kind_at (disk (snd run)) ["tmp"; "stage"; "a"] = None.
Proof. vm_compute. repeat split. Qed.

(** C8: the same project with the filter off.  The run stops with
    [FileNotFoundError] and no archive is produced. *)
Theorem nested_file_stops_the_run :
  let E := finds [relative ["a"; "b"; "c.py"]] false in
  let self := packager ["*.py"] false in
  let w := machine [("a", Dir [("b", Dir [("c.py", py)])])] in
  ignore_hidden_files (config self) = false /\
  is_file_at (disk w) ["proj"; "a"; "b"; "c.py"] = true /\
  fst (execute E self w) = Raise FileNotFoundError /\
  kind_at (disk (snd (execute E self w))) ["proj"; "dist"; "lambda.zip"] = None.
Proof. vm_compute. repeat split. Qed.

(** C7: a project with neither [requirements.txt] nor a lock manifest,
    whose only Python file lies two directories down.  The dependency
    stage logs its warning and ends well; the copier then stops with
    [FileNotFoundError] when it makes the parent of the destination, and
    the run ends there: no archive is written. *)
Theorem no_dependency_run_stops_in_the_copier :
  let E := finds [relative ["src"; "lib"; "util.py"]] false in
  let self := packager ["*.py"] true in
  let w := machine [("src", Dir [("lib", Dir [("util.py", py)])])] in
  is_file_at (disk w) ["proj"; "requirements.txt"] = false /\
  poetry_is_used E (project_directory self) w = false /\
  install_dependencies E self w
  = (Ok tt, mkWorld (disk w) (cwd w)
              [Log WARNING "No dependency found, none will be packaged"]) /\
  is_file_at (disk w) ["proj"; "src"; "lib"; "util.py"] = true /\
  _is_hidden_file "src/lib/util.py" = false /\
  fst (execute E self w) = Raise FileNotFoundError /\
  kind_at (disk (snd (execute E self w))) ["proj"; "dist"; "lambda.zip"] = None /\
  kind_at (disk (snd (execute E self w))) ["tmp"; "stage"; "src"] = None.
Proof. vm_compute. repeat split. Qed.

(** C2: a project kept under a hidden directory and given by its absolute
    path.  Matched as a file, [src/a.py] is checked on its project-relative
    path and copied; met inside the matched directory [src], it is checked
    against the absolute path of that directory, which has a dot segment, and
    is left out of the staging directory. *)
Theorem hidden_project_directory_hides_tree :
  let P := mkPath true ["home"; ".cache"; "proj"] in
  let self := mkPackage P (mkConfig ["*.py"; "src"] true)
                (mkPath true ["tmp"; "stage"]) in
  let as_file := finds [joinpath P (relative ["src"; "a.py"])] false in
  let as_tree := finds [joinpath P (relative ["src"])] false in
  let copy E := _copy_source_files E self P (tmp_folder self) under_hidden_directory in
  _is_hidden_file "src/a.py" = false /\
  fst (copy as_file) = Ok tt /\
  kind_at (disk (snd (copy as_file))) ["tmp"; "stage"; "src"; "a.py"]
  = Some (KFile (Bytes "pass")) /\
  fst (copy as_tree) = Ok tt /\
  kind_at (disk (snd (copy as_tree))) ["tmp"; "stage"; "src"] = Some KDir /\
  kind_at (disk (snd (copy as_tree))) ["tmp"; "stage"; "src"; "a.py"] = None.
Proof. vm_compute. repeat split. Qed.

(** * Further properties of the code *)

(** ** The file collector *)

Lemma remove_dups_In (l : list Path) p : In p (remove_dups l) <-> In p l.
Proof.
  rewrite <- !list_elem_of_In. apply elem_of_remove_dups.
Qed.

Lemma collect_fold (E : collaborators) source_dir w patterns :
  forall acc,
    NoDup acc ->
    let objs := fold_left
           (fun (matching_objects : list Path) pattern =>
              remove_dups (matching_objects ++ rglob E source_dir pattern w))
           patterns acc in
    NoDup objs /\
    forall p, In p objs <->
      In p acc \/ exists pattern, In pattern patterns /\
                                  In p (rglob E source_dir pattern w).
Proof.
  induction patterns as [|pat patterns IH]; intros acc Hnd; cbn.
  - split; [exact Hnd|]. intros p. split; [auto|].
    intros [H|(pat & [] & _)]. exact H.
  - destruct (IH (remove_dups (acc ++ rglob E source_dir pat w)))
      as [Hnd' Hin]; [apply NoDup_remove_dups|].
    split; [exact Hnd'|]. intros p. rewrite Hin, remove_dups_In, in_app_iff.
    split.
    + intros [[H|H]|(pat' & H1 & H2)]; eauto 6.
    + intros [H|(pat' & [<-|H1] & H2)]; eauto 6.
Qed.

(** X1.  When the file collector returns, it has changed nothing and its
    result is the union of what the patterns match, each object once: an
    object is in the result exactly when [rglob] yields it for one of the
    patterns.  No pattern, no object. *)
Theorem matching_objects_are_the_union
    (E : collaborators) (pattern_list : list string) (source_dir : Path)
    (w w' : world) (matching_objects : list Path) :
  _get_matching_files_and_folders E pattern_list source_dir w
  = (Ok matching_objects, w') ->
  w' = w /\
  List.NoDup matching_objects /\
  forall p, In p matching_objects <->
    exists pattern, In pattern pattern_list /\
                    In p (rglob E source_dir pattern w).
Proof.
  unfold _get_matching_files_and_folders. intros [= <- <-].
  split; [reflexivity|].
  destruct (collect_fold E source_dir w pattern_list [] NoDup_nil_2)
    as [Hnd Hin].
  split; [apply NoDup_ListNoDup, Hnd|]. intros p. rewrite Hin. split; [|auto].
  intros [[]|H]. exact H.
Qed.

(** ** The callback *)

(** X2.  The callback handed to [copytree] never fails and only logs: the
    disk and the working directory are as they were and no tool is started.
    The names it hands back are names of the listing; every hidden name of
    the listing is among them; a name that is not hidden is handed back only
    when the path of the listed directory is hidden, and then the whole
    listing is. *)
Theorem hidden_file_list_only_logs
    (src : string) (files : list string) (w : world) :
  exists files_to_skip w',
    _is_hidden_file_list src files w = (Ok files_to_skip, w') /\
    disk w' = disk w /\ cwd w' = cwd w /\ tools w' = tools w /\
    (forall n, In n files_to_skip -> In n files) /\
    (forall n, In n files -> _is_hidden_file n = true -> In n files_to_skip) /\
    (forall n, In n files_to_skip ->
       _is_hidden_file src = true \/ _is_hidden_file n = true) /\
    (_is_hidden_file src = true -> files_to_skip = files).
Proof.
  unfold _is_hidden_file_list.
  destruct (_is_hidden_file src) eqn:Hs.
  - eexists files, _. split; [reflexivity|]. cbn [disk cwd].
    split; [reflexivity|]. split; [reflexivity|].
    split; [apply tools_snoc_log|]. repeat split; auto.
  - assert (Hf : forall n, In n (List.filter _is_hidden_file files) <->
                   In n files /\ _is_hidden_file n = true)
      by (intros n; apply filter_In).
    destruct (List.filter _is_hidden_file files) as [|x l] eqn:El.
    + eexists [], w. split; [reflexivity|]. repeat split; try reflexivity.
      * intros n [].
      * intros n H1 H2. apply Hf. auto.
      * intros n [].
      * discriminate.
    + eexists (x :: l), _. split; [reflexivity|]. cbn [disk cwd].
      split; [reflexivity|]. split; [reflexivity|].
      split; [apply tools_snoc_log|]. repeat split.
      * intros n H. apply Hf, H.
      * intros n H1 H2. apply Hf. auto.
      * intros n H. right. apply Hf, H.
      * discriminate.
Qed.

(** ** The copier: what stays and what arrives *)

Lemma is_dir_prefix t p q :
  is_dir_at t p = true -> q `prefix_of` p -> is_dir_at t q = true.
Proof.
  intros Hd [k ->]. unfold is_dir_at in *.
  destruct (lookup_node t (q ++ k)) as [c|] eqn:El; [|discriminate].
  destruct (lookup_prefix _ _ _ _ El) as (t' & -> & Hk).
  destruct k as [|n k].
  - cbn in Hk. injection Hk as ->. exact Hd.
  - destruct t'; cbn in Hk; try discriminate. reflexivity.
Qed.

Lemma object_writes_below h P T c obj q k :
  object_writes h P T c obj q k ->
  q `prefix_of` locate_in c T \/ locate_in c T `prefix_of` q.
Proof.
  intros (rel & Hrel & H).
  destruct (relative_to_parts _ _ _ Hrel) as [Habs _].
  rewrite (locate_joinpath_relative c T rel Habs) in H.
  destruct H as [[_ Hq]|[(-> & _)|(x & -> & _)]].
  - destruct (prefix_app_cases _ _ _ Hq) as [Hp|(x & -> & _)].
    + left. exact Hp.
    + right. apply prefix_app_r. reflexivity.
  - right. apply prefix_app_r. reflexivity.
  - right. rewrite <- app_assoc. apply prefix_app_r. reflexivity.
Qed.

(** X3.  The copier merges into the staging directory: whatever its outcome,
    a directory that was there is still a directory and a regular file is
    still a regular file, nothing is removed, the working directory is
    the same and no external tool was started. *)
Theorem copier_keeps_what_is_staged
    (E : collaborators) (self : LambdaAutoPackage) (P T : Path) (w : world) :
  let w' := snd (_copy_source_files E self P T w) in
  (forall q, is_dir_at (disk w) q = true -> is_dir_at (disk w') q = true) /\
  (forall q, is_file_at (disk w) q = true -> is_file_at (disk w') q = true) /\
  cwd w' = cwd w /\ tools w' = tools w.
Proof.
  intros w'. subst w'.
  destruct (_copy_source_files E self P T w) as [r w'] eqn:Ec. cbn [snd].
  pose proof (copy_source_files_writes _ _ _ _ _ _ _ Ec) as Hw.
  split; [|split; [|split]].
  - intros q. apply (writes_dir _ _ _ Hw).
  - intros q. apply (writes_file _ _ _ Hw).
  - apply (writes_cwd _ _ Hw).
  - apply (writes_tools _ _ Hw).
Qed.

(** X4.  On paths without [..]: when the staging directory is there and
    the relative path of no matched object has a [..] segment, the copier
    changes nothing outside the staging directory, whatever its outcome.
    Every location that is not the staging directory or below it is what
    it was, the content of a regular file included. *)
Theorem copier_writes_only_staging
    (E : collaborators) (self : LambdaAutoPackage) (P T : Path) (w : world)
    (q : location) :
  is_dir_at (disk w) (locate w T) = true ->
  (forall obj rel, In obj (matched E self P w) ->
     relative_to obj P = Some rel -> ~ In ".." (parts rel)) ->
  ~ In ".." (locate w T) ->
  ~ In ".." q ->
  ~ locate w T `prefix_of` q ->
  kind_at (disk (snd (_copy_source_files E self P T w))) q = kind_at (disk w) q.
Proof.
  intros Hdir _ _ _ Hout.
  destruct (_copy_source_files E self P T w) as [r w'] eqn:Ec. cbn [snd].
  pose proof (copy_source_files_writes _ _ _ _ _ _ _ Ec) as Hw.
  destruct (decide (q `prefix_of` locate w T)) as [Hp|Hnp].
  - pose proof (is_dir_prefix _ _ _ Hdir Hp) as Hq.
    pose proof (writes_dir _ _ _ Hw Hq) as Hq'.
    apply is_dir_kind in Hq, Hq'. congruence.
  - eapply writes_frame; [exact Hw|].
    intros k (obj & _ & Hobj).
    destruct (object_writes_below _ _ _ _ _ _ _ Hobj); auto.
Qed.

Lemma copy_object_file self P T copied obj rel w r w' :
  relative_to obj P = Some rel ->
  is_file_at (disk w) (locate w obj) = true ->
  ignore_hidden_files (config self) && _is_hidden_file (str rel) = false ->
  copy_object self P T copied obj w = (Ok r, w') ->
  r = copied ++ [str (joinpath T rel)] /\
  is_file_at (disk w') (locate w (joinpath T rel)) = true.
Proof.
  intros Hrel Hf Hhid. unfold copy_object. rewrite Hrel.
  unfold bind at 1. unfold is_file at 1. rewrite Hf.
  unfold bind at 1. unfold log at 1, emit at 1.
  unfold bind at 1.
  match goal with
  | |- context [mkdir_exist_ok ?p ?w1] =>
      destruct (mkdir_exist_ok p w1) as [[[]|e] w2] eqn:Emk
  end; [|discriminate].
  rewrite Hhid. unfold bind at 1. unfold copyfile, bind, ret.
  destruct (copyfile_at (locate w2 obj) (locate w2 (joinpath T rel)) w2)
    as [[[]|e] w3] eqn:Ecp; [|discriminate].
  intros [= <- <-]. split; [reflexivity|].
  assert (Hc : cwd w2 = cwd w)
    by (rewrite (writes_cwd _ _ (mkdir_writes _ _ _ _ Emk)); reflexivity).
  unfold locate in *. rewrite Hc in Ecp.
  unfold copyfile_at in Ecp.
  destruct (decide (locate_in (cwd w) obj = locate_in (cwd w) (joinpath T rel)));
    [discriminate|].
  destruct (lookup_node (disk w2) (locate_in (cwd w) obj)) as [[data|es|]|];
    try discriminate.
  apply write_file_ok in Ecp. apply is_file_kind. eauto.
Qed.

(** X5.  When the copier completes, every matched regular file that the
    hidden-file filter does not skip is a regular file of the staging
    directory, at its path relative to the source directory. *)
Theorem matched_file_is_staged
    (E : collaborators) (self : LambdaAutoPackage) (P T : Path)
    (w w2 : world) (obj rel : Path) :
  In obj (matched E self P w) ->
  relative_to obj P = Some rel ->
  is_file_at (disk w) (locate w obj) = true ->
  ignore_hidden_files (config self) && _is_hidden_file (str rel) = false ->
  _copy_source_files E self P T w = (Ok tt, w2) ->
  is_file_at (disk w2) (locate w (joinpath T rel)) = true.
Proof.
  intros Hin Hrel Hfile Hhid Hcopy.
  destruct (copy_source_files_ok _ _ _ _ _ _ Hcopy)
    as (w0 & copied & w3 & H0 & Hfe & H3).
  destruct (for_each_ok_step _ _ _ _ _ _ _ _ Hfe obj Hin)
    as (c1 & wa & c2 & wb & Ha & Hs & Hb).
  assert (H0a : writes anything w wa) by (eapply writes_trans; eassumption).
  assert (Hca : cwd wa = cwd w) by (eapply writes_cwd, H0a).
  assert (Hfa : is_file_at (disk wa) (locate wa obj) = true).
  { unfold locate. rewrite Hca. eapply writes_file; [exact H0a|exact Hfile]. }
  destruct (copy_object_file _ _ _ _ _ _ _ _ _ Hrel Hfa Hhid Hs) as [_ Hf].
  unfold locate in Hf. rewrite Hca in Hf.
  assert (Hb2 : writes anything wb w2) by (eapply writes_trans; eassumption).
  eapply writes_file; eassumption.
Qed.

Lemma copytree_ok_dir h t src dst w w' :
  _copytree (callback h) t src dst w = (Ok tt, w') ->
  is_dir_at (disk w') dst = true.
Proof.
  destruct t as [d|es|]; try discriminate.
  intros H. pose proof H as Hall. cbn [_copytree] in H.
  match type of H with
  | (let '(_, _) := ?c in _) = _ => destruct c as [ig w1] eqn:Eig
  end.
  destruct ig as [l|e]; [|discriminate].
  destruct (makedirs dst w1) as [[[]|e] w2] eqn:Em; [|discriminate].
  destruct (copy_entries (_copytree (callback h)) l src dst es [] w2)
    as [errs w3] eqn:Ec.
  assert (w' = w3) as -> by (destruct errs; congruence).
  pose proof (makedirs_ok _ _ _ Em) as Hd.
  eapply writes_dir; [|exact Hd].
  eapply (copy_entries_writes false); [| discriminate | exact Ec].
  apply Forall_forall. intros [n c] _ s d0 wx r wy Hr. cbn in Hr.
  destruct h.
  - eapply writes_weaken; [|eapply (copytree_writes true); exact Hr].
    intros q k [Hq|(x & Hx1 & Hx2 & _)]; [left; exact Hq|].
    right. exists x. split; [exact Hx1|]. split; [exact Hx2|]. discriminate.
  - eapply (copytree_writes false); exact Hr.
Qed.

Lemma copy_object_directory self P T copied obj rel w r w' :
  relative_to obj P = Some rel ->
  is_dir_at (disk w) (locate w obj) = true ->
  copy_object self P T copied obj w = (Ok r, w') ->
  r = copied ++ [str (joinpath T rel)] /\
  is_dir_at (disk w') (locate w (joinpath T rel)) = true.
Proof.
  intros Hrel Hd. unfold copy_object. rewrite Hrel.
  assert (Hf : is_file_at (disk w) (locate w obj) = false).
  { unfold is_dir_at in Hd. unfold is_file_at.
    destruct (lookup_node (disk w) (locate w obj)) as [[| |]|];
      try discriminate; reflexivity. }
  unfold bind at 1. unfold is_file at 1. rewrite Hf.
  unfold bind at 1. unfold is_dir at 1. rewrite Hd.
  unfold bind at 1. unfold log at 1, emit at 1.
  unfold bind at 1. unfold copytree. cbn [disk cwd locate].
  unfold locate. cbn [cwd disk].
  destruct (lookup_node (disk w) (locate_in (cwd w) obj)) as [t|];
    [|discriminate].
  unfold bind, ret.
  match goal with
  | |- context [_copytree _ t ?s ?d ?w1] =>
      destruct (_copytree _ t s d w1) as [[[]|e] w2] eqn:Ect
  end; [|discriminate].
  intros [= <- <-]. split; [reflexivity|].
  eapply (copytree_ok_dir (ignore_hidden_files (config self))).
  unfold callback. exact Ect.
Qed.

(** X6.  When the copier completes, the destination of every matched directory
    is a directory of the staging directory, whether or not the filter is
    on and the directory is hidden. *)
Theorem matched_directory_is_staged
    (E : collaborators) (self : LambdaAutoPackage) (P T : Path)
    (w w2 : world) (obj rel : Path) :
  In obj (matched E self P w) ->
  relative_to obj P = Some rel ->
  is_dir_at (disk w) (locate w obj) = true ->
  _copy_source_files E self P T w = (Ok tt, w2) ->
  is_dir_at (disk w2) (locate w (joinpath T rel)) = true.
Proof.
  intros Hin Hrel Hdir Hcopy.
  destruct (copy_source_files_ok _ _ _ _ _ _ Hcopy)
    as (w0 & copied & w3 & H0 & Hfe & H3).
  destruct (for_each_ok_step _ _ _ _ _ _ _ _ Hfe obj Hin)
    as (c1 & wa & c2 & wb & Ha & Hs & Hb).
  assert (H0a : writes anything w wa) by (eapply writes_trans; eassumption).
  assert (Hca : cwd wa = cwd w) by (eapply writes_cwd, H0a).
  assert (Hda : is_dir_at (disk wa) (locate wa obj) = true).
  { unfold locate. rewrite Hca. eapply writes_dir; [exact H0a|exact Hdir]. }
  destruct (copy_object_directory _ _ _ _ _ _ _ _ _ Hrel Hda Hs) as [_ Hd].
  unfold locate in Hd. rewrite Hca in Hd.
  assert (Hb2 : writes anything wb w2) by (eapply writes_trans; eassumption).
  eapply writes_dir; eassumption.
Qed.

(** ** The dependency stage *)

Lemma tools_snoc_tool w e :
  is_tool e = true ->
  tools (mkWorld (disk w) (cwd w) (trace w ++ [e])) = tools w ++ [e].
Proof.
  intros He. unfold tools. cbn [trace]. rewrite List.filter_app. cbn.
  rewrite He. reflexivity.
Qed.

Lemma tools_set_disk w d : tools (set_disk w d) = tools w.
Proof. reflexivity. Qed.

Section Dependencies.

Variable E : collaborators.

Lemma install_dependencies_poetry self w :
  is_file_at (disk w)
    (locate w (joinpath (project_directory self) (Path_of "requirements.txt")))
  = false ->
  poetry_is_used E (project_directory self) w = true ->
  install_dependencies E self w =
  (export_poetry E (joinpath (tmp_folder self) (Path_of "requirements.txt"))
     (project_directory self) ;;;
   _install_requirements_txt E (str (tmp_folder self))
     (joinpath (tmp_folder self) (Path_of "requirements.txt")) true)
    (mkWorld (disk w) (cwd w)
       (trace w ++ [Log INFO "using pyproject.toml file in project directory"])).
Proof.
  intros Hreq Hp. unfold install_dependencies.
  unfold bind at 1. unfold is_file at 1. rewrite Hreq.
  unfold bind at 1. rewrite Hp. reflexivity.
Qed.

Lemma execute_tools self w r w1 :
  install_dependencies E self w = (r, w1) ->
  tools (snd (execute E self w)) = tools w1.
Proof.
  intros Hd. destruct (execute E self w) as [r' w'] eqn:Ex. cbn [snd].
  destruct (execute_steps _ _ _ _ _ Ex) as [(e & Hd' & _)|(w1' & Hd' & Hrest)];
    rewrite Hd in Hd'; injection Hd' as _ <-; [reflexivity|].
  destruct Hrest as [(e & Hc & _)|(w2 & Hc & Hz)].
  - eapply tools_copy, Hc.
  - rewrite (tools_zip _ _ _ _ _ Hz). eapply tools_copy, Hc.
Qed.

End Dependencies.

(** X7.  Without a [requirements.txt] at the project root and with a project
    managed by poetry, when the export completes and leaves its file in the
    staging directory, the run starts two tools and no other: the export
    into [<staging>/requirements.txt], then the installer on that file with
    [--no-deps]. *)
Theorem poetry_export_is_installed_without_deps
    (E : collaborators) (self : LambdaAutoPackage) (w : world) :
  let P := project_directory self in
  let req := joinpath (tmp_folder self) (Path_of "requirements.txt") in
  let w0 := mkWorld (disk w) (cwd w)
              (trace w ++ [Log INFO "using pyproject.toml file in project directory";
                           ExportPoetry req P]) in
  is_file_at (disk w) (locate w (joinpath P (Path_of "requirements.txt"))) = false ->
  poetry_is_used E P w = true ->
  (export_poetry_effect E req P w0).1 = None ->
  is_file_at (export_poetry_effect E req P w0).2 (locate w req) = true ->
  tools (snd (execute E self w)) =
  tools w ++
  [ExportPoetry req P;
   Subprocess [sys_executable E; "-m"; "pip"; "install"; "-r"; str req;
               "--target"; str (tmp_folder self); "--no-deps"]].
Proof.
  intros P req w0 Hreq Hp Hexp Hfile.
  pose proof (install_dependencies_poetry E self w Hreq Hp) as Hi.
  fold P req in Hi. unfold bind at 1 in Hi.
  unfold export_poetry in Hi. unfold bind at 1, emit at 1 in Hi.
  cbn [disk cwd trace] in Hi. rewrite <- app_assoc in Hi. cbn [app] in Hi.
  fold w0 in Hi.
  destruct (export_poetry_effect E req P w0) as [oe d] eqn:Ee.
  cbn [fst snd] in Hexp, Hfile. subst oe.
  assert (Hf1 : is_file_at (disk (set_disk w0 d)) (locate (set_disk w0 d) req) = true)
    by exact Hfile.
  rewrite (install_present E _ _ true _ Hf1) in Hi. cbv zeta in Hi.
  match type of Hi with
  | _ = (?r, ?w1) => rewrite (execute_tools E self w r w1 Hi)
  end.
  rewrite tools_set_disk.
  change (pip_command E (str (tmp_folder self)) req true)
    with [sys_executable E; "-m"; "pip"; "install"; "-r"; str req;
          "--target"; str (tmp_folder self); "--no-deps"].
  unfold tools. cbn [trace disk cwd set_disk w0].
  rewrite !List.filter_app. cbn [List.filter is_tool].
  rewrite !app_nil_r, <- app_assoc. reflexivity.
Qed.

(** X8.  A failing dependency stage stops the run where it failed.  When the
    installer started on the project's [requirements.txt] exits with a
    status other than 0, the run ends with [CalledProcessError]; when the
    export of the lock file raises, the run ends with that exception and no
    installer is started.  In both cases the state is the one the failing
    tool left: the copier and the archive builder have not run. *)
Theorem failed_dependency_stage_stops_the_run
    (E : collaborators) (self : LambdaAutoPackage) (w : world) :
  let P := project_directory self in
  let T := tmp_folder self in
  (let req := joinpath P (Path_of "requirements.txt") in
   let cmd := [sys_executable E; "-m"; "pip"; "install"; "-r"; str req;
               "--target"; str T] in
   let w1 := mkWorld (disk w) (cwd w)
               (trace w ++
                [Log INFO "using requirements.txt file in project directory";
                 Log INFO ("installing pip requirements to '" ++ str T ++ "'");
                 Subprocess cmd]) in
   is_file_at (disk w) (locate w req) = true ->
   (subprocess_effect E cmd w1).1 = false ->
   execute E self w =
   (Raise CalledProcessError, set_disk w1 (subprocess_effect E cmd w1).2)) /\
  (let req := joinpath T (Path_of "requirements.txt") in
   let w0 := mkWorld (disk w) (cwd w)
               (trace w ++
                [Log INFO "using pyproject.toml file in project directory";
                 ExportPoetry req P]) in
   forall e,
   is_file_at (disk w) (locate w (joinpath P (Path_of "requirements.txt"))) = false ->
   poetry_is_used E P w = true ->
   (export_poetry_effect E req P w0).1 = Some e ->
   execute E self w = (Raise e, set_disk w0 (export_poetry_effect E req P w0).2)).
Proof.
  intros P T. split.
  - intros req cmd w1 Hreq Hfail.
    pose proof (install_dependencies_plain E self w Hreq) as Hi.
    fold P T req in Hi.
    assert (Hreq' : is_file_at
              (disk (mkWorld (disk w) (cwd w)
                (trace w ++ [Log INFO "using requirements.txt file in project directory"])))
              (locate (mkWorld (disk w) (cwd w)
                (trace w ++ [Log INFO "using requirements.txt file in project directory"]))
                 req) = true) by exact Hreq.
    rewrite (install_present E _ _ false _ Hreq') in Hi. cbv zeta in Hi.
    cbn [disk cwd trace] in Hi.
    change (pip_command E (str T) req false) with cmd in Hi.
    rewrite <- !app_assoc in Hi. cbn [app] in Hi. fold w1 in Hi.
    rewrite Hfail in Hi.
    unfold execute. unfold bind at 1. rewrite Hi. reflexivity.
  - intros req w0 e Hreq Hp Hexp.
    pose proof (install_dependencies_poetry E self w Hreq Hp) as Hi.
    fold P T req in Hi. unfold bind at 1 in Hi.
    unfold export_poetry in Hi. unfold bind at 1, emit at 1 in Hi.
    cbn [disk cwd trace] in Hi. rewrite <- app_assoc in Hi. cbn [app] in Hi.
    fold w0 in Hi.
    destruct (export_poetry_effect E req P w0) as [oe d] eqn:Ee.
    cbn [fst snd] in Hexp |- *. subst oe.
    unfold execute. unfold bind at 1. rewrite Hi. reflexivity.
Qed.

(** ** The archive builder, step by step *)

Lemma create_zip_file_steps root target w :
  Str.endswith target ".zip" = true ->
  let Z := locate w (Path_of target) in
  match mkdir_exist_ok (removelast Z) w with
  | (Raise e, w1) => _create_zip_file root target w = (Raise e, w1)
  | (Ok _, w1) =>
      _create_zip_file root target w =
      write_file Z (ZipArchive (staged_members w1 root)) w1
  end.
Proof.
  intros Hz Z.
  pose proof (endswith_zip_parts _ Hz) as Hparts.
  assert (Hloc : locate w (parent (Path_of target)) = removelast Z)
    by (apply locate_parent, Hparts).
  destruct (mkdir_exist_ok (removelast Z) w) as [[[]|e] w1] eqn:Emk;
    unfold _create_zip_file; rewrite Hz; unfold bind at 1; rewrite Hloc, Emk;
    [|reflexivity].
  pose proof (mkdir_ok _ _ _ Emk) as Hdir1.
  pose proof (writes_cwd _ _ (mkdir_writes _ _ _ _ Emk)) as Hc.
  unfold make_archive. rewrite (endswith_drop_last _ _ Hz).
  unfold staged_members, locate. rewrite Hc.
  fold (locate w (Path_of target)). fold Z.
  unfold exists_at. unfold is_dir_at in Hdir1.
  destruct (lookup_node (disk w1) (removelast Z)) as [t|]; [|discriminate].
  rewrite ?Hc. reflexivity.
Qed.

Lemma create_zip_file_footprint root target w r w' :
  _create_zip_file root target w = (r, w') ->
  let Z := locate w (Path_of target) in
  writes (fun q k => (q = removelast Z /\ k = KDir) \/
                     (q = Z /\ exists ms, k = KFile (ZipArchive ms))) w w'.
Proof.
  intros H Z.
  destruct (Str.endswith target ".zip") eqn:Hz.
  - pose proof (create_zip_file_steps root target w Hz) as Hs. cbv zeta in Hs. fold Z in Hs.
    destruct (mkdir_exist_ok (removelast Z) w) as [[[]|e] w1] eqn:Emk;
      cbv beta iota in Hs.
    + rewrite Hs in H. eapply writes_trans.
      * eapply writes_weaken; [|eapply mkdir_writes; exact Emk].
        intros q k Hq. left. exact Hq.
      * eapply writes_weaken; [|eapply write_file_writes; exact H].
        intros q k [-> ->]. right. eauto.
    + rewrite Hs in H. injection H as <- <-.
      eapply writes_weaken; [|eapply mkdir_writes; exact Emk].
      intros q k Hq. left. exact Hq.
  - unfold _create_zip_file in H. rewrite Hz in H. injection H as <- <-.
    apply writes_refl.
Qed.

Lemma members_file t :
  forall pre x d, x <> [] -> kind_at t x = Some (KFile d) ->
  In (pre ++ x, false) (zip_members pre t).
Proof.
  intros pre x d. revert t pre. induction x as [|n x IH]; intros t pre Hx Hk;
    [congruence|].
  unfold kind_at in Hk. cbn [lookup_node] in Hk.
  destruct t as [d'|es|]; try discriminate.
  destruct (assoc n es) as [c|] eqn:Ec; [|discriminate].
  apply assoc_In in Ec. cbn [zip_members].
  destruct x as [|m x].
  - cbn in Hk. destruct c; try discriminate.
    apply in_or_app. right. apply in_or_app. left. apply List.in_map_iff.
    exists (n, File data). split; [reflexivity|].
    apply List.filter_In. split; [exact Ec|reflexivity].
  - apply in_or_app. right. apply in_or_app. right.
    apply List.in_flat_map. exists (n, c). split; [exact Ec|]. cbn.
    replace (pre ++ n :: m :: x) with ((pre ++ [n]) ++ m :: x)
      by (rewrite <- app_assoc; reflexivity).
    apply IH; [discriminate|exact Hk].
Qed.

(** The members of the tree at [root], read on the disk. *)
Lemma staged_members_spec w root :
  wf_node (disk w) = true ->
  is_dir_at (disk w) (locate w root) = true ->
  forall x,
    (In (x, true) (staged_members w root) <->
     x <> [] /\ is_dir_at (disk w) (locate w root ++ x) = true) /\
    (In (x, false) (staged_members w root) <->
     x <> [] /\ is_file_at (disk w) (locate w root ++ x) = true).
Proof.
  intros Hwf Hdir x. unfold staged_members. unfold is_dir_at in Hdir.
  destruct (lookup_node (disk w) (locate w root)) as [t|] eqn:El; [|discriminate].
  pose proof (wf_lookup _ _ _ Hwf El) as Hwft.
  assert (Hk : forall y, kind_at (disk w) (locate w root ++ y) = kind_at t y).
  { intros y. unfold kind_at. rewrite (lookup_app _ _ y _ El). reflexivity. }
  split; split.
  - intros Hin. destruct (members_sound t [] _ _ Hwft Hin) as (y & -> & Hy & Hky).
    cbn [app]. split; [exact Hy|]. apply is_dir_kind. rewrite Hk. exact Hky.
  - intros [Hx Hd]. apply is_dir_kind in Hd. rewrite Hk in Hd.
    apply (members_dir t [] x Hx Hd).
  - intros Hin. destruct (members_sound t [] _ _ Hwft Hin) as (y & -> & Hy & Hky).
    cbn [app]. split; [exact Hy|]. apply is_file_kind. rewrite Hk. exact Hky.
  - intros [Hx Hf]. apply is_file_kind in Hf as [d Hd]. rewrite Hk in Hd.
    apply (members_file t [] x d Hx Hd).
Qed.

(** X9.  The archive builder changes two locations at most, whatever its
    outcome: the target, and the directory of the target.  Every other
    location is what it was; the staging directory is only read. *)
Theorem archive_builder_writes_only_target
    (root : Path) (target : string) (w : world) (q : location) :
  let Z := locate w (Path_of target) in
  q <> Z -> q <> removelast Z ->
  kind_at (disk (snd (_create_zip_file root target w))) q = kind_at (disk w) q.
Proof.
  intros Z HZ Hpar.
  destruct (_create_zip_file root target w) as [r w'] eqn:Ec. cbn [snd].
  eapply writes_frame; [eapply create_zip_file_footprint; exact Ec|].
  intros k [[Hq _]|[Hq _]]; auto.
Qed.

(** X10.  The archive lists the staging directory as it is: when the builder
    completes on a directory [root], with the archive's own directory
    outside of [root], the members of the archive are exactly the
    directories and the regular files below [root], each under its path
    relative to [root]; empty directories are listed, [root] itself is
    not. *)
Theorem archive_lists_the_staging_tree
    (root : Path) (target : string) (w w' : world) :
  let Z := locate w (Path_of target) in
  _create_zip_file root target w = (Ok tt, w') ->
  wf_node (disk w) = true ->
  is_dir_at (disk w) (locate w root) = true ->
  ~ locate w root `prefix_of` removelast Z ->
  exists ms,
    kind_at (disk w') Z = Some (KFile (ZipArchive ms)) /\
    forall x,
      (In (x, true) ms <->
       x <> [] /\ is_dir_at (disk w) (locate w root ++ x) = true) /\
      (In (x, false) ms <->
       x <> [] /\ is_file_at (disk w) (locate w root ++ x) = true).
Proof.
  intros Z Hrun Hwf Hroot Hout.
  assert (Hz : Str.endswith target ".zip" = true).
  { unfold _create_zip_file in Hrun.
    destruct (Str.endswith target ".zip"); [reflexivity|discriminate]. }
  pose proof (create_zip_file_steps root target w Hz) as Hs. cbv zeta in Hs. fold Z in Hs.
  destruct (mkdir_exist_ok (removelast Z) w) as [[[]|e] w1] eqn:Emk;
    cbv beta iota in Hs; [|congruence].
  rewrite Hs in Hrun.
  exists (staged_members w1 root). split; [eapply write_file_ok, Hrun|].
  pose proof (mkdir_writes _ _ _ _ Emk) as H01.
  pose proof (writes_cwd _ _ H01) as Hc.
  pose proof (writes_wf _ _ _ H01 Hwf) as Hwf1.
  assert (Hloc : locate w1 root = locate w root)
    by (unfold locate; rewrite Hc; reflexivity).
  assert (Hroot1 : is_dir_at (disk w1) (locate w1 root) = true).
  { rewrite Hloc. eapply writes_dir; eassumption. }
  assert (Hk : forall x, kind_at (disk w1) (locate w root ++ x)
                         = kind_at (disk w) (locate w root ++ x)).
  { intros x. eapply writes_frame; [exact H01|].
    intros k [Hq _]. apply Hout. rewrite <- Hq. apply prefix_app_r. reflexivity. }
  intros x.
  destruct (staged_members_spec w1 root Hwf1 Hroot1 x) as [Hd Hf].
  rewrite Hloc in Hd, Hf.
  split.
  - rewrite Hd. rewrite !is_dir_kind, Hk. reflexivity.
  - rewrite Hf. rewrite !is_file_kind. setoid_rewrite Hk. reflexivity.
Qed.

(** X11.  What makes the archive builder fail on a target that ends in [.zip],
    each time with the disk as it was: the directory of the target is there
    and is not a directory ([FileExistsError]); that directory is missing
    and so is the directory above it ([FileNotFoundError], or
    [NotADirectoryError] when a regular file stands in the way); the target
    is a directory ([IsADirectoryError]). *)
Theorem archive_builder_errors
    (root : Path) (target : string) (w : world) :
  let Z := locate w (Path_of target) in
  Str.endswith target ".zip" = true ->
  ((exists d, kind_at (disk w) (removelast Z) = Some (KFile d)) \/
   kind_at (disk w) (removelast Z) = Some KOther ->
   _create_zip_file root target w = (Raise FileExistsError, w)) /\
  (kind_at (disk w) (removelast Z) = None ->
   is_dir_at (disk w) (removelast (removelast Z)) = false ->
   exists e, (e = FileNotFoundError \/ e = NotADirectoryError) /\
     _create_zip_file root target w = (Raise e, w)) /\
  (is_dir_at (disk w) Z = true ->
   _create_zip_file root target w = (Raise IsADirectoryError, w)).
Proof.
  intros Z Hz.
  pose proof (create_zip_file_steps root target w Hz) as Hs. cbv zeta in Hs. fold Z in Hs.
  unfold mkdir_exist_ok in Hs. unfold kind_at, is_dir_at.
  split; [|split].
  - intros H.
    destruct (lookup_node (disk w) (removelast Z)) as [[d|es|]|];
      try exact Hs; cbn in H; destruct H as [[d' H]|H]; discriminate.
  - intros Hn Hg.
    destruct (lookup_node (disk w) (removelast Z)) as [c|]; [discriminate|].
    exists (unreachable (disk w) (removelast Z)). split.
    + unfold unreachable. destruct (blocked _ _); auto.
    + destruct (lookup_node (disk w) (removelast (removelast Z))) as [[d|es|]|];
        try exact Hs. discriminate.
  - intros Hd.
    assert (Hp : is_dir_at (disk w) (removelast Z) = true)
      by (eapply is_dir_prefix; [exact Hd|apply removelast_prefix]).
    unfold is_dir_at in Hp.
    destruct (lookup_node (disk w) (removelast Z)) as [[d|es|]|];
      try discriminate.
    rewrite Hs. unfold write_file. unfold is_dir_at in Hd.
    destruct (lookup_node (disk w) Z) as [[d|es'|]|]; try discriminate.
    reflexivity.
Qed.

(** ** A project of plain files *)

Lemma append_assoc (a b c : string) :
  String.append (String.append a b) c = String.append a (String.append b c).
Proof.
  induction a as [|x a IH]; [reflexivity|].
  change (String x (String.append (String.append a b) c)
          = String x (String.append a (String.append b c))).
  rewrite IH. reflexivity.
Qed.

Lemma endswith_app a b p :
  Str.endswith b p = true -> Str.endswith (String.append a b) p = true.
Proof.
  intros H. induction a as [|c a IH]; [exact H|].
  change (String.append (String c a) b) with (String c (String.append a b)).
  cbn [Str.endswith]. rewrite IH. apply orb_true_r.
Qed.

Lemma join_snoc sep l x :
  exists a, Str.join sep (l ++ [x]) = String.append a x.
Proof.
  induction l as [|y l IH].
  - exists EmptyString. reflexivity.
  - destruct IH as [a Ha]. cbn [app Str.join].
    destruct (l ++ [x]) as [|z l'] eqn:El.
    + destruct l; discriminate.
    + exists (String.append y (String.append sep a)). rewrite Ha.
      rewrite !append_assoc. reflexivity.
Qed.

Lemma archive_target_zip self :
  Str.endswith (archive_target self) ".zip" = true.
Proof.
  unfold archive_target.
  change (Path_of "dist/lambda.zip") with (mkPath false ["dist"; "lambda.zip"]).
  unfold joinpath. cbn [absolute parts].
  destruct (join_snoc "/" (parts (project_directory self) ++ ["dist"]) "lambda.zip")
    as [a Ha].
  rewrite <- app_assoc in Ha. cbn [app] in Ha.
  unfold str. cbn [absolute parts].
  destruct (absolute (project_directory self)).
  - rewrite Ha. apply endswith_app, endswith_app. reflexivity.
  - destruct (parts (project_directory self) ++ ["dist"; "lambda.zip"]) eqn:El.
    + destruct (parts (project_directory self)); discriminate.
    + rewrite Ha. apply endswith_app. reflexivity.
Qed.

Lemma locate_child c T n :
  locate_in c (joinpath T (mkPath false [n])) = locate_in c T ++ [n] /\
  locate_in c (parent (joinpath T (mkPath false [n]))) = locate_in c T.
Proof.
  unfold locate_in, parent, joinpath. cbn [absolute parts].
  rewrite removelast_last. destruct (absolute T); [auto|].
  rewrite app_assoc. auto.
Qed.

Lemma copy_object_plain self P T copied obj n w :
  is_dir_at (disk w) (locate w T) = true ->
  plain_file w P T obj n ->
  exists copied' w',
    copy_object self P T copied obj w = (Ok copied', w') /\
    cwd w' = cwd w /\
    (forall q, q <> locate w T ++ [n] ->
       kind_at (disk w') q = kind_at (disk w) q) /\
    (kind_at (disk w') (locate w T ++ [n]) = kind_at (disk w) (locate w T ++ [n]) \/
     exists d, kind_at (disk w') (locate w T ++ [n]) = Some (KFile d)) /\
    (ignore_hidden_files (config self) && _is_hidden_file n = false ->
     exists data,
       kind_at (disk w) (locate w obj) = Some (KFile data) /\
       kind_at (disk w') (locate w T ++ [n]) = Some (KFile data)).
Proof.
  intros Hdir (Hrel & Hfile & Hneq & Hdst).
  destruct (locate_child (cwd w) T n) as [Hchild Hparent].
  unfold copy_object. rewrite Hrel.
  unfold bind at 1. unfold is_file at 1. rewrite Hfile.
  unfold bind at 1. unfold log at 1, emit at 1.
  unfold bind at 1. unfold locate at 1. cbn [cwd disk].
  rewrite Hparent. unfold mkdir_exist_ok at 1. cbn [disk].
  unfold is_dir_at in Hdir. unfold locate in Hdir.
  destruct (lookup_node (disk w) (locate_in (cwd w) T)) as [[d|es|]|] eqn:ET;
    try discriminate.
  change (str (mkPath false [n])) with n.
  destruct (ignore_hidden_files (config self) && _is_hidden_file n).
  - unfold bind, ret, log, emit. cbn [disk cwd trace].
    eexists _, _. split; [reflexivity|]. cbn [disk cwd].
    split; [reflexivity|]. split; [reflexivity|]. split; [left; reflexivity|].
    discriminate.
  - unfold bind at 1. unfold copyfile, bind, ret. unfold locate. cbn [cwd].
    rewrite Hchild. unfold copyfile_at. cbn [disk].
    unfold locate in Hneq.
    destruct (decide (locate_in (cwd w) obj = locate_in (cwd w) T ++ [n]));
      [contradiction|].
    unfold is_file_at, locate in Hfile.
    destruct (lookup_node (disk w) (locate_in (cwd w) obj)) as [[data|es'|]|]
      eqn:Eobj; try discriminate.
    unfold locate in Hdst.
    assert (Hw : writable (disk w) (locate_in (cwd w) T ++ [n])).
    { unfold writable, kind_at in *.
      destruct (lookup_node (disk w) (locate_in (cwd w) T ++ [n])) as [c|] eqn:El.
      - right. destruct Hdst as [H|[d' H]]; [discriminate|].
        destruct c; try discriminate. eauto.
      - left. split; [reflexivity|]. rewrite removelast_last.
        unfold is_dir_at. rewrite ET. reflexivity. }
    assert (Hput : forall q,
              kind_at (put (disk w) (locate_in (cwd w) T ++ [n]) (File data)) q =
              if decide (q = locate_in (cwd w) T ++ [n])
              then Some (KFile data) else kind_at (disk w) q).
    { intros q. apply kind_at_put; [right; eauto|exact Hw]. }
    assert (Hwr : write_file (locate_in (cwd w) T ++ [n]) data
                    (mkWorld (disk w) (cwd w) (trace w ++
                       [Log DEBUG ("about to copy file from " ++ str obj ++ " --> "
                          ++ str (joinpath T (mkPath false [n])))]))
                  = (Ok tt, set_disk
                       (mkWorld (disk w) (cwd w) (trace w ++
                          [Log DEBUG ("about to copy file from " ++ str obj ++ " --> "
                             ++ str (joinpath T (mkPath false [n])))]))
                       (put (disk w) (locate_in (cwd w) T ++ [n]) (File data)))).
    { unfold write_file. cbn [disk]. unfold kind_at in Hdst.
      destruct (lookup_node (disk w) (locate_in (cwd w) T ++ [n])) as [[d'|es'|]|];
        try reflexivity.
      - destruct Hdst as [H|[d' H]]; discriminate.
      - destruct Hdst as [H|[d' H]]; discriminate.
      - rewrite removelast_last, ET. reflexivity. }
    rewrite Hwr.
    eexists _, _. split; [reflexivity|]. cbn [disk cwd set_disk].
    split; [reflexivity|]. unfold locate.
    split; [|split].
    + intros q Hq. rewrite Hput. destruct (decide _); [contradiction|reflexivity].
    + right. exists data. rewrite Hput. destruct (decide _); [reflexivity|contradiction].
    + intros _. exists data. split; [unfold kind_at; rewrite Eobj; reflexivity|].
      rewrite Hput.
      destruct (decide _); [reflexivity|contradiction].
Qed.

Lemma snoc_neq {A} (l : list A) (x : A) : l <> l ++ [x].
Proof.
  intros H. apply (f_equal (@List.length A)) in H.
  rewrite length_app in H. cbn in H. lia.
Qed.




(** ** What [copytree] brings *)

Lemma hidden_empty_suffix a :
  _is_hidden_file (String.append a "/") = _is_hidden_file a.
Proof.
  change "/" with (String.append "/" EmptyString).
  rewrite hidden_app_slash. apply orb_false_r.
Qed.

Lemma hidden_os_path_join a b :
  _is_hidden_file a = false -> _is_hidden_file b = false ->
  _is_hidden_file (os_path_join a b) = false.
Proof.
  intros Ha Hb. unfold os_path_join.
  destruct (Str.startswith b "/"); [exact Hb|].
  destruct (String.eqb a EmptyString) eqn:Ea.
  - apply String.eqb_eq in Ea. subst a. exact Hb.
  - cbn [orb]. destruct (Str.endswith a "/") eqn:Es.
    + pose proof (endswith_drop_last _ _ Es) as Hd.
      set (a' := Str.drop_last (String.length "/") a) in *.
      rewrite <- Hd. rewrite append_assoc.
      rewrite hidden_app_slash.
      rewrite <- Hd, hidden_empty_suffix in Ha. rewrite Ha, Hb. reflexivity.
    + rewrite hidden_app_slash, Ha, Hb. reflexivity.
Qed.

Lemma hidden_list_visible src files w r w1 :
  _is_hidden_file_list src files w = (r, w1) ->
  _is_hidden_file src = false ->
  exists l, r = Ok l /\
    forall n, _is_hidden_file n = false -> name_in n l = false.
Proof.
  unfold _is_hidden_file_list. intros H Hs. rewrite Hs in H.
  assert (Hf : forall n, _is_hidden_file n = false ->
            name_in n (List.filter _is_hidden_file files) = false).
  { intros n Hn. destruct (name_in n _) eqn:Ei; [|reflexivity].
    apply name_in_In, List.filter_In in Ei as [_ Ei]. congruence. }
  destruct (List.filter _is_hidden_file files) as [|y l].
  - injection H as <- <-. exists []. auto.
  - unfold bind, ret, log, emit in H. injection H as <- <-.
    exists (y :: l). auto.
Qed.

Lemma copytree_raises_errors h t src dst w errs w' :
  _copytree (callback h) t src dst w = (Raise (ShutilError errs), w') ->
  errs <> [].
Proof.
  destruct t as [d|es|]; try discriminate.
  cbn [_copytree].
  match goal with
  | |- (let '(_, _) := ?c in _) = _ -> _ => destruct c as [ig w1] eqn:Eig
  end.
  destruct ig as [l|e].
  - destruct (makedirs dst w1) as [[[]|e] w2] eqn:Em.
    + destruct (copy_entries _ l src dst es [] w2) as [[|e0 errors] w3];
        [discriminate|].
      intros [= <- <-]. discriminate.
    + intros [= -> <-]. apply makedirs_up_os_error in Em. discriminate.
  - destruct h; cbn in Eig.
    + destruct (hidden_list_spec anything _ _ _ _ _ Eig) as [_ (l & Hl & _)].
      discriminate.
    + discriminate.
Qed.

Lemma copy_entries_anything h ignored src dst l errors w errors' w' :
  copy_entries (_copytree (callback h)) ignored src dst l errors w = (errors', w') ->
  writes anything w w'.
Proof.
  intros Hc. eapply writes_anything.
  eapply (copy_entries_writes false); [| discriminate | exact Hc].
  apply Forall_forall. intros [n c] _ s d0 wx r wy Hr. cbn in Hr.
  destruct h.
  - eapply writes_weaken; [|eapply (copytree_writes true); exact Hr].
    intros q k [Hq|(x & Hx1 & Hx2 & _)]; [left; exact Hq|].
    right. exists x. split; [exact Hx1|]. split; [exact Hx2|]. discriminate.
  - eapply (copytree_writes false); exact Hr.
Qed.

Lemma copy_entry_writes h src dst name child w r w' :
  copy_entry h src dst name child w = (r, w') -> writes anything w w'.
Proof.
  destruct child as [data|es|]; cbn [copy_entry]; intros H.
  - eapply writes_anything, copy2_writes, H.
  - eapply writes_anything, copytree_writes, H.
  - injection H as <- <-. apply writes_refl.
Qed.

Lemma copy_entry_no_empty_error h src dst name child w w' :
  copy_entry h src dst name child w <> (Raise (ShutilError []), w').
Proof.
  destruct child as [data|es|]; cbn [copy_entry]; intros H.
  - unfold copy2 in H. apply write_file_os_error in H. discriminate.
  - apply copytree_raises_errors in H. congruence.
  - discriminate.
Qed.

Lemma copy_entries_complete h ignored src dst l :
  forall errors w w',
    copy_entries (_copytree (callback h)) ignored src dst l errors w = ([], w') ->
    errors = [] /\
    forall name child, In (name, child) l -> name_in name ignored = false ->
      exists wa wb,
        writes anything w wa /\
        copy_entry h src dst name child wa = (Ok tt, wb) /\
        writes anything wb w'.
Proof.
  induction l as [|[n0 c0] l IH]; intros errors w w' H.
  - cbn in H. injection H as -> <-. split; [reflexivity|]. intros ? ? [].
  - cbn [copy_entries] in H.
    destruct (name_in n0 ignored) eqn:Ei.
    + destruct (IH _ _ _ H) as [He Hall]. split; [exact He|].
      intros name child [[= <- <-]|Hin] Hvis; [congruence|]. eauto.
    + match type of H with
      | (let '(_, _) := ?c in _) = _ =>
          replace c with (copy_entry h src dst n0 c0 w) in H
            by (destruct c0; reflexivity)
      end.
      destruct (copy_entry h src dst n0 c0 w) as [r w1] eqn:E1.
      pose proof (copy_entry_writes _ _ _ _ _ _ _ _ E1) as H01.
      destruct r as [[]|e].
      * destruct (IH _ _ _ H) as [He Hall]. split; [exact He|].
        intros name child [[= <- <-]|Hin] Hvis.
        -- exists w, w1. split; [apply writes_refl|]. split; [exact E1|].
           eapply copy_entries_anything, H.
        -- destruct (Hall _ _ Hin Hvis) as (wa & wb & Ha & Hs & Hb).
           exists wa, wb. split; [eapply writes_trans; eassumption|]. auto.
      * exfalso.
        assert (Hbad : forall more, e = ShutilError more -> more <> []).
        { intros more ->. intros ->.
          exact (copy_entry_no_empty_error _ _ _ _ _ _ _ E1). }
        destruct e;
          try (destruct (IH _ _ _ H) as [He _];
               apply app_eq_nil in He as [_ He]; discriminate).
        destruct (IH _ _ _ H) as [He _].
        apply app_eq_nil in He as [_ He]. exact (Hbad _ eq_refl He).
Qed.

Lemma copytree_complete h t :
  forall src dst w w',
    _copytree (callback h) t src dst w = (Ok tt, w') ->
    (h = true -> _is_hidden_file src = false) ->
    forall x c, x <> [] -> lookup_node t x = Some c ->
      (h = true -> Forall (fun n => _is_hidden_file n = false) x) ->
      match c with
      | Dir _ => is_dir_at (disk w') (dst ++ x) = true
      | File _ =>
          is_file_at (disk w') (dst ++ x) = true \/
          is_file_at (disk w') (dst ++ x ++ [List.last x EmptyString]) = true
      | Other => False
      end.
Proof.
  induction t as [d| |es IH] using node_ind_nested;
    intros src dst w w' H Hsrc x c Hx Hl Hvis; try discriminate.
  destruct x as [|name x]; [congruence|]. clear Hx.
  cbn [lookup_node] in Hl.
  destruct (assoc name es) as [c0|] eqn:Ea; [|discriminate].
  apply assoc_In in Ea.
  assert (Hname : h = true -> _is_hidden_file name = false).
  { intros Ht. specialize (Hvis Ht). inversion Hvis; assumption. }
  assert (Hrest : h = true -> Forall (fun n => _is_hidden_file n = false) x).
  { intros Ht. specialize (Hvis Ht). inversion Hvis; assumption. }
  cbn [_copytree] in H.
  match type of H with
  | (let '(_, _) := ?c in _) = _ => destruct c as [ig w1] eqn:Eig
  end.
  assert (exists l, ig = Ok l /\ name_in name l = false) as (l & -> & Hl0).
  { destruct h; cbn in Eig.
    - destruct (hidden_list_visible _ _ _ _ _ Eig (Hsrc eq_refl)) as (l & -> & Hv).
      exists l. split; [reflexivity|]. apply Hv, Hname. reflexivity.
    - injection Eig as <- <-. exists []. split; reflexivity. }
  destruct (makedirs dst w1) as [[[]|e] w2] eqn:Em; [|discriminate].
  destruct (copy_entries (_copytree (callback h)) l src dst es [] w2)
    as [errs w3] eqn:Ec.
  destruct errs; [|discriminate]. injection H as <-.
  destruct (copy_entries_complete _ _ _ _ _ _ _ _ Ec) as [_ Hall].
  destruct (Hall _ _ Ea Hl0) as (wa & wb & _ & Hstep & Hb).
  destruct x as [|m x].
  - cbn in Hl. injection Hl as <-. cbn [app List.last].
    destruct c0 as [data|es0|]; cbn [copy_entry] in Hstep.
    + unfold copy2 in Hstep. apply write_file_ok in Hstep.
      destruct (is_dir_at (disk wa) (dst ++ [name])).
      * right.
        replace (dst ++ [name; name]) with ((dst ++ [name]) ++ [name])
          by (rewrite <- app_assoc; reflexivity).
        eapply writes_file; [exact Hb|]. apply is_file_kind. eauto.
      * left. eapply writes_file; [exact Hb|]. apply is_file_kind. eauto.
    + eapply writes_dir; [exact Hb|]. eapply copytree_ok_dir, Hstep.
    + discriminate.
  - destruct c0 as [data|es0|]; try discriminate.
    cbn [copy_entry] in Hstep.
    rewrite List.Forall_forall in IH. specialize (IH _ Ea). cbn in IH.
    assert (Hs' : h = true -> _is_hidden_file (os_path_join src name) = false).
    { intros Ht. apply hidden_os_path_join; auto. }
    specialize (IH _ _ _ _ Hstep Hs' (m :: x) c ltac:(discriminate) Hl Hrest).
    replace (dst ++ name :: m :: x) with ((dst ++ [name]) ++ m :: x)
      by (rewrite <- app_assoc; reflexivity).
    replace (dst ++ (name :: m :: x) ++ [List.last (name :: m :: x) EmptyString])
      with ((dst ++ [name]) ++ (m :: x) ++ [List.last (m :: x) EmptyString])
      by (rewrite <- !app_assoc; reflexivity).
    destruct c as [data|es1|].
    + destruct IH as [IH|IH]; [left|right]; eapply writes_file; eassumption.
    + eapply writes_dir; eassumption.
    + exact IH.
Qed.

Lemma copy_object_directory_run self P T copied obj rel w r w' :
  relative_to obj P = Some rel ->
  is_dir_at (disk w) (locate w obj) = true ->
  copy_object self P T copied obj w = (Ok r, w') ->
  exists t w1,
    lookup_node (disk w) (locate w obj) = Some t /\
    _copytree (callback (ignore_hidden_files (config self))) t (str obj)
      (locate w (joinpath T rel)) w1 = (Ok tt, w').
Proof.
  intros Hrel Hd. unfold copy_object. rewrite Hrel.
  assert (Hf : is_file_at (disk w) (locate w obj) = false).
  { unfold is_dir_at in Hd. unfold is_file_at.
    destruct (lookup_node (disk w) (locate w obj)) as [[| |]|];
      try discriminate; reflexivity. }
  unfold bind at 1. unfold is_file at 1. rewrite Hf.
  unfold bind at 1. unfold is_dir at 1. rewrite Hd.
  unfold bind at 1. unfold log at 1, emit at 1.
  unfold bind at 1. unfold copytree. cbn [disk cwd locate].
  unfold locate. cbn [cwd disk].
  destruct (lookup_node (disk w) (locate_in (cwd w) obj)) as [t|];
    [|discriminate].
  unfold bind, ret.
  match goal with
  | |- context [_copytree _ t ?s ?d ?w1] =>
      destruct (_copytree _ t s d w1) as [[[]|e] w2] eqn:Ect
  end; [|discriminate].
  intros [= <- <-]. eexists t, _. split; [reflexivity|]. exact Ect.
Qed.

(** X13.  When the copier completes, what lies inside a matched directory is
    in the staging directory under the same relative path: a directory as a
    directory, a regular file as a regular file (inside the directory that
    stood at its destination, if one did).  With the hidden-file filter on,
    this holds for the entries reached through names that are not hidden,
    provided the path of the matched directory, as the collector gave it,
    is not hidden. *)
Theorem matched_directory_contents_are_staged
    (E : collaborators) (self : LambdaAutoPackage) (P T : Path)
    (w w2 : world) (obj rel : Path) (x : list string) :
  let dst := locate w (joinpath T rel) in
  In obj (matched E self P w) ->
  relative_to obj P = Some rel ->
  is_dir_at (disk w) (locate w obj) = true ->
  x <> [] ->
  (ignore_hidden_files (config self) = true ->
   _is_hidden_file (str obj) = false /\
   Forall (fun n => _is_hidden_file n = false) x) ->
  _copy_source_files E self P T w = (Ok tt, w2) ->
  (is_dir_at (disk w) (locate w obj ++ x) = true ->
   is_dir_at (disk w2) (dst ++ x) = true) /\
  (is_file_at (disk w) (locate w obj ++ x) = true ->
   is_file_at (disk w2) (dst ++ x) = true \/
   is_file_at (disk w2) (dst ++ x ++ [List.last x EmptyString]) = true).
Proof.
  intros dst Hin Hrel Hdir Hx Hvis Hcopy.
  destruct (copy_source_files_ok _ _ _ _ _ _ Hcopy)
    as (w0 & copied & w3 & H0 & Hfe & H3).
  destruct (for_each_ok_step _ _ _ _ _ _ _ _ Hfe obj Hin)
    as (c1 & wa & c2 & wb & Ha & Hs & Hb).
  assert (H0a : writes anything w wa) by (eapply writes_trans; eassumption).
  assert (Hca : cwd wa = cwd w) by (eapply writes_cwd, H0a).
  assert (Hloc : forall p, locate wa p = locate w p)
    by (intros p; unfold locate; rewrite Hca; reflexivity).
  assert (Hda : is_dir_at (disk wa) (locate wa obj) = true).
  { rewrite Hloc. eapply writes_dir; [exact H0a|exact Hdir]. }
  destruct (copy_object_directory_run _ _ _ _ _ _ _ _ _ Hrel Hda Hs)
    as (t & w1 & Ht & Hrun).
  rewrite !Hloc in Ht, Hrun. fold dst in Hrun.
  assert (Hb2 : writes anything wb w2) by (eapply writes_trans; eassumption).
  assert (Hlook : forall c, lookup_node (disk wa) (locate w obj ++ x) = Some c ->
            match c with
            | Dir _ => is_dir_at (disk wb) (dst ++ x) = true
            | File _ =>
                is_file_at (disk wb) (dst ++ x) = true \/
                is_file_at (disk wb) (dst ++ x ++ [List.last x EmptyString]) = true
            | Other => False
            end).
  { intros c Hc. rewrite (lookup_app _ _ x _ Ht) in Hc.
    eapply (copytree_complete _ _ _ _ _ _ Hrun); [| exact Hx | exact Hc |].
    - intros Hh. apply (Hvis Hh).
    - intros Hh. apply (Hvis Hh). }
  split.
  - intros Hd. pose proof (writes_dir _ _ _ H0a Hd) as Hd'.
    unfold is_dir_at in Hd'.
    destruct (lookup_node (disk wa) (locate w obj ++ x)) as [[d|es|]|] eqn:El;
      try discriminate.
    eapply writes_dir; [exact Hb2|]. exact (Hlook _ eq_refl).
  - intros Hf. pose proof (writes_file _ _ _ H0a Hf) as Hf'.
    unfold is_file_at in Hf'.
    destruct (lookup_node (disk wa) (locate w obj ++ x)) as [[d|es|]|] eqn:El;
      try discriminate.
    destruct (Hlook _ eq_refl) as [H|H]; [left|right];
      (eapply writes_file; [exact Hb2|exact H]).
Qed.

(** X14.  The configuration falls back to the defaults, or fails.  A project
    file that is missing, that has no [tool] entry, or whose [tool] table has
    no [lambda_packager] entry, is configured as [Config()] is, with a
    warning and the disk untouched.  A [tool] entry that is not a table is
    not such a fallback: [TypeError] is raised, as it is for an entry
    [tool.lambda_packager] that is not a table.  A table
    [tool.lambda_packager] is handed to [Config] as it is. *)
Theorem config_falls_back_to_defaults
    (L : config_collaborators) (file : Path) (w : world) :
  let warned msg := mkWorld (disk w) (cwd w) (trace w ++ [Log WARNING msg]) in
  (is_file_at (disk w) (locate w file) = false ->
   _get_config L file w = (Config_init L [], warned "no config file found!")) /\
  forall config,
    is_file_at (disk w) (locate w file) = true ->
    toml_loads_text L file w = inr config ->
    (dict_get "tool" config = None \/
     (exists tool, dict_get "tool" config = Some (TomlTable tool) /\
                   dict_get "lambda_packager" tool = None) ->
     _get_config L file w = (Config_init L [], warned "no config found!")) /\
    (forall v, dict_get "tool" config = Some v -> is_table v = false ->
       _get_config L file w = (inl TypeError, w)) /\
    (forall tool v,
       dict_get "tool" config = Some (TomlTable tool) ->
       dict_get "lambda_packager" tool = Some v ->
       _get_config L file w =
       (match v with
        | TomlTable section => Config_init L section
        | _ => inl TypeError
        end, w)).
Proof.
  intros warned. split.
  - intros Hf. unfold _get_config. rewrite Hf. reflexivity.
  - intros config Hf Hload. unfold _get_config, _read_config.
    rewrite Hf, Hload. cbn [negb getitem].
    split; [|split].
    + intros [Hn|(tool & Ht & Hn)].
      * rewrite Hn. reflexivity.
      * rewrite Ht. cbn [getitem]. rewrite Hn. reflexivity.
    + intros v Hv Htab. rewrite Hv. destruct v; try discriminate; reflexivity.
    + intros tool v Ht Hv. rewrite Ht. cbn [getitem]. rewrite Hv.
      destruct v; reflexivity.
Qed.

(** ** Plain files are copied verbatim *)

Lemma relative_to_inj obj obj' P rel :
  relative_to obj P = Some rel -> relative_to obj' P = Some rel -> obj = obj'.
Proof.
  intros H H'.
  destruct (relative_to_parts _ _ _ H) as [_ Hp].
  destruct (relative_to_parts _ _ _ H') as [_ Hp'].
  unfold relative_to in H, H'.
  destruct (Bool.eqb (absolute obj) (absolute P)) eqn:Ea; [|discriminate].
  destruct (Bool.eqb (absolute obj') (absolute P)) eqn:Ea'; [|discriminate].
  apply Bool.eqb_prop in Ea, Ea'.
  destruct obj as [a p], obj' as [a' p']. cbn in *. congruence.
Qed.

Lemma for_each_plain_data self P T objs :
  forall copied w,
    is_dir_at (disk w) (locate w T) = true ->
    Forall (fun obj => (exists n, plain_file w P T obj n) /\
                       ~ locate w T `prefix_of` locate w obj) objs ->
    exists copied' w',
      for_each (copy_object self P T) objs copied w = (Ok copied', w') /\
      cwd w' = cwd w /\
      (forall q, kind_at (disk w') q = kind_at (disk w) q \/
         exists obj n, In obj objs /\
           relative_to obj P = Some (mkPath false [n]) /\
           q = locate w T ++ [n]) /\
      (forall obj n data, In obj objs ->
         relative_to obj P = Some (mkPath false [n]) ->
         ignore_hidden_files (config self) && _is_hidden_file n = false ->
         kind_at (disk w) (locate w obj) = Some (KFile data) ->
         kind_at (disk w') (locate w T ++ [n]) = Some (KFile data)).
Proof.
  induction objs as [|obj objs IH]; intros copied w Hdir Hall.
  - exists copied, w. split; [reflexivity|]. split; [reflexivity|].
    split; [auto|]. intros obj n data [].
  - apply Forall_cons in Hall as [[[n Hobj] Hout] Hall].
    destruct (copy_object_plain self P T copied obj n w Hdir Hobj)
      as (c1 & w1 & Hrun & Hc & Hframe & Hdst & Hfile).
    assert (Hloc : forall p, locate w1 p = locate w p)
      by (intros p; unfold locate; rewrite Hc; reflexivity).
    assert (Hsame : forall q, ~ locate w T `prefix_of` q ->
              kind_at (disk w1) q = kind_at (disk w) q).
    { intros q Hq. apply Hframe. intros ->. apply Hq.
      apply prefix_app_r. reflexivity. }
    assert (Hdir1 : is_dir_at (disk w1) (locate w1 T) = true).
    { rewrite Hloc. apply is_dir_kind. rewrite Hframe by apply snoc_neq.
      apply is_dir_kind, Hdir. }
    assert (Hkeep : forall q,
              (kind_at (disk w) q = None \/ exists d, kind_at (disk w) q = Some (KFile d)) ->
              kind_at (disk w1) q = None \/ exists d, kind_at (disk w1) q = Some (KFile d)).
    { intros q Hq. destruct (decide (q = locate w T ++ [n])) as [->|Hne].
      - destruct Hdst as [He|Hf]; [rewrite He; exact Hq|right; exact Hf].
      - rewrite (Hframe q Hne). exact Hq. }
    assert (Hall1 : Forall (fun obj => (exists n, plain_file w1 P T obj n) /\
                                       ~ locate w1 T `prefix_of` locate w1 obj) objs).
    { eapply Forall_impl; [exact Hall|]. cbn.
      intros o [[m (Hrel & Hf & Hneq & Hd)] Ho]. rewrite !Hloc.
      split; [|exact Ho]. exists m. unfold plain_file.
      rewrite !Hloc. split; [exact Hrel|]. split.
      - apply is_file_kind. rewrite (Hsame _ Ho). apply is_file_kind, Hf.
      - split; [exact Hneq|]. apply Hkeep, Hd. }
    destruct (IH c1 w1 Hdir1 Hall1) as (c2 & w2 & Hrest & Hc2 & Hframe2 & Hdata2).
    assert (Hdata_tail : forall o m data, In o objs ->
              relative_to o P = Some (mkPath false [m]) ->
              ignore_hidden_files (config self) && _is_hidden_file m = false ->
              kind_at (disk w) (locate w o) = Some (KFile data) ->
              kind_at (disk w2) (locate w T ++ [m]) = Some (KFile data)).
    { intros o m data Hin Hrel Hvis Hk. rewrite <- Hloc.
      eapply Hdata2; try eassumption. rewrite Hloc.
      rewrite List.Forall_forall in Hall. destruct (Hall o Hin) as [_ Ho].
      rewrite (Hsame _ Ho). exact Hk. }
    exists c2, w2. split; [|split; [|split]].
    + cbn [for_each]. unfold bind at 1. rewrite Hrun. exact Hrest.
    + congruence.
    + intros q. destruct (Hframe2 q) as [He|(o & m & Hin & Hrel & Hq)].
      * destruct (decide (q = locate w T ++ [n])) as [->|Hne].
        -- right. exists obj, n. split; [left; reflexivity|].
           split; [apply Hobj|reflexivity].
        -- left. rewrite He. apply Hframe, Hne.
      * right. exists o, m. rewrite Hloc in Hq. split; [right; exact Hin|]. auto.
    + intros o m data [<-|Hin] Hrel Hvis Hk; [|eapply Hdata_tail; eassumption].
      destruct Hobj as (Hrel' & _). rewrite Hrel' in Hrel. injection Hrel as <-.
      destruct (Hfile Hvis) as (data' & Hk' & Hk1).
      assert (data' = data) as -> by congruence.
      destruct (Hframe2 (locate w T ++ [n])) as [He|(o & m & Hin & Hrel & Hq)].
      * rewrite He. exact Hk1.
      * rewrite Hloc in Hq. apply app_inj_tail in Hq as [_ <-].
        rewrite (relative_to_inj _ _ _ _ Hrel Hrel') in Hin.
        eapply Hdata_tail; eassumption.
Qed.

(** X15.  Plain files are copied verbatim.  If the staging directory is there
    and every matched object is a regular file directly under the source
    directory, lying outside the staging directory, whose destination is
    free or a regular file, then the copier completes, and every matched
    file that the hidden-file filter does not skip is in the staging
    directory under its name with the bytes it has in the project: a file
    that was at the destination is replaced.  Nothing outside the staging
    directory has changed. *)
Theorem plain_files_are_copied_verbatim
    (E : collaborators) (self : LambdaAutoPackage) (P T : Path) (w : world) :
  is_dir_at (disk w) (locate w T) = true ->
  (forall obj, In obj (matched E self P w) ->
     (exists n, plain_file w P T obj n) /\
     ~ locate w T `prefix_of` locate w obj) ->
  exists w',
    _copy_source_files E self P T w = (Ok tt, w') /\
    (forall obj n data,
       In obj (matched E self P w) ->
       relative_to obj P = Some (mkPath false [n]) ->
       ignore_hidden_files (config self) && _is_hidden_file n = false ->
       kind_at (disk w) (locate w obj) = Some (KFile data) ->
       kind_at (disk w') (locate w T ++ [n]) = Some (KFile data)) /\
    (forall q, ~ locate w T `prefix_of` q ->
       kind_at (disk w') q = kind_at (disk w) q).
Proof.
  intros Hstage. 
  unfold _copy_source_files, matched, _get_matching_files_and_folders.
  unfold bind at 1.
  set (objs := iteration_order E _). intros Hplain.
  unfold bind at 1. unfold log at 1, emit at 1.
  unfold bind at 1. unfold log at 1, emit at 1.
  set (w0 := mkWorld _ _ (_ ++ [Log DEBUG _])).
  destruct (for_each_plain_data self P T objs [] w0)
    as (copied & w3 & Hfe & Hc & Hk & Hdata).
  - exact Hstage.
  - apply Forall_forall. intros obj Hin. apply Hplain.
    apply list_elem_of_In, Hin.
  - unfold bind at 1. rewrite Hfe. unfold log, emit.
    eexists. split; [reflexivity|]. cbn [disk cwd].
    split; [exact Hdata|].
    intros q Hq. destruct (Hk q) as [He|(o & m & _ & _ & ->)]; [exact He|].
    exfalso. apply Hq. apply prefix_app_r. reflexivity.
Qed.

Lemma plain_files_are_copied_verbatim_witness :
  let E := finds [relative ["six.py"]] false in
  let self := packager ["*.py"] true in
  exists w',
    _copy_source_files E self (project_directory self) (tmp_folder self)
      with_name_clash = (Ok tt, w') /\
    kind_at (disk w') ["tmp"; "stage"; "six.py"] = Some (KFile (Bytes "mine")).
Proof.
  intros E self.
  destruct (plain_files_are_copied_verbatim E self (project_directory self)
              (tmp_folder self) with_name_clash) as (w' & Hrun & Hdata & _).
  - reflexivity.
  - intros obj Hin. vm_compute in Hin. destruct Hin as [<-|[]].
    split.
    + exists "six.py". split; [reflexivity|]. split; [reflexivity|].
      split; [discriminate|]. right. exists (Bytes "theirs"). reflexivity.
    + intros [k Hk]. discriminate Hk.
  - exists w'. split; [exact Hrun|].
    apply (Hdata (relative ["six.py"]) "six.py" (Bytes "mine")).
    + vm_compute. left. reflexivity.
    + reflexivity.
    + reflexivity.
    + reflexivity.
Defined.

(** ** A project directory with a hidden segment *)

Lemma hidden_join_existsb l :
  l <> [] -> _is_hidden_file (Str.join "/" l) = existsb _is_hidden_file l.
Proof.
  induction l as [|x l IH]; [congruence|]. intros _.
  destruct l as [|y l].
  - cbn. rewrite orb_false_r. reflexivity.
  - change (Str.join "/" (x :: y :: l))
      with (String.append x (String.append "/" (Str.join "/" (y :: l)))).
    rewrite hidden_app_slash, IH by discriminate. reflexivity.
Qed.

Lemma hidden_str_parts p :
  existsb _is_hidden_file (parts p) = true -> _is_hidden_file (str p) = true.
Proof.
  intros H. assert (Hne : parts p <> []) by (intros He; rewrite He in H; discriminate).
  unfold str. destruct (absolute p).
  - change (String.append "/" (Str.join "/" (parts p)))
      with (String.append EmptyString (String.append "/" (Str.join "/" (parts p)))).
    rewrite hidden_app_slash, hidden_join_existsb by exact Hne.
    rewrite H. reflexivity.
  - destruct (parts p) eqn:Ep; [congruence|].
    rewrite <- Ep in *. rewrite hidden_join_existsb by exact Hne. exact H.
Qed.

(** X16.  With the hidden-file filter on and a project directory whose path has
    a hidden segment ([..] is one), nothing inside a matched directory is
    copied: whatever the outcome, a regular file that is on the disk after
    the copier was there before with the same bytes, or is the destination
    of a matched object itself. *)
Theorem hidden_project_path_hides_directory_contents
    (E : collaborators) (self : LambdaAutoPackage) (P T : Path) (w : world)
    (q : location) (d : filedata) :
  ignore_hidden_files (config self) = true ->
  existsb _is_hidden_file (parts P) = true ->
  kind_at (disk (snd (_copy_source_files E self P T w))) q = Some (KFile d) ->
  kind_at (disk w) q = Some (KFile d) \/
  exists obj rel,
    In obj (matched E self P w) /\ relative_to obj P = Some rel /\
    q = locate w (joinpath T rel).
Proof.
  intros Hh HP.
  destruct (_copy_source_files E self P T w) as [r w'] eqn:Ec. cbn [snd].
  intros Hk.
  pose proof (copy_source_files_writes _ _ _ _ _ _ _ Ec) as Hw.
  destruct (writes_kind _ _ _ _ Hw Hk) as [Hb|(obj & Hin & rel & Hrel & Hq)];
    [left; exact Hb|].
  right. exists obj, rel. split; [exact Hin|]. split; [exact Hrel|].
  destruct Hq as [[Hd _]|[(-> & _)|(x & _ & _ & Hvis)]].
  - discriminate.
  - reflexivity.
  - exfalso. rewrite Hh in Hvis. destruct (Hvis eq_refl) as [Hobj _].
    destruct (relative_to_parts _ _ _ Hrel) as [_ Hparts].
    rewrite hidden_str_parts in Hobj; [discriminate|].
    rewrite Hparts, existsb_app, HP. reflexivity.
Qed.

Lemma hidden_project_path_hides_directory_contents_witness :
  let P := mkPath true ["home"; ".cache"; "proj"] in
  let self := mkPackage P (mkConfig ["src"] true) (mkPath true ["tmp"; "stage"]) in
  let E := finds [joinpath P (relative ["src"])] false in
  kind_at (disk (snd (_copy_source_files E self P (tmp_folder self)
                        under_hidden_directory)))
    ["tmp"; "stage"; "src"; "a.py"] = None.
Proof.
  intros P self E.
  destruct (kind_at (disk (snd (_copy_source_files E self P (tmp_folder self)
                                  under_hidden_directory)))
              ["tmp"; "stage"; "src"; "a.py"]) as [[d| |]|] eqn:Ek;
    [|vm_compute in Ek; discriminate Ek..|reflexivity].
  destruct (hidden_project_path_hides_directory_contents E self P (tmp_folder self)
              under_hidden_directory ["tmp"; "stage"; "src"; "a.py"] d
              eq_refl eq_refl Ek) as [Hb|(obj & rel & Hin & Hrel & Hq)].
  - discriminate Hb.
  - vm_compute in Hin. destruct Hin as [<-|[]].
    vm_compute in Hrel. injection Hrel as <-. discriminate Hq.
Defined.

Lemma hidden_file_list_only_logs_witness :
  exists w',
    _is_hidden_file_list "src" ["a.py"; ".env"; "b.py"] handler_only
    = (Ok [".env"], w') /\ disk w' = disk handler_only.
Proof.
  destruct (hidden_file_list_only_logs "src" ["a.py"; ".env"; "b.py"] handler_only)
    as (skipped & w' & Hrun & Hd & _ & _ & Hsub & Hall & Honly & _).
  exists w'. split; [|exact Hd].
  vm_compute in Hrun. injection Hrun as <- <-. reflexivity.
Defined.

Lemma copier_keeps_what_is_staged_witness :
  let E := finds [relative ["handler.py"]; relative [".env.py"]] false in
  let self := packager ["*.py"] true in
  let w' := snd (_copy_source_files E self (project_directory self)
                   (tmp_folder self) with_installed_package) in
  is_file_at (disk w') ["tmp"; "stage"; "foo"; ".libs"] = true /\
  is_dir_at (disk w') ["tmp"; "stage"; "foo"] = true.
Proof.
  intros E self w'.
  destruct (copier_keeps_what_is_staged E self (project_directory self)
              (tmp_folder self) with_installed_package)
    as (Hdirs & Hfiles & _).
  split.
  - apply Hfiles. reflexivity.
  - apply Hdirs. reflexivity.
Defined.

Lemma copier_writes_only_staging_witness :
  let E := finds [relative ["handler.py"]; relative ["pkg"]] false in
  let self := packager ["*.py"; "pkg"] true in
  kind_at (disk (snd (_copy_source_files E self (project_directory self)
                        (tmp_folder self) with_package)))
    ["proj"; "pkg"; ".cache"; "x.py"]
  = Some (KFile (Bytes "pass")).
Proof.
  intros E self.
  rewrite (copier_writes_only_staging E self (project_directory self)
             (tmp_folder self) with_package ["proj"; "pkg"; ".cache"; "x.py"]).
  - reflexivity.
  - reflexivity.
  - intros obj rel Hin Hrel. vm_compute in Hin.
    destruct Hin as [<-|[<-|[]]]; vm_compute in Hrel; injection Hrel as <-;
      cbn; intros H; repeat (destruct H as [H|H]; [discriminate H|]); exact H.
  - cbn. intros H; repeat (destruct H as [H|H]; [discriminate H|]); exact H.
  - cbn. intros H; repeat (destruct H as [H|H]; [discriminate H|]); exact H.
  - intros [k Hk]. discriminate Hk.
Defined.

Lemma matched_file_is_staged_witness :
  let E := finds [relative ["handler.py"]; relative ["pkg"]] false in
  let self := packager ["*.py"; "pkg"] true in
  is_file_at
    (disk (snd (_copy_source_files E self (project_directory self)
                  (tmp_folder self) with_package)))
    ["tmp"; "stage"; "handler.py"] = true.
Proof.
  intros E self.
  apply (matched_file_is_staged E self (project_directory self) (tmp_folder self)
           with_package _ (relative ["handler.py"]) (relative ["handler.py"])).
  - left. reflexivity.
  - reflexivity.
  - reflexivity.
  - reflexivity.
  - vm_compute. reflexivity.
Defined.

Lemma matched_directory_is_staged_witness :
  let E := finds [relative [".git"]] false in
  let self := packager [".git"] true in
  let w := machine [(".git", Dir [("config", py)])] in
  let w2 := snd (_copy_source_files E self (project_directory self)
                   (tmp_folder self) w) in
  is_dir_at (disk w2) ["tmp"; "stage"; ".git"] = true.
Proof.
  intros E self w w2.
  apply (matched_directory_is_staged E self (project_directory self)
           (tmp_folder self) w w2 (relative [".git"]) (relative [".git"])).
  - left. reflexivity.
  - reflexivity.
  - reflexivity.
  - vm_compute. reflexivity.
Defined.

Lemma poetry_export_is_installed_without_deps_witness :
  tools (snd (execute (exporting [relative ["handler.py"]])
                (packager ["*.py"] true) poetry_only)) =
  [ExportPoetry (mkPath true ["tmp"; "stage"; "requirements.txt"]) (mkPath false []);
   Subprocess ["python3"; "-m"; "pip"; "install"; "-r";
               "/tmp/stage/requirements.txt"; "--target"; "/tmp/stage";
               "--no-deps"]].
Proof.
  apply (poetry_export_is_installed_without_deps
           (exporting [relative ["handler.py"]]) (packager ["*.py"] true)
           poetry_only); reflexivity.
Defined.

Lemma failed_dependency_stage_stops_the_run_witness :
  fst (execute (failing [relative ["handler.py"]] true) (packager ["*.py"] true)
         with_requirements) = Raise CalledProcessError /\
  fst (execute (failing [relative ["handler.py"]] true) (packager ["*.py"] true)
         poetry_only) = Raise ExportError.
Proof.
  split.
  - rewrite (proj1 (failed_dependency_stage_stops_the_run
                      (failing [relative ["handler.py"]] true)
                      (packager ["*.py"] true) with_requirements));
      reflexivity.
  - rewrite (proj2 (failed_dependency_stage_stops_the_run
                      (failing [relative ["handler.py"]] true)
                      (packager ["*.py"] true) poetry_only) ExportError);
      reflexivity.
Defined.

Lemma archive_builder_writes_only_target_witness :
  kind_at (disk (snd (_create_zip_file (mkPath true ["tmp"; "stage"])
                        "dist/lambda.zip" handler_only)))
    ["proj"; "src"; "handler.py"] = Some (KFile (Bytes "pass")).
Proof.
  rewrite (archive_builder_writes_only_target (mkPath true ["tmp"; "stage"])
             "dist/lambda.zip" handler_only ["proj"; "src"; "handler.py"]).
  - reflexivity.
  - discriminate.
  - discriminate.
Defined.

Lemma archive_lists_the_staging_tree_witness :
  exists ms,
    kind_at (disk (snd (_create_zip_file (mkPath true ["tmp"; "stage"])
                          "dist/lambda.zip" with_installed_package)))
      ["proj"; "dist"; "lambda.zip"] = Some (KFile (ZipArchive ms)) /\
    In (["foo"], true) ms /\ In (["foo"; ".libs"], false) ms /\
    ~ In (["handler.py"], false) ms.
Proof.
  destruct (archive_lists_the_staging_tree (mkPath true ["tmp"; "stage"])
              "dist/lambda.zip" with_installed_package
              (snd (_create_zip_file (mkPath true ["tmp"; "stage"])
                      "dist/lambda.zip" with_installed_package)))
    as (ms & Hk & Hms).
  - reflexivity.
  - reflexivity.
  - reflexivity.
  - intros [k Hk]. discriminate Hk.
  - exists ms. split; [exact Hk|]. split; [|split].
    + apply (proj1 (Hms ["foo"])). split; [discriminate|reflexivity].
    + apply (proj2 (Hms ["foo"; ".libs"])). split; [discriminate|reflexivity].
    + intros Hin. apply (proj2 (Hms ["handler.py"])) in Hin as [_ Hf].
      discriminate Hf.
Defined.

Lemma archive_builder_errors_witness :
  _create_zip_file (mkPath true ["tmp"; "stage"]) "handler.py/lambda.zip"
    (machine [("handler.py", py)])
  = (Raise FileExistsError, machine [("handler.py", py)]) /\
  (exists e,
     (e = FileNotFoundError \/ e = NotADirectoryError) /\
     _create_zip_file (mkPath true ["tmp"; "stage"]) "out/dist/lambda.zip"
       (machine [("handler.py", py)])
     = (Raise e, machine [("handler.py", py)])) /\
  _create_zip_file (mkPath true ["tmp"; "stage"]) "/proj/src.zip"
    (machine [("src.zip", Dir [])])
  = (Raise IsADirectoryError, machine [("src.zip", Dir [])]).
Proof.
  split; [|split].
  - apply (proj1 (archive_builder_errors (mkPath true ["tmp"; "stage"])
                    "handler.py/lambda.zip" (machine [("handler.py", py)])
                    eq_refl)).
    left. exists (Bytes "pass"). reflexivity.
  - apply (proj1 (proj2 (archive_builder_errors (mkPath true ["tmp"; "stage"])
                    "out/dist/lambda.zip" (machine [("handler.py", py)])
                    eq_refl))); reflexivity.
  - apply (proj2 (proj2 (archive_builder_errors (mkPath true ["tmp"; "stage"])
                    "/proj/src.zip" (machine [("src.zip", Dir [])])
                    eq_refl))).
    reflexivity.
Defined.


Lemma matched_directory_contents_are_staged_witness :
  let E := finds [relative ["pkg"]] false in
  let self := packager ["pkg"] true in
  let w2 := snd (_copy_source_files E self (project_directory self)
                   (tmp_folder self) with_package) in
  is_dir_at (disk w2) ["tmp"; "stage"; "pkg"; "sub"] = true /\
  is_file_at (disk w2) ["tmp"; "stage"; "pkg"; "sub"; "deep.py"] = true.
Proof.
  intros E self w2.
  split.
  - apply (matched_directory_contents_are_staged E self (project_directory self)
             (tmp_folder self) with_package w2 (relative ["pkg"]) (relative ["pkg"])
             ["sub"]).
    + left. reflexivity.
    + reflexivity.
    + reflexivity.
    + discriminate.
    + intros _. split; [reflexivity|]. repeat constructor.
    + vm_compute. reflexivity.
    + reflexivity.
  - destruct (matched_directory_contents_are_staged E self (project_directory self)
                (tmp_folder self) with_package w2 (relative ["pkg"])
                (relative ["pkg"]) ["sub"; "deep.py"]) as [_ Hf].
    + left. reflexivity.
    + reflexivity.
    + reflexivity.
    + discriminate.
    + intros _. split; [reflexivity|]. repeat constructor.
    + vm_compute. reflexivity.
    + destruct (Hf eq_refl) as [H|H]; [exact H|].
      vm_compute in H. discriminate H.
Defined.

Lemma config_falls_back_to_defaults_witness :
  _get_config other_tools_only (Path_of "pyproject.toml") poetry_only
  = (inr (mkConfig ["*.py"] true),
     mkWorld (disk poetry_only) (cwd poetry_only)
       [Log WARNING "no config found!"]) /\
  fst (_get_config other_tools_only (Path_of "pyproject.toml") handler_only)
  = inr (mkConfig ["*.py"] true).
Proof.
  destruct (config_falls_back_to_defaults other_tools_only
              (Path_of "pyproject.toml") poetry_only) as [_ Hthere].
  destruct (config_falls_back_to_defaults other_tools_only
              (Path_of "pyproject.toml") handler_only) as [Hmissing _].
  split.
  - destruct (Hthere [("tool", TomlTable [("poetry", TomlTable [])])]
                eq_refl eq_refl) as [Hdefault _].
    rewrite Hdefault; [reflexivity|].
    right. exists [("poetry", TomlTable [])]. split; reflexivity.
  - rewrite Hmissing; reflexivity.
Defined.

(** ** Hidden paths in the staging directory *)

(** A regular file survives the writes that are not allowed to write a
    regular file in its place. *)
Lemma writes_keeps_file Q w w' q d :
  writes Q w w' -> (forall d', ~ Q q (KFile d')) ->
  kind_at (disk w) q = Some (KFile d) ->
  kind_at (disk w') q = Some (KFile d).
Proof.
  intros Hw HQ. induction Hw as [w|w w1 w' Hs _ IH]; [auto|].
  intros Hk. apply IH.
  destruct (step_kind _ _ q Hs)
    as [He|(k & Hk1 & HQk & [Hn|(d0 & d1 & _ & ->)])].
  - rewrite He. exact Hk.
  - congruence.
  - exfalso. exact (HQ _ HQk).
Qed.

(** With the filter on, what the loop body writes under a path with a dot
    segment is a directory at or above the destination of its object. *)
Lemma object_writes_hidden P T c obj q k :
  object_writes true P T c obj (locate_in c T ++ q) k ->
  existsb dot_name q = true ->
  k = KDir /\
  exists rel, relative_to obj P = Some rel /\ q `prefix_of` parts rel.
Proof.
  intros (rel & Hrel & Hcases) Hdot.
  destruct (relative_to_parts _ _ _ Hrel) as [Habs Hparts].
  cbv zeta in Hcases. rewrite (locate_joinpath_relative _ _ _ Habs) in Hcases.
  destruct Hcases as [[-> Hq]|[(Hq & _ & Hh)|(x & Hq & _ & Hh)]].
  - split; [reflexivity|]. exists rel. split; [exact Hrel|].
    destruct (prefix_app_cases _ _ _ Hq) as [Hp|(x & Hx & Hpre)].
    + apply prefix_app_self_nil in Hp. subst q. discriminate Hdot.
    + apply app_inv_head in Hx. subst x. exact Hpre.
  - exfalso. apply app_inv_head in Hq. subst q.
    specialize (Hh eq_refl). apply hidden_str in Hh.
    rewrite (no_dot_existsb _ Hh) in Hdot. discriminate.
  - exfalso. rewrite <- app_assoc in Hq. apply app_inv_head in Hq. subst q.
    destruct (Hh eq_refl) as [Hobj Hx].
    apply hidden_str in Hobj. rewrite Hparts in Hobj.
    apply Forall_app in Hobj as [_ Hobj].
    assert (Hall : Forall (fun n => dot_name n = false) (parts rel ++ x))
      by (apply Forall_app; split; [exact Hobj|apply no_hidden_no_dot, Hx]).
    rewrite (no_dot_existsb _ Hall) in Hdot. discriminate.
Qed.

Lemma copier_hidden_paths E self P T w r w' q :
  ignore_hidden_files (config self) = true ->
  existsb dot_name q = true ->
  _copy_source_files E self P T w = (r, w') ->
  (forall d, kind_at (disk w) (locate w T ++ q) = Some (KFile d) <->
             kind_at (disk w') (locate w T ++ q) = Some (KFile d)) /\
  (is_dir_at (disk w') (locate w T ++ q) = true ->
   is_dir_at (disk w) (locate w T ++ q) = true \/
   exists obj rel,
     In obj (matched E self P w) /\ relative_to obj P = Some rel /\
     q `prefix_of` parts rel).
Proof.
  intros Hh Hdot Hc.
  pose proof (copy_source_files_writes _ _ _ _ _ _ _ Hc) as Hw.
  rewrite Hh in Hw. split; [intros d; split|].
  - apply (writes_keeps_file _ _ _ _ _ Hw).
    intros d' (obj & _ & Hobj).
    destruct (object_writes_hidden _ _ _ _ _ _ Hobj Hdot) as [Hk _]. discriminate.
  - intros Hk. destruct (writes_kind _ _ _ _ Hw Hk) as [Hb|(obj & _ & Hobj)];
      [exact Hb|].
    destruct (object_writes_hidden _ _ _ _ _ _ Hobj Hdot) as [Hk' _]. discriminate.
  - intros Hd. apply is_dir_kind in Hd.
    destruct (writes_kind _ _ _ _ Hw Hd) as [Hb|(obj & Hin & Hobj)].
    + left. apply is_dir_kind, Hb.
    + right. destruct (object_writes_hidden _ _ _ _ _ _ Hobj Hdot)
        as [_ (rel & Hrel & Hpre)]. eauto.
Qed.

(** X18.  With the hidden-file filter on, the copier leaves the regular
    files under a path with a dot segment as they are, whatever its
    outcome: below the staging directory, such a path holds a regular file
    with given bytes afterwards exactly when it did before.  A directory
    under such a path is there afterwards only if it was there before, or
    lies at or above the destination of a matched object. *)
Theorem copier_leaves_hidden_paths_alone
    (E : collaborators) (self : LambdaAutoPackage) (P T : Path) (w : world)
    (q : list string) :
  let w' := snd (_copy_source_files E self P T w) in
  ignore_hidden_files (config self) = true ->
  existsb dot_name q = true ->
  (forall d, kind_at (disk w) (locate w T ++ q) = Some (KFile d) <->
             kind_at (disk w') (locate w T ++ q) = Some (KFile d)) /\
  (is_dir_at (disk w') (locate w T ++ q) = true ->
   is_dir_at (disk w) (locate w T ++ q) = true \/
   exists obj rel,
     In obj (matched E self P w) /\ relative_to obj P = Some rel /\
     q `prefix_of` parts rel).
Proof.
  intros w' Hh Hdot. subst w'.
  destruct (_copy_source_files E self P T w) as [r w'] eqn:Hc. cbn [snd].
  exact (copier_hidden_paths _ _ _ _ _ _ _ _ Hh Hdot Hc).
Qed.

(** X19.  With the hidden-file filter on, when the run completes, on a
    disk whose listings name no entry twice after the dependency stage:
    every regular file of the archive under a path with a dot segment was
    in the staging directory before the copier started and has the same
    bytes after it; every directory of the archive under such a path was
    in the staging directory before the copier started, or lies at or above
    the destination of a matched object, or is the directory the archive is
    written to. *)
Theorem no_hidden_regular_file_copied
    (E : collaborators) (self : LambdaAutoPackage) (w w' : world) :
  let P := project_directory self in
  let T := tmp_folder self in
  ignore_hidden_files (config self) = true ->
  execute E self w = (Ok tt, w') ->
  exists w1 w2 ms,
    install_dependencies E self w = (Ok tt, w1) /\
    _copy_source_files E self P T w1 = (Ok tt, w2) /\
    kind_at (disk w') (locate w1 (Path_of (archive_target self)))
    = Some (KFile (ZipArchive ms)) /\
    (wf_node (disk w1) = true ->
     forall q, existsb dot_name q = true ->
       (In (q, false) ms ->
        exists d,
          kind_at (disk w1) (locate w1 T ++ q) = Some (KFile d) /\
          kind_at (disk w2) (locate w1 T ++ q) = Some (KFile d)) /\
       (In (q, true) ms ->
        is_dir_at (disk w1) (locate w1 T ++ q) = true \/
        (exists obj rel,
           In obj (matched E self P w1) /\ relative_to obj P = Some rel /\
           q `prefix_of` parts rel) \/
        locate w1 T ++ q
        = removelast (locate w1 (Path_of (archive_target self))))).
Proof.
  intros P T Hh Hex.
  destruct (execute_steps _ _ _ _ _ Hex)
    as [(e & _ & He)|(w1 & Hdep & [(e & _ & He)|(w2 & Hcopy & Hzip)])];
    try discriminate.
  fold P T in Hcopy, Hzip.
  pose proof (copy_source_files_writes _ _ _ _ _ _ _ Hcopy) as H12.
  pose proof (writes_cwd _ _ H12) as Hc2.
  assert (Hloc2 : forall p, locate w2 p = locate w1 p)
    by (intros p; unfold locate; rewrite Hc2; reflexivity).
  pose proof (create_zip_file_steps T (archive_target self) w2
                (archive_target_zip self)) as Hs.
  cbv zeta in Hs. rewrite Hloc2 in Hs.
  set (Z := locate w1 (Path_of (archive_target self))) in *.
  destruct (mkdir_exist_ok (removelast Z) w2) as [[[]|e] w3] eqn:Emk;
    cbv beta iota in Hs; [|congruence].
  rewrite Hs in Hzip.
  pose proof (mkdir_writes _ _ _ _ Emk) as H23.
  pose proof (writes_cwd _ _ H23) as Hc3. rewrite Hc2 in Hc3.
  exists w1, w2, (staged_members w3 T).
  split; [exact Hdep|]. split; [exact Hcopy|].
  split; [eapply write_file_ok, Hzip|].
  intros Hwf q Hdot.
  assert (Hwf3 : wf_node (disk w3) = true).
  { eapply writes_wf; [exact H23|]. eapply writes_wf; [exact H12|exact Hwf]. }
  assert (Hmember : forall b, In (q, b) (staged_members w3 T) ->
            if b then kind_at (disk w3) (locate w1 T ++ q) = Some KDir
            else exists d, kind_at (disk w3) (locate w1 T ++ q) = Some (KFile d)).
  { intros b Hin. unfold staged_members, locate in Hin. rewrite Hc3 in Hin.
    fold (locate w1 T) in Hin.
    destruct (lookup_node (disk w3) (locate w1 T)) as [t|] eqn:Et; [|destruct Hin].
    destruct (members_sound t [] q b (wf_lookup _ _ _ Hwf3 Et) Hin)
      as (x & Hq & _ & Hkind).
    cbn [app] in Hq. subst x. unfold kind_at in *.
    rewrite (lookup_app _ _ _ _ Et). exact Hkind. }
  destruct (copier_hidden_paths _ _ _ _ _ _ _ _ Hh Hdot Hcopy) as [Hfiles Hdirs].
  split.
  - intros Hin. destruct (Hmember false Hin) as [d Hk3].
    destruct (writes_kind _ _ _ _ H23 Hk3) as [Hk2|[_ Hbad]]; [|discriminate].
    exists d. split; [apply Hfiles, Hk2|exact Hk2].
  - intros Hin. pose proof (Hmember true Hin) as Hk3.
    destruct (writes_kind _ _ _ _ H23 Hk3) as [Hk2|[Hq _]].
    + destruct (Hdirs (proj2 (is_dir_kind _ _) Hk2)) as [Hb|Hobj]; auto.
    + right. right. exact Hq.
Qed.

Lemma no_hidden_regular_file_copied_witness :
  let E := finds [relative ["handler.py"]; relative [".env.py"]] false in
  let self := packager ["*.py"] true in
  exists ms,
    kind_at (disk (snd (execute E self with_installed_package)))
      ["proj"; "dist"; "lambda.zip"] = Some (KFile (ZipArchive ms)) /\
    forall q, existsb dot_name q = true -> In (q, false) ms ->
      exists d,
        kind_at (disk with_installed_package) (["tmp"; "stage"] ++ q)
        = Some (KFile d).
Proof.
  intros E self.
  destruct (no_hidden_regular_file_copied E self with_installed_package
              (snd (execute E self with_installed_package)))
    as (w1 & w2 & ms & Hdep & _ & Hk & Hmembers).
  - reflexivity.
  - vm_compute. reflexivity.
  - vm_compute in Hdep. injection Hdep as <-.
    exists ms. split; [exact Hk|].
    intros q Hdot Hin.
    destruct (proj1 (Hmembers eq_refl q Hdot) Hin) as (d & Hd & _). eauto.
Defined.

(** ** Without a source of dependencies *)

Lemma copier_stages E self P T w w2 obj rel :
  In obj (matched E self P w) ->
  relative_to obj P = Some rel ->
  _copy_source_files E self P T w = (Ok tt, w2) ->
  (is_file_at (disk w) (locate w obj) = true ->
   ignore_hidden_files (config self) && _is_hidden_file (str rel) = false ->
   is_file_at (disk w2) (locate w T ++ parts rel) = true) /\
  (is_dir_at (disk w) (locate w obj) = true ->
   is_dir_at (disk w2) (locate w T ++ parts rel) = true).
Proof.
  intros Hin Hrel Hcopy.
  destruct (relative_to_parts _ _ _ Hrel) as [Habs _].
  assert (Hdst : locate w (joinpath T rel) = locate w T ++ parts rel)
    by (unfold locate; apply locate_joinpath_relative, Habs).
  rewrite <- Hdst.
  destruct (copy_source_files_ok _ _ _ _ _ _ Hcopy)
    as (w0 & copied & w3 & H0 & Hfe & H3).
  destruct (for_each_ok_step _ _ _ _ _ _ _ _ Hfe obj Hin)
    as (c1 & wa & c2 & wb & Ha & Hs & Hb).
  assert (H0a : writes anything w wa) by (eapply writes_trans; eassumption).
  assert (Hb2 : writes anything wb w2) by (eapply writes_trans; eassumption).
  assert (Hca : cwd wa = cwd w) by (eapply writes_cwd, H0a).
  assert (Hloc : forall p, locate wa p = locate w p)
    by (intros p; unfold locate; rewrite Hca; reflexivity).
  split.
  - intros Hfile Hvis.
    assert (Hfa : is_file_at (disk wa) (locate wa obj) = true)
      by (rewrite Hloc; eapply writes_file; eassumption).
    destruct (copy_object_file _ _ _ _ _ _ _ _ _ Hrel Hfa Hvis Hs) as [_ Hf].
    rewrite Hloc in Hf. eapply writes_file; eassumption.
  - intros Hdir.
    assert (Hda : is_dir_at (disk wa) (locate wa obj) = true)
      by (rewrite Hloc; eapply writes_dir; eassumption).
    destruct (copy_object_directory _ _ _ _ _ _ _ _ _ Hrel Hda Hs) as [_ Hd].
    rewrite Hloc in Hd. eapply writes_dir; eassumption.
Qed.

(** X20.  Without a [requirements.txt] at the project root and without a
    lock manifest, the dependency stage logs a warning and ends well, with
    the disk as it was, and no installer and no export is started in the
    whole run.  When the run completes from an empty staging directory
    (listings naming no entry twice, the archive's directory outside the
    staging directory), the archive holds what the copier brought and
    nothing else: every matched regular file that the filter does not skip
    is a member under its relative path, every matched directory is, and
    every member lies at, above or below the relative path of a matched
    object. *)
Theorem no_dependency_source_is_not_a_failure
    (E : collaborators) (self : LambdaAutoPackage) (w : world) :
  let P := project_directory self in
  let T := tmp_folder self in
  let w0 := mkWorld (disk w) (cwd w)
              (trace w ++ [Log WARNING "No dependency found, none will be packaged"]) in
  is_file_at (disk w) (locate w (joinpath P (Path_of "requirements.txt"))) = false ->
  poetry_is_used E P w = false ->
  install_dependencies E self w = (Ok tt, w0) /\
  tools (snd (execute E self w)) = tools w /\
  forall w',
    execute E self w = (Ok tt, w') ->
    wf_node (disk w) = true ->
    lookup_node (disk w) (locate w T) = Some (Dir []) ->
    ~ locate w T `prefix_of` removelast (locate w (Path_of (archive_target self))) ->
    exists ms,
      kind_at (disk w') (locate w (Path_of (archive_target self)))
      = Some (KFile (ZipArchive ms)) /\
      (forall obj rel,
         In obj (matched E self P w0) -> relative_to obj P = Some rel ->
         is_file_at (disk w) (locate w obj) = true ->
         ignore_hidden_files (config self) && _is_hidden_file (str rel) = false ->
         In (parts rel, false) ms) /\
      (forall obj rel,
         In obj (matched E self P w0) -> relative_to obj P = Some rel ->
         is_dir_at (disk w) (locate w obj) = true -> parts rel <> [] ->
         In (parts rel, true) ms) /\
      (forall q b, In (q, b) ms ->
         exists obj rel,
           In obj (matched E self P w0) /\ relative_to obj P = Some rel /\
           (q `prefix_of` parts rel \/ parts rel `prefix_of` q)).
Proof.
  intros P T w0 Hreq Hp.
  pose proof (install_dependencies_none E self w Hreq Hp) as Hdep.
  fold w0 in Hdep.
  split; [exact Hdep|]. split.
  - destruct (execute E self w) as [r w'] eqn:Hex. cbn [snd].
    destruct (execute_steps _ _ _ _ _ Hex)
      as [(e & Hd & _)|(w1 & Hd & Hrest)]; rewrite Hdep in Hd; [discriminate|].
    injection Hd as <-.
    rewrite <- (tools_snoc_log w WARNING "No dependency found, none will be packaged").
    fold w0.
    destruct Hrest as [(e & Hc & _)|(w2 & Hc & Hz)].
    + eapply tools_copy, Hc.
    + rewrite (tools_zip _ _ _ _ _ Hz). eapply tools_copy, Hc.
  - intros w' Hex Hwf Hempty Hout.
    destruct (execute_steps _ _ _ _ _ Hex)
      as [(e & _ & He)|(w1 & Hd & [(e & _ & He)|(w2 & Hcopy & Hzip)])];
      try discriminate.
    rewrite Hdep in Hd. injection Hd as <-.
    fold P T in Hcopy, Hzip.
    pose proof (copy_source_files_writes _ _ _ _ _ _ _ Hcopy) as H02.
    destruct (create_zip_file_ok _ _ _ _ Hzip) as (w3 & H23 & _ & Hk).
    pose proof (writes_cwd _ _ H02) as Hc2. cbn [cwd w0] in Hc2.
    pose proof (writes_cwd _ _ H23) as Hc3. rewrite Hc2 in Hc3.
    assert (Hwf3 : wf_node (disk w3) = true).
    { eapply writes_wf; [exact H23|]. eapply writes_wf; [exact H02|exact Hwf]. }
    assert (Hstage0 : is_dir_at (disk w0) (locate w T) = true)
      by (unfold is_dir_at; cbn [disk w0]; rewrite Hempty; reflexivity).
    assert (Hstage3 : is_dir_at (disk w3) (locate w3 T) = true).
    { unfold locate. rewrite Hc3. fold (locate w T).
      eapply writes_dir; [exact H23|]. eapply writes_dir; [exact H02|exact Hstage0]. }
    assert (Hloc3 : locate w3 T = locate w T)
      by (unfold locate; rewrite Hc3; reflexivity).
    pose proof (staged_members_spec w3 T Hwf3 Hstage3) as Hspec.
    rewrite Hloc3 in Hspec, Hstage3.
    exists (staged_members w3 T). split; [|split; [|split]].
    + unfold locate in *. rewrite Hc2 in Hk. exact Hk.
    + intros obj rel Hin Hrel Hfile Hvis.
      destruct (copier_stages _ _ _ _ _ _ _ _ Hin Hrel Hcopy) as [Hf _].
      specialize (Hf Hfile Hvis). change (locate w0 T) with (locate w T) in Hf.
      pose proof (writes_file _ _ _ H23 Hf) as Hf3.
      apply (proj2 (Hspec (parts rel))). split; [|exact Hf3].
      intros He. rewrite He, app_nil_r in Hf3.
      unfold is_file_at in Hf3. unfold is_dir_at in Hstage3.
      destruct (lookup_node (disk w3) (locate w T)) as [[| |]|]; discriminate.
    + intros obj rel Hin Hrel Hdir Hne.
      destruct (copier_stages _ _ _ _ _ _ _ _ Hin Hrel Hcopy) as [_ Hd].
      specialize (Hd Hdir). change (locate w0 T) with (locate w T) in Hd.
      pose proof (writes_dir _ _ _ H23 Hd) as Hd3.
      apply (proj1 (Hspec (parts rel))). split; [exact Hne|exact Hd3].
    + intros q b Hin.
      unfold staged_members, locate in Hin. rewrite Hc3 in Hin.
      fold (locate w T) in Hin.
      destruct (lookup_node (disk w3) (locate w T)) as [t|] eqn:Et;
        [|destruct Hin].
      destruct (members_sound t [] q b (wf_lookup _ _ _ Hwf3 Et) Hin)
        as (x & Hq & Hx & Hkind).
      cbn [app] in Hq. subst x.
      assert (exists k, kind_at (disk w3) (locate w T ++ q) = Some k) as [k Hk3].
      { unfold kind_at in *. rewrite (lookup_app _ _ _ _ Et).
        destruct b; [eauto|]. destruct Hkind as [d Hd]. eauto. }
      destruct (writes_kind _ _ _ _ H23 Hk3) as [Hk2|[_ Hbad]].
      2:{ exfalso. apply Hout. unfold locate in Hbad. rewrite Hc2 in Hbad.
          eapply prefix_app_l. exact Hbad. }
      destruct (writes_kind _ _ _ _ H02 Hk2) as [Hk0|(obj & Hobj & Hw)].
      * exfalso. unfold kind_at in Hk0. cbn [disk w0] in Hk0.
        rewrite (lookup_app _ _ _ _ Hempty) in Hk0.
        destruct q; [congruence|discriminate].
      * cbn [cwd w0] in Hw.
        destruct (object_writes_near _ _ _ _ _ _ _ Hw)
          as (rel & [(Hrel & y & Hy & Hnear)|[_ Hbad]]).
        -- apply app_inv_head in Hy. subst y. exists obj, rel. auto.
        -- exfalso. apply Hx. eapply prefix_app_self_nil. exact Hbad.
Qed.

Lemma no_dependency_source_is_not_a_failure_witness :
  let E := finds [relative ["src"; "handler.py"]] false in
  let self := packager ["*.py"] true in
  tools (snd (execute E self handler_only)) = [] /\
  exists ms,
    kind_at (disk (snd (execute E self handler_only)))
      ["proj"; "dist"; "lambda.zip"] = Some (KFile (ZipArchive ms)) /\
    In (["src"; "handler.py"], false) ms /\
    forall q b, In (q, b) ms ->
      q `prefix_of` ["src"; "handler.py"] \/ ["src"; "handler.py"] `prefix_of` q.
Proof.
  intros E self.
  destruct (no_dependency_source_is_not_a_failure E self handler_only)
    as (_ & Htools & Harchive).
  - reflexivity.
  - reflexivity.
  - split; [exact Htools|].
    destruct (Harchive (snd (execute E self handler_only)))
      as (ms & Hk & Hfiles & _ & Hms).
    + vm_compute. reflexivity.
    + reflexivity.
    + reflexivity.
    + intros [k Hk]. vm_compute in Hk. discriminate Hk.
    + exists ms. split; [exact Hk|]. split.
      * apply (Hfiles (relative ["src"; "handler.py"])
                 (relative ["src"; "handler.py"])).
        -- vm_compute. left. reflexivity.
        -- reflexivity.
        -- reflexivity.
        -- reflexivity.
      * intros q b Hin.
        destruct (Hms q b Hin) as (obj & rel & Hobj & Hrel & Hnear).
        vm_compute in Hobj. destruct Hobj as [<-|[]].
        vm_compute in Hrel. injection Hrel as <-. exact Hnear.
Defined.

Lemma matching_objects_are_the_union_witness :
  let E := finds [relative ["handler.py"]] false in
  List.NoDup [relative ["handler.py"]] /\
  exists pattern,
    In pattern ["*.py"; "handler*"] /\
    In (relative ["handler.py"]) (rglob E (mkPath false []) pattern handler_only).
Proof.
  intros E.
  destruct (matching_objects_are_the_union E ["*.py"; "handler*"] (mkPath false [])
              handler_only handler_only [relative ["handler.py"]] eq_refl)
    as (_ & Hnd & Hin).
  split; [exact Hnd|]. apply Hin. left. reflexivity.
Defined.

Lemma copier_leaves_hidden_paths_alone_witness :
  let E := finds [relative ["handler.py"]; relative [".env.py"]] false in
  let self := packager ["*.py"] true in
  kind_at (disk (snd (_copy_source_files E self (project_directory self)
                        (tmp_folder self) with_installed_package)))
    ["tmp"; "stage"; "foo"; ".libs"] = Some (KFile (Bytes "pass")).
Proof.
  intros E self.
  apply (proj1 (copier_leaves_hidden_paths_alone E self (project_directory self)
                  (tmp_folder self) with_installed_package ["foo"; ".libs"]
                  eq_refl eq_refl) (Bytes "pass")).
  reflexivity.
Defined.
